(** * Verification of the news RAG pipeline

    A shallow embedding of the ingestion normalisation / deduplication code
    ([backend/services/newsIngestionService.js], [newsIngestion.js]), of the
    retrieval-and-generation pipeline ([backend/services/rag.js]), of the
    Redis query cache and of the socket message handler that ties them
    together, followed by the properties the specification states about them.

    Conventions
    - A JavaScript string is its sequence of UTF-16 code units ([list N]);
      [.length], [substring] and the regular expressions of the source (none
      of which carries the [u] flag) all work on code units.
    - [undefined] / [null] are [None]; truthiness of an optional string is
      [truthy].
    - The external providers (MD5, JSON, Jina, Qdrant, Gemini, the feed parser
      and the page fetcher) are parameters: a type class for the pure ones, a
      record of oracles for the ones that can fail. *)

From Stdlib Require Import NArith List String Ascii Bool Lia QArith.
From stdpp Require Import base option list gmap sets countable.
Import ListNotations.

Close Scope Q_scope.
Local Open Scope list_scope.

(* ===================================================================== *)
(** * JavaScript strings *)
(* ===================================================================== *)

Abbreviation jsstring := (list N).

Module JS.
Local Open Scope N_scope.

(** A source literal, one code unit per (ASCII) character. *)
Definition str (s : string) : jsstring :=
  List.map N_of_ascii (list_ascii_of_string s).

Definition LT : N := 60.     (* '<' *)
Definition GT : N := 62.     (* '>' *)
Definition SPACE : N := 32.

(** [\s] of an ECMAScript regular expression, which is also the set
    [String.prototype.trim] removes: WhiteSpace and LineTerminator. *)
Definition is_white_space (c : N) : bool :=
  (c =? 9) || (c =? 10) || (c =? 11) || (c =? 12) || (c =? 13)
  || (c =? 32) || (c =? 160) || (c =? 5760)
  || ((8192 <=? c) && (c <=? 8202))
  || (c =? 8232) || (c =? 8233) || (c =? 8239) || (c =? 8287)
  || (c =? 12288) || (c =? 65279).

Definition is_digit (c : N) : bool := (48 <=? c) && (c <=? 57).
Definition is_upper (c : N) : bool := (65 <=? c) && (c <=? 90).
Definition is_lower (c : N) : bool := (97 <=? c) && (c <=? 122).
Definition is_alnum (c : N) : bool := is_digit c || is_upper c || is_lower c.

(** [\w] without the [i]/[u] flags: [A-Za-z0-9_]. *)
Definition is_word_char (c : N) : bool := is_alnum c || (c =? 95).

(** [a || b] on optional strings: the first truthy operand, else the last. *)
Definition truthy (o : option jsstring) : bool :=
  match o with
  | Some (_ :: _) => true
  | _ => false
  end.

Definition or_else (a b : option jsstring) : option jsstring :=
  if truthy a then a else b.

(** [a || 'literal']. *)
Definition or_default (a : option jsstring) (d : jsstring) : jsstring :=
  match a with
  | Some (c :: r) => c :: r
  | _ => d
  end.

(** [arr.slice(-n)]: the last [n] elements, all of them when fewer. *)
Definition slice_last {A} (n : N) (l : list A) : list A :=
  skipn (length l - N.to_nat n) l.

(** [arr.slice(0, n)] and [s.substring(0, n)]. *)
Definition slice_first {A} (n : N) (l : list A) : list A :=
  firstn (N.to_nat n) l.

(** [s.length] / [arr.length]. *)
Definition len {A} (l : list A) : N := N.of_nat (length l).

(** [parts.join(sep)]. *)
Fixpoint join (sep : jsstring) (parts : list jsstring) : jsstring :=
  match parts with
  | [] => []
  | [p] => p
  | p :: rest => p ++ sep ++ join sep rest
  end.

(** [String.prototype.toLowerCase] on the code units [A-Z]; every other
    code unit is left alone.  This is the whole of the ECMAScript mapping
    on the strings it is applied to here (article titles, which
    [cleanText] has already restricted to ASCII, see [cleanText_ascii]
    below). *)
Definition lower_unit (c : N) : N := if is_upper c then c + 32 else c.
Definition toLowerCase (s : jsstring) : jsstring := List.map lower_unit s.

(** [trimStart] / [trimEnd] / [trim]. *)
Fixpoint trimStart (s : jsstring) : jsstring :=
  match s with
  | [] => []
  | c :: r => if is_white_space c then trimStart r else c :: r
  end.

Definition trimEnd (s : jsstring) : jsstring := rev (trimStart (rev s)).
Definition trim (s : jsstring) : jsstring := trimEnd (trimStart s).

End JS.

(* ===================================================================== *)
(** * ContentNormalizer: [cleanText] *)
(* ===================================================================== *)

Module Normalizer.
Import JS.
Local Open Scope N_scope.

(** [.replace(/<[^>]*>/g, '')].  A match starts at a ['<'] that has a
    ['>'] somewhere after it and ends at the first such ['>'] (the class
    [[^>]] cannot step over one); a ['<'] with no ['>'] after it starts no
    match, and neither does any later one.  [in_tag] says the scan is
    inside a match. *)
Fixpoint strip_tags_from (in_tag : bool) (s : jsstring) : jsstring :=
  match s with
  | [] => []
  | c :: r =>
      if in_tag then
        if c =? GT then strip_tags_from false r else strip_tags_from true r
      else if (c =? LT) && existsb (N.eqb GT) r then strip_tags_from true r
      else c :: strip_tags_from false r
  end.

Definition strip_tags (s : jsstring) : jsstring := strip_tags_from false s.

(** [.replace(/\s+/g, ' ')]: every maximal run of white space becomes one
    space.  [in_run] says the previous code unit was white space. *)
Fixpoint collapse_from (in_run : bool) (s : jsstring) : jsstring :=
  match s with
  | [] => []
  | c :: r =>
      if is_white_space c then
        if in_run then collapse_from true r else SPACE :: collapse_from true r
      else c :: collapse_from false r
  end.

Definition collapse_whitespace (s : jsstring) : jsstring := collapse_from false s.

(** The punctuation the third replacement keeps: full stop, comma,
    exclamation and question mark, semicolon, colon, both parentheses,
    hyphen, double quote (34) and apostrophe (39). *)
Definition is_basic_punct (c : N) : bool :=
  existsb (N.eqb c) [46; 44; 33; 63; 59; 58; 40; 41; 45; 34; 39].

Definition is_kept (c : N) : bool :=
  is_word_char c || is_white_space c || is_basic_punct c.

(** The third replacement: every code unit outside [\w], [\s] and the
    punctuation above is removed. *)
Definition remove_special (s : jsstring) : jsstring := List.filter is_kept s.

(** [cleanText(text)]; the guard [if (!text) return ''] is the first case. *)
Definition cleanText (text : jsstring) : jsstring :=
  match text with
  | [] => []
  | _ => trim (remove_special (collapse_whitespace (strip_tags text)))
  end.

(** What [cleanText] can leave in its output, code unit by code unit. *)
Definition clean_unit (c : N) : Prop :=
  c <> LT /\ c <> GT /\
  (is_word_char c = true \/ c = SPACE \/ is_basic_punct c = true).

End Normalizer.

(* ===================================================================== *)
(** * Pure platform functions *)
(* ===================================================================== *)

(** A stored chat message as [RedisService.addChatMessage] builds it.  The
    pipeline reads [role] and [content]; the fingerprint serialises all of
    it. *)
Record ChatMessage := mkChatMessage {
  msg_id : jsstring;
  msg_timestamp : jsstring;
  msg_role : jsstring;
  msg_content : jsstring;
}.

(** Node's [crypto.createHash('md5').update(s).digest('hex')] and
    [JSON.stringify] on a message array: library functions, deterministic,
    taken as parameters. *)
Class Platform := {
  md5_hex : jsstring -> jsstring;
  JSON_stringify : list ChatMessage -> jsstring;
}.

(* ===================================================================== *)
(** * ArticleIdentity and the ingestion orchestrator *)
(* ===================================================================== *)

Module Ingestion.
Import JS Normalizer.
Local Open Scope N_scope.

(** A feed item as [rss-parser] yields it; absent fields are [None]. *)
Record Item := mkItem {
  item_link : option jsstring;
  item_guid : option jsstring;
  item_title : option jsstring;
  item_contentSnippet : option jsstring;
  item_content : option jsstring;
  item_description : option jsstring;
  item_pubDate : option jsstring;
  item_isoDate : option jsstring;
}.

(** An entry of [rssSources]. *)
Record Source := mkSource {
  src_name : jsstring;
  src_url : jsstring;
  src_category : jsstring;
  src_region : option jsstring;
}.

(** The article record [processRSSItem] returns.  The enrichment fields
    computed from the finished content ([author], [tags], [summary],
    [language], [mediaUrl]) are read by nothing modelled here and cannot
    throw; they are left out. *)
Record Article := mkArticle {
  art_id : jsstring;
  art_title : jsstring;
  art_content : jsstring;
  art_url : jsstring;
  art_publishedAt : jsstring;
  art_source : jsstring;
  art_category : jsstring;
  art_region : jsstring;
  art_wordCount : N;
}.

(** What a run sees of the outside: the feed parser, the text the selector
    cascade of [scrapeFullArticle] extracts from a fetched page ([None] when
    the request or the parse throws), and the clock. *)
Record Web := mkWeb {
  parseURL : jsstring -> option (list Item);
  extractPageText : jsstring -> option jsstring;
  nowISO : jsstring;
}.

Definition MIN_CONTENT : N := 100.
Definition SCRAPE_BELOW : N := 200.
Definition MAX_CONTENT : N := 6000.
Definition MAX_SCRAPED : N := 5000.
Definition ELLIPSIS : jsstring := str "...".

(** [content.length > max ? content.substring(0, max) + '...' : content]. *)
Definition truncate (max : N) (content : jsstring) : jsstring :=
  if max <? len content then slice_first max content ++ ELLIPSIS
  else content.

(** The tail of [scrapeFullArticle] (newsIngestionService.js): the extracted
    text is cleaned, limited to 5000 code units, and returned only when
    longer than 200. *)
Definition scrapeFullArticle (W : Web) (url : jsstring) : option jsstring :=
  match extractPageText W url with
  | None => None
  | Some extracted =>
      let content := truncate MAX_SCRAPED (cleanText extracted) in
      if 200 <? len content then Some content else None
  end.

(** [item.link || item.guid || item.title], the argument of [update]. *)
Definition idKey (item : Item) : option jsstring :=
  or_else (or_else (item_link item) (item_guid item)) (item_title item).

(** [item.contentSnippet || item.content || item.description || '']. *)
Definition feedContent (item : Item) : jsstring :=
  or_default
    (or_else (or_else (item_contentSnippet item) (item_content item))
             (item_description item))
    [].

(** The content before cleaning: the feed's, or the scraped page when the
    feed's is shorter than 200 and the scrape is longer. *)
Definition rawContent (W : Web) (item : Item) : jsstring :=
  let content := feedContent item in
  if (len content <? SCRAPE_BELOW) && truthy (item_link item) then
    match scrapeFullArticle W (or_default (item_link item) []) with
    | Some fullContent =>
        if len content <? len fullContent then fullContent
        else content
    | None => content
    end
  else content.

(** [content.split(' ').length]. *)
Definition wordCount (content : jsstring) : N :=
  1 + len (List.filter (N.eqb SPACE) content).

Section WithPlatform.
Context `{Platform}.

(** [processRSSItem(item, source)] of newsIngestionService.js.  [update]
    throws on [undefined], which the enclosing [try] turns into [null]. *)
Definition processRSSItem (W : Web) (item : Item) (source : Source)
  : option Article :=
  match idKey item with
  | None => None
  | Some key =>
      let articleId := md5_hex key in
      let content := cleanText (rawContent W item) in
      if len content <? MIN_CONTENT then None
      else
        let content := truncate MAX_CONTENT content in
        Some {| art_id := articleId;
                art_title := cleanText (or_default (item_title item) (str "Untitled"));
                art_content := content;
                art_url := or_default (item_link item) [];
                art_publishedAt :=
                  or_default (or_else (item_pubDate item) (item_isoDate item))
                             (nowISO W);
                art_source := src_name source;
                art_category := src_category source;
                art_region := or_default (src_region source) (str "Unknown");
                art_wordCount := wordCount content |}
  end.

(** [ingestFromRSS(source)]: at most the first 15 items; an unparseable feed
    yields no article. *)
Definition ingestFromRSS (W : Web) (source : Source) : list Article :=
  match parseURL W (src_url source) with
  | None => []
  | Some items =>
      omap (fun item => processRSSItem W item source) (slice_first 15 items)
  end.

(** The source loop of [ingestAllSources]: [allArticles] is every source's
    articles, in order.  ([ingestFromRSS] catches everything, so the [catch]
    around it in the loop never runs.) *)
Definition collectAllSources (W : Web) (rssSources : list Source)
  : list Article :=
  concat (List.map (ingestFromRSS W) rssSources).

(** The two keys of the deduplicating filter. *)
Definition titleKey (a : Article) : jsstring :=
  List.filter (fun c => is_word_char c || is_white_space c)
              (toLowerCase (art_title a)).

Definition urlKey (a : Article) : jsstring := art_url a.

Record Seen := mkSeen {
  seenUrls : gset jsstring;
  seenTitles : gset jsstring;
}.

Definition seen_none : Seen := {| seenUrls := ∅; seenTitles := ∅ |}.

(** [articles.filter(article => ...)] with its two mutable sets. *)
Fixpoint filterUnique (seen : Seen) (articles : list Article)
  : list Article * Seen :=
  match articles with
  | [] => ([], seen)
  | article :: rest =>
      if bool_decide (urlKey article ∈ seenUrls seen)
         || bool_decide (titleKey article ∈ seenTitles seen)
      then filterUnique seen rest
      else
        let seen' := {| seenUrls := {[ urlKey article ]} ∪ seenUrls seen;
                        seenTitles := {[ titleKey article ]} ∪ seenTitles seen |} in
        let (kept, seen'') := filterUnique seen' rest in
        (article :: kept, seen'')
  end.

(** The source loop of [ingestWithDeduplication], the sets carried along. *)
Fixpoint collectUnique (W : Web) (seen : Seen) (rssSources : list Source)
  : list Article :=
  match rssSources with
  | [] => []
  | source :: rest =>
      let (uniqueArticles, seen') := filterUnique seen (ingestFromRSS W source) in
      uniqueArticles ++ collectUnique W seen' rest
  end.

(** [allArticles] of [ingestWithDeduplication]: the loop started with both
    sets empty. *)
Definition collectWithDeduplication (W : Web) (rssSources : list Source)
  : list Article :=
  collectUnique W seen_none rssSources.

(** Neither key of the article has been seen. *)
Definition fresh_for (seen : Seen) (a : Article) : Prop :=
  (urlKey a ∉ seenUrls seen) /\ (titleKey a ∉ seenTitles seen).

(** [[...new Set(values)]]: the distinct values, first occurrences in
    order. *)
Fixpoint distinct_from (seen : list jsstring) (values : list jsstring)
  : list jsstring :=
  match values with
  | [] => []
  | v :: rest =>
      if bool_decide (v ∈ seen) then distinct_from seen rest
      else v :: distinct_from (v :: seen) rest
  end.

Definition distinct (values : list jsstring) : list jsstring :=
  distinct_from [] values.

End WithPlatform.

End Ingestion.

(* ===================================================================== *)
(** * Effects: provider calls, the cache store, exceptions *)
(* ===================================================================== *)

Module Retrieval.
Import JS Ingestion.
Local Open Scope N_scope.

Definition Vector := list Q.

(** The payload [storeDocument] / [storeBatchDocuments] write with a point. *)
Record Payload := mkPayload {
  pl_title : jsstring;
  pl_content : jsstring;
  pl_url : jsstring;
  pl_publishedAt : jsstring;
  pl_source : jsstring;
  pl_createdAt : jsstring;
}.

(** A point as [storeBatchDocuments] upserts it. *)
Record Point := mkPoint {
  pt_id : jsstring;
  pt_vector : Vector;
  pt_payload : Payload;
}.

(** One element of the array [qdrantClient.search] resolves to. *)
Record ScoredPoint := mkScoredPoint {
  sp_id : jsstring;
  sp_score : Q;
  sp_payload : Payload;
}.

(** [{ id: result.id, score: result.score, ...result.payload }]. *)
Record Doc := mkDoc {
  doc_id : jsstring;
  doc_score : Q;
  doc_title : jsstring;
  doc_content : jsstring;
  doc_url : jsstring;
  doc_publishedAt : jsstring;
  doc_source : jsstring;
  doc_createdAt : jsstring;
}.

(** An entry of [sources]. *)
Record SourceRef := mkSourceRef {
  ref_title : jsstring;
  ref_url : jsstring;
  ref_source : jsstring;
  ref_publishedAt : jsstring;
}.

(** What [generateResponse] returns. *)
Record Generated := mkGenerated {
  gen_response : jsstring;
  gen_sources : list SourceRef;
}.

(** The object the message handler sends on and caches.  [processQuery]
    sets all four keys; the handler's own fallback literal has only the
    first two. *)
Record QueryResult := mkQueryResult {
  response : jsstring;
  sources : list SourceRef;
  queryHash : option jsstring;
  relevantDocsCount : option N;
}.

(** An HTTP provider's answer to one request: the request throws (network
    error, timeout, error status), it resolves to a body without the
    expected field, or it resolves to the value. *)
Inductive Reply (A : Type) : Type :=
| Rejected
| Malformed
| Answer (a : A).
Arguments Rejected {A}.
Arguments Malformed {A}.
Arguments Answer {A} a.

(** The outside world during one request. *)
Record World := mkWorld {
  now : N;                                   (* seconds *)
  jina_embed : jsstring -> Reply Vector;
  qdrant_search : Vector -> N -> Q -> option (list ScoredPoint);
  gemini_generate : jsstring -> Reply jsstring;
  qdrant_upsert_ok : bool;
  redis_get_ok : bool;
  redis_set_ok : bool;
  clockISO : jsstring;                       (* new Date().toISOString() *)
}.

(** Calls that leave the process, in the order they are made. *)
Inductive Event : Type :=
| EvEmbed (text : jsstring)
| EvSearch (vector : Vector) (limit : N) (score_threshold : Q)
| EvGenerate (prompt : jsstring)
| EvUpsert (ids : list jsstring)
| EvCacheGet (key : jsstring)
| EvCacheSet (key : jsstring) (ttl : N).

Inductive Error : Type :=
| JinaKeyMissing
| JinaInvalidResponse
| GeminiKeyMissing
| GeminiInvalidResponse
| RequestFailed.

(** A Redis string value with the instant it expires at.  The value is the
    object itself: [cacheQueryResult] writes [JSON.stringify(result)] and
    [getCachedQueryResult] returns [JSON.parse] of it, and every field
    the handler reads back ([response], [sources]) survives that round trip. *)
Record CacheEntry := mkCacheEntry {
  entry_value : QueryResult;
  entry_expires : N;
}.

(** What persists from one request to the next: the Redis query cache, the
    Qdrant collection (points by id), and the calls made so far. *)
Record Store := mkStore {
  cache : gmap jsstring CacheEntry;
  points : gmap jsstring Point;
  log : list Event;
}.

Definition store_empty : Store := {| cache := ∅; points := ∅; log := [] |}.

Inductive Outcome (A : Type) : Type :=
| Returned (a : A)
| Thrown (e : Error).
Arguments Returned {A} a.
Arguments Thrown {A} e.

(** An [async] function body: it runs on the store and either returns or
    throws; what it did to the store stays done in both cases. *)
Definition Async (A : Type) : Type := Store -> Outcome A * Store.

Definition ret {A} (a : A) : Async A := fun st => (Returned a, st).

Definition throw {A} (e : Error) : Async A := fun st => (Thrown e, st).

Definition bind {A B} (m : Async A) (k : A -> Async B) : Async B :=
  fun st =>
    match m st with
    | (Returned a, st') => k a st'
    | (Thrown e, st') => (Thrown e, st')
    end.

Definition tryCatch {A} (body : Async A) (handler : Error -> Async A)
  : Async A :=
  fun st =>
    match body st with
    | (Returned a, st') => (Returned a, st')
    | (Thrown e, st') => handler e st'
    end.

(** The store after [calls] more provider calls. *)
Definition logged (st : Store) (calls : list Event) : Store :=
  {| cache := cache st; points := points st; log := log st ++ calls |}.

Definition emit (ev : Event) : Async unit :=
  fun st => (Returned tt, logged st [ev]).

Definition is_generate (ev : Event) : bool :=
  match ev with
  | EvGenerate _ => true
  | _ => false
  end.

(** How many times the generation provider was called. *)
Definition generations (calls : list Event) : nat :=
  length (List.filter is_generate calls).

Notation "'let*' x ':=' m 'in' k" := (bind m (fun x => k))
  (at level 10, x name, m at level 100, k at level 200).
Notation "m ';;' k" := (bind m (fun _ => k))
  (at level 100, k at level 200, right associativity).

(** [await provider(request)]: the call is logged, then its reply decides. *)
Definition awaitReply {A} (ev : Event) (reply : Reply A) (invalid : Error)
  : Async A :=
  emit ev ;;
  match reply with
  | Answer a => ret a
  | Malformed => throw invalid
  | Rejected => throw RequestFailed
  end.

(* ===================================================================== *)
(** * RAGService (rag.js) *)
(* ===================================================================== *)

Record RAGService := mkRAGService {
  jinaApiKey : option jsstring;
  geminiApiKey : option jsstring;
  isQdrantAvailable : bool;
}.

(** [initialize()]: the flag records whether [ensureCollection] went
    through; the method itself always returns [true]. *)
Definition initialize (svc : RAGService) (collectionReady : bool)
  : RAGService :=
  {| jinaApiKey := jinaApiKey svc;
     geminiApiKey := geminiApiKey svc;
     isQdrantAvailable := collectionReady |}.

Definition SCORE_THRESHOLD : Q := (7 # 10)%Q.
Definition SEARCH_LIMIT : N := 5.
Definition CACHE_TTL : N := 30 * 60.

Definition NL : jsstring := [10].
Definition lines (ls : list jsstring) : jsstring := join NL ls.

Definition ADVISORY : jsstring :=
  str "I'm currently unable to access the news database. The RAG service is running in limited mode. Please ensure Qdrant is properly configured and try again later.".

Definition NO_DATA : jsstring :=
  str "I don't have any news articles in my database yet. To get started, an administrator needs to run the news ingestion process. In the meantime, I can help answer general questions!".

Definition APOLOGY : jsstring :=
  str "I'm sorry, I'm having trouble processing your request right now. Please try again in a moment.".

Definition toDoc (result : ScoredPoint) : Doc :=
  {| doc_id := sp_id result;
     doc_score := sp_score result;
     doc_title := pl_title (sp_payload result);
     doc_content := pl_content (sp_payload result);
     doc_url := pl_url (sp_payload result);
     doc_publishedAt := pl_publishedAt (sp_payload result);
     doc_source := pl_source (sp_payload result);
     doc_createdAt := pl_createdAt (sp_payload result) |}.

Definition toSourceRef (doc : Doc) : SourceRef :=
  {| ref_title := doc_title doc;
     ref_url := doc_url doc;
     ref_source := doc_source doc;
     ref_publishedAt := doc_publishedAt doc |}.

(** The block one retrieved document contributes to the prompt. *)
Definition contextBlock (doc : Doc) : jsstring :=
  lines [ str "Title: " ++ doc_title doc;
          str "Content: " ++ doc_content doc;
          str "Source: " ++ doc_source doc;
          str "Published: " ++ doc_publishedAt doc;
          str "---" ].

Definition contextText (context : list Doc) : jsstring :=
  lines (List.map contextBlock context).

(** [chatHistory.slice(-5).map(msg => role + ': ' + content).join('\n')]. *)
Definition historyText (chatHistory : list ChatMessage) : jsstring :=
  lines (List.map (fun msg => msg_role msg ++ str ": " ++ msg_content msg)
                  (slice_last 5 chatHistory)).

(** The prompt of the branch [context.length > 0]. *)
Definition groundedPrompt (query : jsstring) (context : list Doc)
    (chatHistory : list ChatMessage) : jsstring :=
  lines [
    str "You are a helpful news assistant that provides accurate, informative responses based on the latest news articles. Use the provided context to answer the user's question.";
    [];
    str "Context from recent news articles:";
    contextText context;
    [];
    str "Previous conversation:";
    historyText chatHistory;
    [];
    str "User question: " ++ query;
    [];
    str "Instructions:";
    str "1. Provide a comprehensive answer based on the news context provided";
    str "2. If the context doesn't contain relevant information, say so clearly";
    str "3. Always cite your sources when referencing specific information";
    str "4. Be objective and factual";
    str "5. If asked about recent events, focus on the most current information available";
    str "6. Keep responses conversational but informative";
    [];
    str "Response:" ].

(** The prompt of the branch with no document: no article context at all,
    and the instruction to explain that the database is empty. *)
Definition emptyDatabasePrompt (query : jsstring)
    (chatHistory : list ChatMessage) : jsstring :=
  lines [
    str "You are a helpful assistant. The news database is currently empty, so you cannot provide news-specific information. Please respond helpfully to the user's question while explaining that news data is not yet available.";
    [];
    str "Previous conversation:";
    historyText chatHistory;
    [];
    str "User question: " ++ query;
    [];
    str "Instructions:";
    str "1. Be helpful and conversational";
    str "2. Explain that the news database is currently empty";
    str "3. Suggest that an administrator needs to run news ingestion";
    str "4. Offer to help with general questions";
    str "5. Keep responses friendly and informative";
    [];
    str "Response:" ].

Definition buildPrompt (query : jsstring) (context : list Doc)
    (chatHistory : list ChatMessage) : jsstring :=
  if 0 <? len context then groundedPrompt query context chatHistory
  else emptyDatabasePrompt query chatHistory.

Section Service.
Context `{Platform} (svc : RAGService) (W : World).

(** [generateEmbedding(text)]. *)
Definition generateEmbedding (text : jsstring) : Async Vector :=
  tryCatch
    (if truthy (jinaApiKey svc) then
       awaitReply (EvEmbed text) (jina_embed W text) JinaInvalidResponse
     else throw JinaKeyMissing)
    (fun error => throw error).

(** The point built from a document and its embedding. *)
Definition toPoint (doc : Article) (embedding : Vector) : Point :=
  {| pt_id := art_id doc;
     pt_vector := embedding;
     pt_payload := {| pl_title := art_title doc;
                      pl_content := art_content doc;
                      pl_url := art_url doc;
                      pl_publishedAt := art_publishedAt doc;
                      pl_source := art_source doc;
                      pl_createdAt := clockISO W |} |}.

(** Qdrant's [upsert]: each point replaces the one stored under its id. *)
Definition upsertPoints (batch : list Point) (st : Store) : Store :=
  {| cache := cache st;
     points := fold_left (fun m p => <[ pt_id p := p ]> m) batch (points st);
     log := log st |}.

(** [await this.qdrantClient.upsert(collection, { wait: true, points })]. *)
Definition upsert (batch : list Point) : Async unit :=
  emit (EvUpsert (List.map pt_id batch)) ;;
  if qdrant_upsert_ok W then fun st => (Returned tt, upsertPoints batch st)
  else throw RequestFailed.

(** The inner loop of [storeBatchDocuments]: a document whose embedding
    fails is skipped. *)
Fixpoint embedBatch (batch : list Article) : Async (list Point) :=
  match batch with
  | [] => ret []
  | doc :: rest =>
      let* point :=
        tryCatch
          (let* embedding := generateEmbedding (art_content doc) in
           ret (Some (toPoint doc embedding)))
          (fun _ => ret None) in
      let* others := embedBatch rest in
      ret (match point with
           | Some p => p :: others
           | None => others
           end)
  end.

Definition BATCH_SIZE : N := 10.

(** The outer loop of [storeBatchDocuments], [documents] being what is left
    from index [i] on.  Each round takes at most 10 documents, so as many
    rounds as there are documents are enough ([fuel]). *)
Fixpoint storeBatches (fuel : nat) (documents : list Article)
  : Async (list jsstring) :=
  match fuel, documents with
  | O, _ => ret []
  | _, [] => ret []
  | S fuel', _ =>
      let* batch := embedBatch (slice_first BATCH_SIZE documents) in
      (if 0 <? len batch then upsert batch else ret tt) ;;
      let* results := storeBatches fuel' (skipn (N.to_nat BATCH_SIZE) documents) in
      ret (List.map pt_id batch ++ results)
  end.

(** [storeBatchDocuments(documents)]: the ids stored; it throws when an
    upsert does. *)
Definition storeBatchDocuments (documents : list Article)
  : Async (list jsstring) :=
  tryCatch (storeBatches (length documents) documents)
           (fun error => throw error).

(** [searchSimilarDocuments(query, limit)]: every failure becomes the empty
    array.  ([limit] defaults to 5 in the source; [processQuery], its only
    caller, passes 5.) *)
Definition searchSimilarDocuments (query : jsstring) (limit : N)
  : Async (list Doc) :=
  tryCatch
    (if negb (isQdrantAvailable svc) then ret []
     else
       let* queryEmbedding := generateEmbedding query in
       emit (EvSearch queryEmbedding limit SCORE_THRESHOLD) ;;
       match qdrant_search W queryEmbedding limit SCORE_THRESHOLD with
       | Some searchResult => ret (List.map toDoc searchResult)
       | None => throw RequestFailed
       end)
    (fun _ => ret []).

(** [generateResponse(query, context, chatHistory)]. *)
Definition generateResponse (query : jsstring) (context : list Doc)
    (chatHistory : list ChatMessage) : Async Generated :=
  tryCatch
    (if truthy (geminiApiKey svc) then
       let prompt := buildPrompt query context chatHistory in
       let* generatedText :=
         awaitReply (EvGenerate prompt) (gemini_generate W prompt)
                    GeminiInvalidResponse in
       ret {| gen_response := generatedText;
              gen_sources := List.map toSourceRef context |}
     else throw GeminiKeyMissing)
    (fun error => throw error).

(** The fingerprint both [processQuery] and the handler compute. *)
Definition fingerprint (query : jsstring) (chatHistory : list ChatMessage)
  : jsstring :=
  md5_hex (query ++ JSON_stringify (slice_last 3 chatHistory)).

(** [processQuery(query, chatHistory)]. *)
Definition processQuery (query : jsstring) (chatHistory : list ChatMessage)
  : Async QueryResult :=
  tryCatch
    (let queryHash := fingerprint query chatHistory in
     if negb (isQdrantAvailable svc) then
       ret {| response := ADVISORY;
              sources := [];
              queryHash := Some queryHash;
              relevantDocsCount := Some 0 |}
     else
       let* relevantDocs := searchSimilarDocuments query SEARCH_LIMIT in
       if len relevantDocs =? 0 then
         let* fallbackResponse := generateResponse query [] chatHistory in
         ret {| response :=
                  or_default (Some (gen_response fallbackResponse)) NO_DATA;
                sources := [];
                queryHash := Some queryHash;
                relevantDocsCount := Some 0 |}
       else
         let* result := generateResponse query relevantDocs chatHistory in
         ret {| response := gen_response result;
                sources := gen_sources result;
                queryHash := Some queryHash;
                relevantDocsCount := Some (len relevantDocs) |})
    (fun error => throw error).

(* --------------------------------------------------------------------- *)
(** ** RedisService: the query cache *)

Definition cacheKey (queryHash : jsstring) : jsstring :=
  str "query_cache:" ++ queryHash.

(** [GET]: a key past its expiry is gone. *)
Definition redis_get (key : jsstring) (st : Store) : option QueryResult :=
  match cache st !! key with
  | Some entry =>
      if now W <? entry_expires entry then Some (entry_value entry) else None
  | None => None
  end.

(** [SETEX key ttl value]. *)
Definition redis_setEx (key : jsstring) (ttl : N) (value : QueryResult)
    (st : Store) : Store :=
  {| cache := <[ key := {| entry_value := value;
                           entry_expires := now W + ttl |} ]> (cache st);
     points := points st;
     log := log st |}.

(** [cacheQueryResult(queryHash, result, ttl)]: [false] when the client
    throws, never an exception. *)
Definition cacheQueryResult (queryHash : jsstring) (result : QueryResult)
    (ttl : N) : Async bool :=
  emit (EvCacheSet (cacheKey queryHash) ttl) ;;
  if redis_set_ok W then
    fun st => (Returned true, redis_setEx (cacheKey queryHash) ttl result st)
  else ret false.

(** What [getCachedQueryResult(queryHash)] resolves to on a given store:
    [null] on a miss and when the client throws. *)
Definition lookupCached (queryHash : jsstring) (st : Store)
  : option QueryResult :=
  if redis_get_ok W then redis_get (cacheKey queryHash) st else None.

Definition getCachedQueryResult (queryHash : jsstring)
  : Async (option QueryResult) :=
  emit (EvCacheGet (cacheKey queryHash)) ;;
  fun st => (Returned (lookupCached queryHash st), st).

(* --------------------------------------------------------------------- *)
(** ** The socket [message] handler, from the fingerprint on *)

(** The handler's fallback literal. *)
Definition apologyResult : QueryResult :=
  {| response := APOLOGY;
     sources := [];
     queryHash := None;
     relevantDocsCount := None |}.

(** What the handler answers with, and its [cached] flag. *)
Record Answered := mkAnswered {
  ans_response : QueryResult;
  ans_cached : bool;
}.

(** The body of [socket.on('message', ...)] between the fingerprint and the
    assistant message: cache probe, else the pipeline inside its own [try],
    whose [catch] substitutes the fallback literal.  [chatHistory] is what
    [getChatHistory(sessionId, 10)] returned before the user message was
    appended.  The REST route [POST /message] has the same probe and write
    around [processQuery], without the inner [try]. *)
Definition handleMessage (message : jsstring) (chatHistory : list ChatMessage)
  : Async Answered :=
  let queryHash := fingerprint message chatHistory in
  let* cachedResult := getCachedQueryResult queryHash in
  match cachedResult with
  | Some cached => ret {| ans_response := cached; ans_cached := true |}
  | None =>
      let* response :=
        tryCatch
          (let* response := processQuery message chatHistory in
           cacheQueryResult queryHash response CACHE_TTL ;;
           ret response)
          (fun ragError => ret apologyResult) in
      ret {| ans_response := response; ans_cached := false |}
  end.

(** One message event, and the store after a list of them handled one
    after the other. *)
Record Request := mkRequest {
  req_world : World;
  req_message : jsstring;
  req_history : list ChatMessage;
}.

Definition serve (req : Request) : Async Answered :=
  handleMessage (req_message req) (req_history req).

End Service.

Fixpoint serveAll `{Platform} (svc : RAGService) (requests : list Request)
    (st : Store) : Store :=
  match requests with
  | [] => st
  | req :: rest =>
      serveAll svc rest (snd (serve svc (req_world req) req st))
  end.

(** The contract of [search(vector, limit, scoreThreshold)] the vector store
    is consumed through: at most [limit] points, none scored below the
    threshold. *)
Definition honours_search_contract (W : World) : Prop :=
  forall vector limit threshold hits,
    qdrant_search W vector limit threshold = Some hits ->
    len hits <= limit
    /\ List.Forall (fun p => (threshold <= sp_score p)%Q) hits.

(** The generation provider answers no request. *)
Definition generation_fails (W : World) : Prop :=
  forall prompt text, gemini_generate W prompt <> Answer text.

(** [calls_only m n]: whatever the store, [m] has the same outcome, leaves
    cache and collection alone and appends the same calls to the log, at
    most [n] of them to the generation provider. *)
Definition calls_only {A} (m : Async A) (n : nat) : Prop :=
  exists (o : Outcome A) (calls : list Event),
    (generations calls <= n)%nat /\ forall st, m st = (o, logged st calls).

End Retrieval.

(* ===================================================================== *)
(** * Ingestion runs (newsIngestionService.js) *)
(* ===================================================================== *)

Module IngestionRun.
Import JS Ingestion Retrieval.
Local Open Scope N_scope.

(** What [ingestAllSources] resolves to. *)
Record Report := mkReport {
  totalCollected : N;
  totalStored : N;
  sourceNames : list jsstring;
}.

(** What [ingestWithDeduplication] resolves to. *)
Record DedupReport := mkDedupReport {
  uniqueCollected : N;
  uniqueStored : N;
  sourceCount : N;
  categories : list jsstring;
  regions : list jsstring;
}.

Section Run.
Context `{Platform} (svc : RAGService) (W : World) (web : Web)
        (rssSources : list Source).

(** [ingestAllSources()]. *)
Definition ingestAllSources : Async Report :=
  tryCatch
    (let allArticles := collectAllSources web rssSources in
     if 0 <? len allArticles then
       let* storedIds := storeBatchDocuments svc W allArticles in
       ret {| totalCollected := len allArticles;
              totalStored := len storedIds;
              sourceNames := List.map src_name rssSources |}
     else ret {| totalCollected := 0; totalStored := 0; sourceNames := [] |})
    (fun error => throw error).

(** [ingestWithDeduplication()]. *)
Definition ingestWithDeduplication : Async DedupReport :=
  tryCatch
    (let allArticles := collectWithDeduplication web rssSources in
     if 0 <? len allArticles then
       let* storedIds := storeBatchDocuments svc W allArticles in
       ret {| uniqueCollected := len allArticles;
              uniqueStored := len storedIds;
              sourceCount := len rssSources;
              categories := distinct (List.map art_category allArticles);
              regions := distinct (List.map art_region allArticles) |}
     else ret {| uniqueCollected := 0;
                 uniqueStored := 0;
                 sourceCount := len rssSources;
                 categories := [];
                 regions := [] |})
    (fun error => throw error).

End Run.

End IngestionRun.

(* ===================================================================== *)
(** * RedisService: sessions, chat history, counters *)
(* ===================================================================== *)

Module Redis.
Import JS Retrieval.
Local Open Scope N_scope.

(** The [data] argument of [createSession] as its callers build it: the
    socket handler passes [socketId] and [connectedAt], the REST route
    [userAgent] and [ip], the REST message route nothing. *)
Record SessionData := mkSessionData {
  sd_socketId : option jsstring;
  sd_connectedAt : option jsstring;
  sd_userAgent : option jsstring;
  sd_ip : option jsstring;
}.

Definition no_data : SessionData :=
  {| sd_socketId := None; sd_connectedAt := None;
     sd_userAgent := None; sd_ip := None |}.

(** [{ id, createdAt, lastActivity, ...data }]. *)
Record Session := mkSession {
  ses_id : jsstring;
  ses_createdAt : jsstring;
  ses_lastActivity : jsstring;
  ses_data : SessionData;
}.

(** What a key holds: the JSON of a session (a Redis string), a list of
    message JSONs, newest first, or an integer string.  As for the query
    cache, the parsed value stands for its JSON. *)
Inductive Value : Type :=
| VSession (s : Session)
| VMessages (newestFirst : list ChatMessage)
| VCounter (n : N).

Record Entry := mkEntry {
  e_value : Value;
  e_expires : option N;
}.

(** The part of the keyspace these methods use. *)
Abbreviation Db := (gmap jsstring Entry).

(** One request's view of the clock and of the client: [Date] as seconds
    and as ISO text, whether the client's commands go through, and the
    suffix [Date.now()_random] of a fresh message id. *)
Record Env := mkEnv {
  t_now : N;
  t_iso : jsstring;
  t_up : bool;
  t_stamp : jsstring;
}.

Definition SESSION_TTL : N := 24 * 60 * 60.
Definition HISTORY_MAX : N := 100.

Definition sessionKey (sessionId : jsstring) : jsstring :=
  str "session:" ++ sessionId.

Definition historyKey (sessionId : jsstring) : jsstring :=
  str "chat_history:" ++ sessionId.

(** ** The Redis commands used *)

Definition is_live (time : N) (e : Entry) : bool :=
  match e_expires e with
  | None => true
  | Some t => time <? t
  end.

(** The entry under a key, if it has not expired. *)
Definition lookup_live (time : N) (key : jsstring) (db : Db) : option Entry :=
  match db !! key with
  | Some e => if is_live time e then Some e else None
  | None => None
  end.

(** [LRANGE start stop] / [LTRIM start stop] on the list itself: negative
    indices count from the end, the range is clipped to the list. *)
Definition list_range {A} (start stop : Z) (l : list A) : list A :=
  let n := Z.of_nat (length l) in
  let s := if (start <? 0)%Z then Z.max 0 (n + start) else start in
  let e := Z.min (n - 1) (if (stop <? 0)%Z then (n + stop)%Z else stop) in
  if (e <? s)%Z then []
  else firstn (Z.to_nat (e - s + 1)) (skipn (Z.to_nat s) l).

Section Commands.
Context (env : Env).

Definition cmd_setEx (key : jsstring) (ttl : N) (v : Value) (db : Db) : Db :=
  <[ key := {| e_value := v; e_expires := Some (t_now env + ttl) |} ]> db.

Definition cmd_del (key : jsstring) (db : Db) : Db := delete key db.

(** [EXPIRE key ttl]: nothing happens to a missing key. *)
Definition cmd_expire (key : jsstring) (ttl : N) (db : Db) : Db :=
  match lookup_live (t_now env) key db with
  | Some e =>
      <[ key := {| e_value := e_value e;
                   e_expires := Some (t_now env + ttl) |} ]> db
  | None => db
  end.

(** [LPUSH key m]: [None] is the WRONGTYPE error. *)
Definition cmd_lPush (key : jsstring) (m : ChatMessage) (db : Db) : option Db :=
  match lookup_live (t_now env) key db with
  | Some e =>
      match e_value e with
      | VMessages l =>
          Some (<[ key := {| e_value := VMessages (m :: l);
                             e_expires := e_expires e |} ]> db)
      | _ => None
      end
  | None => Some (<[ key := {| e_value := VMessages [m];
                               e_expires := None |} ]> db)
  end.

(** [LTRIM key start stop]: a list trimmed to nothing is deleted. *)
Definition cmd_lTrim (key : jsstring) (start stop : Z) (db : Db) : option Db :=
  match lookup_live (t_now env) key db with
  | Some e =>
      match e_value e with
      | VMessages l =>
          match list_range start stop l with
          | [] => Some (delete key db)
          | kept => Some (<[ key := {| e_value := VMessages kept;
                                       e_expires := e_expires e |} ]> db)
          end
      | _ => None
      end
  | None => Some db
  end.

(** [LRANGE key start stop]: a missing key is the empty list. *)
Definition cmd_lRange (key : jsstring) (start stop : Z) (db : Db)
  : option (list ChatMessage) :=
  match lookup_live (t_now env) key db with
  | Some e =>
      match e_value e with
      | VMessages l => Some (list_range start stop l)
      | _ => None
      end
  | None => Some []
  end.

(** [INCR key]: a missing key counts from 0; the expiry is kept. *)
Definition cmd_incr (key : jsstring) (db : Db) : option (N * Db) :=
  match lookup_live (t_now env) key db with
  | Some e =>
      match e_value e with
      | VCounter n =>
          Some (n + 1, <[ key := {| e_value := VCounter (n + 1);
                                    e_expires := e_expires e |} ]> db)
      | _ => None
      end
  | None => Some (1, <[ key := {| e_value := VCounter 1;
                                  e_expires := None |} ]> db)
  end.

(** ** The service methods *)

(** [createSession(sessionId, data)]: throws when the client does. *)
Definition createSession (sessionId : jsstring) (data : SessionData) (db : Db)
  : Outcome Session * Db :=
  if t_up env then
    let sessionData := {| ses_id := sessionId;
                          ses_createdAt := t_iso env;
                          ses_lastActivity := t_iso env;
                          ses_data := data |} in
    (Returned sessionData,
     cmd_setEx (sessionKey sessionId) SESSION_TTL (VSession sessionData) db)
  else (Thrown RequestFailed, db).

(** [getSession(sessionId)]: [null] for a missing key and for every error;
    a found session has its [lastActivity] and its expiry renewed. *)
Definition getSession (sessionId : jsstring) (db : Db)
  : option Session * Db :=
  if t_up env then
    match lookup_live (t_now env) (sessionKey sessionId) db with
    | Some e =>
        match e_value e with
        | VSession s =>
            let sessionData := {| ses_id := ses_id s;
                                  ses_createdAt := ses_createdAt s;
                                  ses_lastActivity := t_iso env;
                                  ses_data := ses_data s |} in
            (Some sessionData,
             cmd_setEx (sessionKey sessionId) SESSION_TTL
                       (VSession sessionData) db)
        | _ => (None, db)
        end
    | None => (None, db)
    end
  else (None, db).

(** [deleteSession(sessionId)]: both keys; [false] on an error. *)
Definition deleteSession (sessionId : jsstring) (db : Db) : bool * Db :=
  if t_up env then
    (true, cmd_del (historyKey sessionId) (cmd_del (sessionKey sessionId) db))
  else (false, db).

(** [addChatMessage(sessionId, message)], [message] being its [role] and
    [content]: push, trim to the newest 100, renew the expiry.  It throws on
    an error. *)
Definition addChatMessage (sessionId role content : jsstring) (db : Db)
  : Outcome ChatMessage * Db :=
  let chatMessage := {| msg_id := str "msg_" ++ t_stamp env;
                        msg_timestamp := t_iso env;
                        msg_role := role;
                        msg_content := content |} in
  if t_up env then
    match cmd_lPush (historyKey sessionId) chatMessage db with
    | Some db1 =>
        match cmd_lTrim (historyKey sessionId) 0 99 db1 with
        | Some db2 =>
            (Returned chatMessage,
             cmd_expire (historyKey sessionId) SESSION_TTL db2)
        | None => (Thrown RequestFailed, db1)
        end
    | None => (Thrown RequestFailed, db)
    end
  else (Thrown RequestFailed, db).

(** [getChatHistory(sessionId, limit)]: [LRANGE 0 (limit - 1)], oldest
    first; the empty array on an error. *)
Definition getChatHistory (sessionId : jsstring) (limit : Z) (db : Db)
  : list ChatMessage :=
  if t_up env then
    match cmd_lRange (historyKey sessionId) 0 (limit - 1) db with
    | Some messages => rev messages
    | None => []
    end
  else [].

(** [incrementCounter(key, ttl)]: the expiry is set when the count becomes
    1; 0 on an error. *)
Definition incrementCounter (key : jsstring) (ttl : N) (db : Db) : N * Db :=
  if t_up env then
    match cmd_incr key db with
    | Some (result, db1) =>
        (result, if result =? 1 then cmd_expire key ttl db1 else db1)
    | None => (0, db)
    end
  else (0, db).

End Commands.

(** Counting [n] times in a row, each time in its own environment. *)
Fixpoint incrementAll (envs : list Env) (key : jsstring) (ttl : N) (db : Db)
  : list N * Db :=
  match envs with
  | [] => ([], db)
  | env :: rest =>
      let (result, db1) := incrementCounter env key ttl db in
      let (results, db2) := incrementAll rest key ttl db1 in
      (result :: results, db2)
  end.

(** Every one of [envs] has a working client and lies before [deadline]. *)
Definition all_up_before (deadline : N) (envs : list Env) : Prop :=
  List.Forall (fun env => t_up env = true /\ t_now env < deadline) envs.

End Redis.

(* ===================================================================== *)
(** * RAGService: the remaining storage and maintenance methods *)
(* ===================================================================== *)

Module Collection.
Import JS Ingestion Retrieval.
Local Open Scope N_scope.

Section Service.
Context `{Platform} (svc : RAGService) (W : World).

(** [storeDocument(document)]: embed the content, upsert the one point;
    either failure is rethrown. *)
Definition storeDocument (document : Article) : Async bool :=
  tryCatch
    (let* embedding := generateEmbedding svc W (art_content document) in
     upsert W [toPoint W document embedding] ;;
     ret true)
    (fun error => throw error).

(** The embedding [generateEmbedding(text)] resolves to, [None] when it
    throws (no API key, request rejected, malformed body). *)
Definition embeddingOf (text : jsstring) : option Vector :=
  if truthy (jinaApiKey svc) then
    match jina_embed W text with
    | Answer v => Some v
    | _ => None
    end
  else None.

(** The provider calls [generateEmbedding(text)] makes: none without a
    key. *)
Definition embedCalls (text : jsstring) : list Event :=
  if truthy (jinaApiKey svc) then [EvEmbed text] else [].

(** The points the inner loop of [storeBatchDocuments] builds from a list of
    documents: one per document whose embedding succeeds, in order. *)
Definition pointsOf (documents : list Article) : list Point :=
  omap (fun doc =>
          match embeddingOf (art_content doc) with
          | Some v => Some (toPoint W doc v)
          | None => None
          end)
       documents.

End Service.

(** Points written one after the other into a collection. *)
Definition written (batch : list Point) (collection : gmap jsstring Point)
  : gmap jsstring Point :=
  fold_left (fun m p => <[ pt_id p := p ]> m) batch collection.

End Collection.

(* ===================================================================== *)
(** * The ingestion service's single-source and test methods *)
(* ===================================================================== *)

Module IngestionAdmin.
Import JS Normalizer Ingestion Retrieval.
Local Open Scope N_scope.

(** What [testSingleArticle] resolves to. *)
Record TestResult := mkTestResult {
  test_url : jsstring;
  test_contentLength : N;
  test_content : jsstring;
}.

Definition NO_CONTENT : jsstring := str "No content extracted".

(** [testSingleArticle(url)].  [content?.substring(0, 500) + '...'] is
    evaluated before [||]: on [null] the left operand of [+] is
    [undefined], which [+] turns into the text [undefined].
    ([scrapeFullArticle] catches everything, so the [catch] never runs.) *)
Definition testSingleArticle (W : Web) (url : jsstring) : TestResult :=
  let content := scrapeFullArticle W url in
  {| test_url := url;
     test_contentLength := match content with
                           | Some c => len c
                           | None => 0
                           end;
     test_content :=
       let shown := match content with
                    | Some c => slice_first 500 c
                    | None => str "undefined"
                    end ++ str "..." in
       match shown with
       | [] => NO_CONTENT
       | _ => shown
       end |}.

(** What [ingestSingleSource] resolves to. *)
Record SingleReport := mkSingleReport {
  single_source : jsstring;
  single_collected : N;
  single_stored : N;
}.

(** How [ingestSingleSource] ends: with its report, with the error
    [Source not found], or with the error of the storage call. *)
Inductive SingleOutcome : Type :=
| Ingested (report : SingleReport)
| SourceNotFound
| StorageFailed (e : Error).

Section Run.
Context `{Platform} (svc : RAGService) (W : World) (web : Web)
        (rssSources : list Source).

(** [ingestSingleSource(sourceName)]. *)
Definition ingestSingleSource (sourceName : jsstring) (st : Store)
  : SingleOutcome * Store :=
  match List.find (fun s => bool_decide (src_name s = sourceName)) rssSources with
  | None => (SourceNotFound, st)
  | Some source =>
      let articles := ingestFromRSS web source in
      if 0 <? len articles then
        match storeBatchDocuments svc W articles st with
        | (Returned storedIds, st') =>
            (Ingested {| single_source := sourceName;
                         single_collected := len articles;
                         single_stored := len storedIds |}, st')
        | (Thrown e, st') => (StorageFailed e, st')
        end
      else
        (Ingested {| single_source := sourceName;
                     single_collected := 0;
                     single_stored := 0 |}, st)
  end.

End Run.

(** An article as [processRSSItem] can return it, as far as its text
    goes. *)
Definition well_formed (a : Article) : Prop :=
  100 <= len (art_content a) <= 6003
  /\ Forall clean_unit (art_content a)
  /\ Forall clean_unit (art_title a).

End IngestionAdmin.

(* ===================================================================== *)
(** * One chat turn: the REST route and the socket handler *)
(* ===================================================================== *)

Module Chat.
Import JS Retrieval Redis.
Local Open Scope N_scope.

(** The instants of one turn: each [await] on the Redis service sees its
    own clock and client state; the pipeline sees its [World]. *)
Record Turn := mkTurn {
  on_lookup : Env;       (* the first [getSession] *)
  on_create : Env;       (* [createSession], when there is no session *)
  on_history : Env;      (* [getChatHistory(sessionId, 10)] *)
  on_user : Env;         (* [addChatMessage] of the user message *)
  world : World;         (* cache probe, pipeline, cache write *)
  on_assistant : Env;    (* [addChatMessage] of the assistant message *)
  on_touch : Env;        (* the closing [getSession] *)
}.

(** What [POST /message] answers. *)
Inductive Response : Type :=
| BadRequest                                       (* 400 *)
| Success (userMessage assistantMessage : ChatMessage)
          (sources : list SourceRef) (cached : bool)
| ServerError.                                     (* 500 *)

(** What the socket handler emits, in order. *)
Inductive Emitted : Type :=
| EmitError (message : jsstring)
| EmitUserTyping (typing : bool)
| EmitUserMessage (m : ChatMessage)
| EmitAssistantTyping (typing : bool)
| EmitAssistantMessage (m : ChatMessage).

Definition USER : jsstring := str "user".
Definition ASSISTANT : jsstring := str "assistant".
Definition REQUIRED : jsstring := str "Message and session ID are required".
Definition NOT_JOINED : jsstring := str "Not joined to this session".
Definition FAILED : jsstring := str "Failed to process message".

Section Handlers.
Context `{Platform} (svc : RAGService) (turn : Turn).

(** [getSession], and [createSession] when it finds nothing. *)
Definition getOrCreateSession (sessionId : jsstring) (data : SessionData)
    (db : Db) : Outcome Session * Db :=
  match getSession (on_lookup turn) sessionId db with
  | (Some session, db1) => (Returned session, db1)
  | (None, db1) => createSession (on_create turn) sessionId data db1
  end.

(** The REST route between the fingerprint and the assistant message:
    probe, pipeline, cache write, with no [try] of its own. *)
Definition answerOrThrow (message : jsstring) (chatHistory : list ChatMessage)
  : Async Answered :=
  let queryHash := fingerprint message chatHistory in
  let* cachedResult := getCachedQueryResult (world turn) queryHash in
  match cachedResult with
  | Some cached => ret {| ans_response := cached; ans_cached := true |}
  | None =>
      let* response := processQuery svc (world turn) message chatHistory in
      cacheQueryResult (world turn) queryHash response CACHE_TTL ;;
      ret {| ans_response := response; ans_cached := false |}
  end.

(** [router.post('/message', ...)]. *)
Definition postMessage (message sessionId : option jsstring) (db : Db)
    (st : Store) : Response * Db * Store :=
  if negb (truthy message) || negb (truthy sessionId) then (BadRequest, db, st)
  else
    let message := or_default message [] in
    let sessionId := or_default sessionId [] in
    match getOrCreateSession sessionId no_data db with
    | (Thrown _, db1) => (ServerError, db1, st)
    | (Returned _, db1) =>
        let chatHistory := getChatHistory (on_history turn) sessionId 10 db1 in
        match addChatMessage (on_user turn) sessionId USER message db1 with
        | (Thrown _, db2) => (ServerError, db2, st)
        | (Returned userMessage, db2) =>
            match answerOrThrow message chatHistory st with
            | (Thrown _, st1) => (ServerError, db2, st1)
            | (Returned answer, st1) =>
                match addChatMessage (on_assistant turn) sessionId ASSISTANT
                        (response (ans_response answer)) db2 with
                | (Thrown _, db3) => (ServerError, db3, st1)
                | (Returned assistantMessage, db3) =>
                    (Success userMessage assistantMessage
                             (sources (ans_response answer))
                             (ans_cached answer),
                     snd (getSession (on_touch turn) sessionId db3), st1)
                end
            end
        end
    end.

(** [socket.on('message', ...)], [joined] being [socket.sessionId]. *)
Definition onMessage (joined : option jsstring)
    (message sessionId : option jsstring) (db : Db) (st : Store)
  : list Emitted * Db * Store :=
  if negb (truthy message) || negb (truthy sessionId) then
    ([EmitError REQUIRED], db, st)
  else if negb (truthy joined) || negb (bool_decide (joined = sessionId)) then
    ([EmitError NOT_JOINED], db, st)
  else
    let message := or_default message [] in
    let sessionId := or_default sessionId [] in
    let failed := [EmitError FAILED; EmitAssistantTyping false] in
    let chatHistory := getChatHistory (on_history turn) sessionId 10 db in
    match addChatMessage (on_user turn) sessionId USER message db with
    | (Thrown _, db1) => (EmitUserTyping false :: failed, db1, st)
    | (Returned userMessage, db1) =>
        let begun := [EmitUserTyping false; EmitUserMessage userMessage] in
        match handleMessage svc (world turn) message chatHistory st with
        | (Thrown _, st1) => (begun ++ failed, db1, st1)
        | (Returned answer, st1) =>
            let typing :=
              (if ans_cached answer then [] else [EmitAssistantTyping true])
              ++ [EmitAssistantTyping false] in
            match addChatMessage (on_assistant turn) sessionId ASSISTANT
                    (response (ans_response answer)) db1 with
            | (Thrown _, db2) => (begun ++ typing ++ failed, db2, st1)
            | (Returned assistantMessage, db2) =>
                (begun ++ typing ++ [EmitAssistantMessage assistantMessage],
                 snd (getSession (on_touch turn) sessionId db2), st1)
            end
        end
    end.

(** [router.delete('/session/:sessionId', ...)]: [true] is the 200 answer,
    [false] the 404 [Session not found]. *)
Definition deleteSessionRoute (sessionId : jsstring) (db : Db) : bool * Db :=
  deleteSession (on_lookup turn) sessionId db.

End Handlers.

(** The history key of a session holds a list, or nothing. *)
Definition history_typed (sessionId : jsstring) (db : Db) : Prop :=
  match db !! historyKey sessionId with
  | Some e => exists l, e_value e = VMessages l
  | None => True
  end.

End Chat.

(* ===================================================================== *)
(** * RAGService: start-up and the collection *)
(* ===================================================================== *)

Module Setup.
Import JS Retrieval.
Local Open Scope N_scope.

(** What the vector store answers to the administrative requests of one
    start-up: whether [getCollections()] lists [news_articles] ([None] when
    the request throws), the vector size [getCollection] reports
    ([Malformed] when the field is absent), and whether deleting and
    creating go through. *)
Record Qdrant := mkQdrant {
  listed : option bool;
  dimension : Reply N;
  delete_ok : bool;
  create_ok : bool;
}.

Inductive Call : Type :=
| GetCollections
| GetCollection
| DeleteCollection
| CreateCollection (size : N).

Definition EMBEDDING_DIMENSION : N := 768.

Section Store.
Context (q : Qdrant).

(** [createNewCollection()]: whether it returned, and the calls made. *)
Definition createNewCollection : bool * list Call :=
  (create_ok q, [CreateCollection EMBEDDING_DIMENSION]).

(** [deleteCollection] followed by [createNewCollection]. *)
Definition recreate : bool * list Call :=
  if delete_ok q then (fst createNewCollection,
                       DeleteCollection :: snd createNewCollection)
  else (false, [DeleteCollection]).

(** [currentDimension !== this.embeddingDimension] is false. *)
Definition right_size (info : Reply N) : bool :=
  match info with
  | Answer size => size =? EMBEDDING_DIMENSION
  | _ => false
  end.

(** [ensureCollection()]: [false] stands for the rethrown error.  The inner
    [catch] also catches a failure of the delete or the create of its own
    [try] block, and then deletes and creates once more. *)
Definition ensureCollection : bool * list Call :=
  match listed q with
  | None => (false, [GetCollections])
  | Some false =>
      (fst createNewCollection, GetCollections :: snd createNewCollection)
  | Some true =>
      match dimension q with
      | Rejected =>
          (fst recreate, GetCollections :: GetCollection :: snd recreate)
      | info =>
          if right_size info then (true, [GetCollections; GetCollection])
          else if fst recreate then
            (true, GetCollections :: GetCollection :: snd recreate)
          else
            (fst recreate,
             GetCollections :: GetCollection :: snd recreate ++ snd recreate)
      end
  end.

(** [initialize()] with its collection check. *)
Definition start (svc : RAGService) : RAGService :=
  initialize svc (fst ensureCollection).

End Store.

(** [healthCheck()] against the store as it is at the time of the check. *)
Definition healthCheck (svc : RAGService) (q : Qdrant) : bool :=
  if negb (isQdrantAvailable svc) then false
  else match listed q with
       | Some hasCollection => hasCollection
       | None => false
       end.

End Setup.

(* ===================================================================== *)
(** * Configuration: the environment check and the service constructor *)
(* ===================================================================== *)

Module Config.
Import JS Retrieval.
Local Open Scope N_scope.

(** [process.env]: the variables that are set, by name. *)
Abbreviation Environment := (gmap jsstring jsstring).

Definition requiredEnvVars : list jsstring :=
  [ str "REDIS_CONNECTION_URL";
    str "JINA_EMBEDDINGS_API_KEY";
    str "GOOGLE_GEMINI_API_KEY";
    str "QDRANT_CLUSTER_URL";
    str "QDRANT_API_KEY" ].

(** [requiredEnvVars.filter(varName => !process.env[varName])]. *)
Definition missingVars (env : Environment) : list jsstring :=
  List.filter (fun varName => negb (truthy (env !! varName))) requiredEnvVars.

(** [validateConfiguration()] of serverConfig.js: [true] when it returns,
    [false] when it throws. *)
Definition validateConfiguration (env : Environment) : bool :=
  negb (0 <? len (missingVars env)).

(** [new RAGService()] of rag.js: the two keys as the constructor reads
    them; the availability flag is not set before [initialize]. *)
Definition construct (env : Environment) : RAGService :=
  {| jinaApiKey := env !! str "JINA_API_KEY";
     geminiApiKey := env !! str "GEMINI_API_KEY";
     isQdrantAvailable := false |}.

End Config.

(* ===================================================================== *)
(** * The properties as the specification words them *)
(* ===================================================================== *)

Module Stated.
Import JS Normalizer Ingestion Retrieval.
Local Open Scope N_scope.

(** §4.1: the character set is "alphanumerics plus basic punctuation"
    (and the white space that separates words). *)
Definition in_stated_charset (c : N) : bool :=
  is_alnum c || is_white_space c || is_basic_punct c.

Fixpoint has_whitespace_run (s : jsstring) : bool :=
  match s with
  | a :: (b :: _) as rest =>
      (is_white_space a && is_white_space b) || has_whitespace_run rest
  | _ => false
  end.

(** C9 as stated: no markup, only the stated character set, trimmed, and
    white space collapsed. *)
Definition normalized (out : jsstring) : Prop :=
  List.Forall (fun c => c <> LT /\ c <> GT) out
  /\ List.Forall (fun c => in_stated_charset c = true) out
  /\ trim out = out
  /\ has_whitespace_run out = false.

(** C5 as stated: no two articles of a batch share a key. *)
Definition no_shared_keys (batch : list Article) : Prop :=
  List.NoDup (List.map urlKey batch) /\ List.NoDup (List.map titleKey batch).

(** C7 as stated: the result says that no grounding data was found.  The
    one sentence of the program that says so is [NO_DATA]. *)
Definition states_no_data (r : QueryResult) : Prop := response r = NO_DATA.

(** C8 as stated: the apology, with the retrieved candidates attached. *)
Definition apology_with_sources (retrieved : list Doc) (a : Answered) : Prop :=
  response (ans_response a) = APOLOGY
  /\ sources (ans_response a) = List.map toSourceRef retrieved.

(** C1 as stated, for two queries handled one after the other. *)
Definition cached_on_repeat `{Platform} (svc : RAGService) (W1 W2 : World)
    (message : jsstring) (h1 h2 : list ChatMessage) (st0 : Store) : Prop :=
  slice_last 3 h1 = slice_last 3 h2 ->
  now W1 <= now W2 < now W1 + CACHE_TTL ->
  let (o1, st1) := handleMessage svc W1 message h1 st0 in
  let (o2, st2) := handleMessage svc W2 message h2 st1 in
  fingerprint message h1 = fingerprint message h2
  /\ (exists cached,
        lookupCached W2 (fingerprint message h2) st1 = Some cached
        /\ o2 = Returned {| ans_response := cached; ans_cached := true |})
  /\ (generations (log st2) <= generations (log st0) + 1)%nat.

End Stated.

(* ===================================================================== *)
(** * Concrete services, worlds and feeds for the closed examples *)
(* ===================================================================== *)

Module Demo.
Import JS Normalizer Ingestion Retrieval.
Local Open Scope N_scope.

(** Stand-ins for the digest and the serialiser; the theorems hold for every
    instance, the examples need one to compute with. *)
Definition platform : Platform :=
  {| md5_hex := fun s => str "md5:" ++ s;
     JSON_stringify :=
       fun messages =>
         concat (List.map (fun m => msg_role m ++ str ":" ++ msg_content m)
                          messages) |}.

Definition service : RAGService :=
  {| jinaApiKey := Some (str "jina-key");
     geminiApiKey := Some (str "gemini-key");
     isQdrantAvailable := true |}.

Definition degradedService : RAGService := initialize service false.

Definition payload : Payload :=
  {| pl_title := str "Rates held";
     pl_content := str "The central bank held rates.";
     pl_url := str "https://example.org/rates";
     pl_publishedAt := str "2024-01-01";
     pl_source := str "Example Wire";
     pl_createdAt := str "2024-01-02" |}.

Definition nearPoint : ScoredPoint :=
  {| sp_id := str "p1"; sp_score := (9 # 10)%Q; sp_payload := payload |}.

Definition farPoint : ScoredPoint :=
  {| sp_id := str "p2"; sp_score := (3 # 10)%Q; sp_payload := payload |}.

(** A vector store that does what the contract says: the points scored at
    or above the threshold, at most [limit] of them. *)
Definition referenceSearch (points : list ScoredPoint) (vector : Vector)
    (limit : N) (threshold : Q) : option (list ScoredPoint) :=
  Some (slice_first limit
          (List.filter (fun p => Qle_bool threshold (sp_score p)) points)).

Definition world (time : N) (points : list ScoredPoint)
    (completion : Reply jsstring) : World :=
  {| now := time;
     jina_embed := fun _ => Answer [(1 # 2)%Q];
     qdrant_search := referenceSearch points;
     gemini_generate := fun _ => completion;
     qdrant_upsert_ok := true;
     redis_get_ok := true;
     redis_set_ok := true;
     clockISO := str "2024-01-02T00:00:00.000Z" |}.

Definition question : jsstring := str "latest tech news".

Definition otherRequest : Request :=
  {| req_world := world 60 [nearPoint] (Answer (str "Something else."));
     req_message := str "sports";
     req_history := [] |}.

(** A feed item with a 120-character body and one with a 6001-character
    body. *)
Definition item (body : jsstring) : Item :=
  {| item_link := Some (str "https://example.org/a");
     item_guid := Some (str "guid-1");
     item_title := Some (str "Rates held");
     item_contentSnippet := Some body;
     item_content := None;
     item_description := None;
     item_pubDate := Some (str "Mon, 01 Jan 2024");
     item_isoDate := None |}.

Definition shortBody : jsstring := List.repeat 97 (N.to_nat 120).
Definition longBody : jsstring := List.repeat 97 (N.to_nat 6001).

Definition web : Web :=
  {| parseURL := fun _ => Some [item shortBody];
     extractPageText := fun _ => None;
     nowISO := str "2024-01-02T00:00:00.000Z" |}.

(** The same feed seen later, the article page now reachable. *)
Definition otherWeb : Web :=
  {| parseURL := fun _ => Some [item shortBody];
     extractPageText := fun _ => Some (List.repeat 98 (N.to_nat 250));
     nowISO := str "2025-06-30T12:00:00.000Z" |}.

Definition longArticle : Article :=
  {| art_id := str "md5:https://example.org/a";
     art_title := str "Rates held";
     art_content := List.repeat 97 (N.to_nat 6000) ++ str "...";
     art_url := str "https://example.org/a";
     art_publishedAt := str "Mon, 01 Jan 2024";
     art_source := str "a";
     art_category := str "world";
     art_region := str "Unknown";
     art_wordCount := 1 |}.

Definition wire (name : string) : Source :=
  {| src_name := str name;
     src_url := str "https://example.org/feed/" ++ str name;
     src_category := str "world";
     src_region := None |}.

End Demo.

(* ===================================================================== *)
(** * Concrete sessions, turns and stores for the closed examples *)
(* ===================================================================== *)

Module Scenario.
Import JS Normalizer Ingestion Retrieval Redis Chat Setup.
Local Open Scope N_scope.

(** A working client at a given second, with the id suffix it would
    draw. *)
Definition env (time : N) (stamp : string) : Env :=
  {| t_now := time;
     t_iso := str "2024-01-02T00:00:00.000Z";
     t_up := true;
     t_stamp := str stamp |}.

(** The client failing. *)
Definition outage (time : N) : Env :=
  {| t_now := time;
     t_iso := str "2024-01-02T00:00:00.000Z";
     t_up := false;
     t_stamp := str "down" |}.

Definition sid : jsstring := str "session-1".
Definition hello : jsstring := str "hello".

Definition empty : Db := ∅.

(** The keyspace after one user message at second 10. *)
Definition afterHello : Db :=
  snd (addChatMessage (env 10 "10_a") sid USER hello empty).

Definition helloMessage : ChatMessage :=
  {| msg_id := str "msg_10_a";
     msg_timestamp := str "2024-01-02T00:00:00.000Z";
     msg_role := USER;
     msg_content := hello |}.

(** The keyspace after a session was created at second 0 and read at
    second 100. *)
Definition created : Db := snd (createSession (env 0 "0") sid no_data empty).
Definition touched : Db := snd (getSession (env 100 "100") sid created).

Definition session (lastActivity : jsstring) : Session :=
  {| ses_id := sid;
     ses_createdAt := str "2024-01-02T00:00:00.000Z";
     ses_lastActivity := lastActivity;
     ses_data := no_data |}.

(** A turn whose pipeline runs in [W]: every Redis call goes through, a
    second apart. *)
Definition turn (W : World) : Turn :=
  {| on_lookup := env 0 "0";
     on_create := env 1 "1";
     on_history := env 2 "2";
     on_user := env 3 "3_u";
     world := W;
     on_assistant := env 4 "4_a";
     on_touch := env 5 "5" |}.

(** Worlds with one provider or one store out of order. *)
Definition noEmbedding (completion : Reply jsstring) : World :=
  {| now := 0;
     jina_embed := fun _ => Rejected;
     qdrant_search := Demo.referenceSearch [Demo.nearPoint];
     gemini_generate := fun _ => completion;
     qdrant_upsert_ok := true;
     redis_get_ok := true;
     redis_set_ok := true;
     clockISO := str "2024-01-02T00:00:00.000Z" |}.

Definition readOnly : World :=
  {| now := 0;
     jina_embed := fun _ => Answer [(1 # 2)%Q];
     qdrant_search := Demo.referenceSearch [];
     gemini_generate := fun _ => Rejected;
     qdrant_upsert_ok := false;
     redis_get_ok := true;
     redis_set_ok := true;
     clockISO := str "2024-01-02T00:00:00.000Z" |}.

Definition noCache (completion : Reply jsstring) : World :=
  {| now := 0;
     jina_embed := fun _ => Answer [(1 # 2)%Q];
     qdrant_search := Demo.referenceSearch [Demo.nearPoint];
     gemini_generate := fun _ => completion;
     qdrant_upsert_ok := true;
     redis_get_ok := false;
     redis_set_ok := false;
     clockISO := str "2024-01-02T00:00:00.000Z" |}.

Definition keyless : RAGService :=
  {| jinaApiKey := None;
     geminiApiKey := Some (str "gemini-key");
     isQdrantAvailable := true |}.

Definition shortArticle : Article :=
  {| art_id := str "md5:https://example.org/a";
     art_title := str "Rates held";
     art_content := Demo.shortBody;
     art_url := str "https://example.org/a";
     art_publishedAt := str "Mon, 01 Jan 2024";
     art_source := str "a";
     art_category := str "world";
     art_region := str "Unknown";
     art_wordCount := 1 |}.

Definition answerText : jsstring := str "Rates were held.".

(** A vector store that cannot be reached at start-up, and one that is
    fine. *)
Definition unreachable : Qdrant :=
  {| listed := None; dimension := Rejected;
     delete_ok := false; create_ok := false |}.

Definition healthy : Qdrant :=
  {| listed := Some true; dimension := Answer 768;
     delete_ok := true; create_ok := true |}.

(** An environment with the five variables the check asks for. *)
Definition production : Config.Environment :=
  list_to_map [ (str "REDIS_CONNECTION_URL", str "redis://cache:6379");
                (str "JINA_EMBEDDINGS_API_KEY", str "jina-key");
                (str "GOOGLE_GEMINI_API_KEY", str "gemini-key");
                (str "QDRANT_CLUSTER_URL", str "https://qdrant.example.org");
                (str "QDRANT_API_KEY", str "qdrant-key") ].

End Scenario.

(* ===================================================================== *)
(** * Facts about [cleanText] *)
(* ===================================================================== *)

Section NormalizerFacts.
Import JS Normalizer.
Local Open Scope N_scope.

Lemma trimStart_suffix (s : jsstring) : exists dropped, s = dropped ++ trimStart s.
Proof.
  induction s as [|c r [d IH]]; simpl.
  - exists []. reflexivity.
  - destruct (is_white_space c).
    + exists (c :: d). simpl. now rewrite <- IH.
    + exists []. reflexivity.
Qed.

Lemma trimStart_Forall (P : N -> Prop) (s : jsstring) :
  Forall P s -> Forall P (trimStart s).
Proof.
  intros HP. destruct (trimStart_suffix s) as [d Hd].
  rewrite Hd in HP. now apply Forall_app in HP as [_ HP].
Qed.

Lemma trimStart_head (s : jsstring) (c : N) (r : jsstring) :
  trimStart s = c :: r -> is_white_space c = false.
Proof.
  induction s as [|x s IH]; simpl; [discriminate|].
  destruct (is_white_space x) eqn:Hx; [exact IH|].
  intros [= <- _]. exact Hx.
Qed.

Lemma trimStart_snoc (s : jsstring) (c : N) :
  is_white_space c = false -> trimStart (s ++ [c]) = trimStart s ++ [c].
Proof.
  intros Hc. induction s as [|x s IH]; simpl.
  - now rewrite Hc.
  - destruct (is_white_space x); [exact IH | reflexivity].
Qed.

Lemma trimEnd_Forall (P : N -> Prop) (s : jsstring) :
  Forall P s -> Forall P (trimEnd s).
Proof.
  intros HP. unfold trimEnd.
  apply Forall_rev, trimStart_Forall, Forall_rev, HP.
Qed.

Lemma trimEnd_last (s r : jsstring) (c : N) :
  trimEnd s = r ++ [c] -> is_white_space c = false.
Proof.
  unfold trimEnd. intros E.
  apply (f_equal (@rev N)) in E.
  rewrite rev_involutive, rev_app_distr in E. simpl in E.
  eapply trimStart_head, E.
Qed.

Lemma trimEnd_head (c : N) (r : jsstring) :
  is_white_space c = false -> exists r', trimEnd (c :: r) = c :: r'.
Proof.
  intros Hc. unfold trimEnd. simpl.
  rewrite trimStart_snoc by exact Hc.
  rewrite rev_app_distr. simpl. eauto.
Qed.

Lemma trim_Forall (P : N -> Prop) (s : jsstring) :
  Forall P s -> Forall P (trim s).
Proof. intros. now apply trimEnd_Forall, trimStart_Forall. Qed.

Lemma trim_head (s r : jsstring) (c : N) :
  trim s = c :: r -> is_white_space c = false.
Proof.
  unfold trim. destruct (trimStart s) as [|x t] eqn:E.
  - discriminate.
  - pose proof (trimStart_head _ _ _ E) as Hx.
    destruct (trimEnd_head x t Hx) as [r' Hr']. rewrite Hr'.
    now intros [= <- _].
Qed.

Lemma trim_last (s r : jsstring) (c : N) :
  trim s = r ++ [c] -> is_white_space c = false.
Proof. unfold trim. apply trimEnd_last. Qed.

(** After the second replacement the only white space left is U+0020. *)
Lemma collapse_from_only_space (in_run : bool) (s : jsstring) :
  Forall (fun c => is_white_space c = true -> c = SPACE) (collapse_from in_run s).
Proof.
  revert in_run. induction s as [|c r IH]; intros in_run; simpl.
  - constructor.
  - destruct (is_white_space c) eqn:Hc.
    + destruct in_run; [apply IH|]. constructor; [reflexivity | apply IH].
    + constructor; [congruence | apply IH].
Qed.

Lemma remove_special_kept (s : jsstring) :
  Forall (fun c => is_kept c = true) (remove_special s).
Proof.
  unfold remove_special. apply List.Forall_forall. intros c Hc.
  now apply List.filter_In in Hc.
Qed.

Lemma remove_special_Forall (P : N -> Prop) (s : jsstring) :
  Forall P s -> Forall P (remove_special s).
Proof.
  unfold remove_special. rewrite !List.Forall_forall. intros HP c Hc.
  apply List.filter_In in Hc. now apply HP.
Qed.

Lemma kept_clean_unit (c : N) :
  is_kept c = true -> (is_white_space c = true -> c = SPACE) -> clean_unit c.
Proof.
  intros Hk Hs. unfold clean_unit. repeat split.
  - intros ->. discriminate Hk.
  - intros ->. discriminate Hk.
  - unfold is_kept in Hk.
    destruct (is_word_char c); [now left|].
    destruct (is_basic_punct c); [now right; right|].
    destruct (is_white_space c); [right; left; now apply Hs | discriminate].
Qed.

Lemma cleanText_units (text : jsstring) : Forall clean_unit (cleanText text).
Proof.
  destruct text as [|c0 r0]; [constructor|].
  unfold cleanText. apply trim_Forall.
  set (s := collapse_whitespace (strip_tags (c0 :: r0))).
  assert (Hs : Forall (fun c => is_white_space c = true -> c = SPACE) s)
    by apply collapse_from_only_space.
  pose proof (remove_special_kept s) as Hk.
  pose proof (remove_special_Forall _ s Hs) as Hs'.
  rewrite List.Forall_forall in *. intros c Hc.
  apply kept_clean_unit; auto.
Qed.

(** Every code unit of a cleaned string is ASCII, so [toLowerCase] on it is
    the ASCII mapping. *)
Lemma cleanText_ascii (text : jsstring) :
  Forall (fun c => c < 128) (cleanText text).
Proof.
  eapply Forall_impl; [|apply cleanText_units].
  intros c (_ & _ & [Hw | [-> | Hp]]).
  - unfold is_word_char, is_alnum, is_digit, is_upper, is_lower in Hw.
    repeat (apply orb_prop in Hw as [Hw|Hw]);
      try (apply andb_prop in Hw as [_ Hw]; apply N.leb_le in Hw; lia).
    apply N.eqb_eq in Hw. lia.
  - reflexivity.
  - unfold is_basic_punct in Hp. simpl in Hp.
    repeat (apply orb_prop in Hp as [Hp|Hp];
            [apply N.eqb_eq in Hp; subst; reflexivity|]).
    discriminate.
Qed.

(** C9, as the code has it: the output of [cleanText] holds no ['<'] and no
    ['>'] (so no tag), every code unit of it is a word character
    ([A-Za-z0-9_], the underscore included), the plain space, or one of the
    listed punctuation marks, and it neither starts nor ends with white
    space. *)
Theorem cleanText_output (text : jsstring) :
  Forall (fun c => c <> LT /\ c <> GT /\
                   (is_word_char c = true \/ c = SPACE \/ is_basic_punct c = true))
         (cleanText text)
  /\ (forall c r, cleanText text = c :: r -> is_white_space c = false)
  /\ (forall c r, cleanText text = r ++ [c] -> is_white_space c = false).
Proof.
  split; [apply cleanText_units|].
  destruct text as [|c0 r0].
  - split; intros c r E; simpl in E; [discriminate|].
    now destruct r.
  - unfold cleanText. split; intros c r E.
    + eapply trim_head, E.
    + eapply trim_last, E.
Qed.

End NormalizerFacts.

(* ===================================================================== *)
(** * Facts about the ingestion orchestrator *)
(* ===================================================================== *)

Section IngestionFacts.
Import JS Normalizer Ingestion.
Local Open Scope N_scope.
Context `{Platform}.

Lemma truncate_long (max : N) (content : jsstring) :
  max < len content ->
  truncate max content = slice_first max content ++ ELLIPSIS
  /\ len (truncate max content) = max + 3.
Proof.
  intros Hlt. unfold truncate.
  apply N.ltb_lt in Hlt as Hb. rewrite Hb. split; [reflexivity|].
  unfold len, slice_first in *. rewrite length_app, firstn_length_le by lia.
  simpl. lia.
Qed.

Lemma truncate_short (max : N) (content : jsstring) :
  len content <= max -> truncate max content = content.
Proof.
  intros Hle. unfold truncate.
  destruct (N.ltb_spec max (len content)); [lia | reflexivity].
Qed.

(** [processRSSItem], read off its definition. *)
Lemma processRSSItem_Some (W : Web) (item : Item) (source : Source) (a : Article) :
  processRSSItem W item source = Some a ->
  exists key,
    idKey item = Some key
    /\ MIN_CONTENT <= len (cleanText (rawContent W item))
    /\ art_id a = md5_hex key
    /\ art_content a = truncate MAX_CONTENT (cleanText (rawContent W item))
    /\ art_title a = cleanText (or_default (item_title item) (str "Untitled"))
    /\ art_url a = or_default (item_link item) [].
Proof.
  unfold processRSSItem. destruct (idKey item) as [key|]; [|discriminate].
  destruct (N.ltb_spec (len (cleanText (rawContent W item))) MIN_CONTENT);
    [discriminate|].
  intros [= <-]. exists key. simpl. repeat split; auto.
Qed.

Lemma processRSSItem_accepts (W : Web) (item : Item) (source : Source) (key : jsstring) :
  idKey item = Some key ->
  MIN_CONTENT <= len (cleanText (rawContent W item)) ->
  exists a, processRSSItem W item source = Some a.
Proof.
  intros Hk Hlen. unfold processRSSItem. rewrite Hk.
  destruct (N.ltb_spec (len (cleanText (rawContent W item))) MIN_CONTENT);
    [lia | eauto].
Qed.

(** The key is the first truthy one of link, guid, title; with none truthy
    it is the title as it stands. *)
Lemma idKey_cases (item : Item) :
  (truthy (item_link item) = true /\ idKey item = item_link item)
  \/ (truthy (item_link item) = false /\ truthy (item_guid item) = true
      /\ idKey item = item_guid item)
  \/ (truthy (item_link item) = false /\ truthy (item_guid item) = false
      /\ idKey item = item_title item).
Proof.
  unfold idKey, or_else.
  destruct (truthy (item_link item)) eqn:Hl; simpl.
  - rewrite Hl. auto.
  - destruct (truthy (item_guid item)) eqn:Hg; auto.
Qed.

(** C6: in every article record, content whose cleaned form is longer than
    6000 code units is stored as its first 6000 code units followed by
    ["..."] (6003 in all); cleaned content of at most 6000 is stored as it
    is. *)
Theorem content_is_length_bounded (W : Web) (item : Item) (source : Source)
    (a : Article) :
  processRSSItem W item source = Some a ->
  let cleaned := cleanText (rawContent W item) in
  (6000 < len cleaned ->
     art_content a = slice_first 6000 cleaned ++ str "..."
     /\ len (art_content a) = 6003)
  /\ (len cleaned <= 6000 -> art_content a = cleaned).
Proof.
  intros Ha cleaned.
  destruct (processRSSItem_Some _ _ _ _ Ha) as (key & _ & _ & _ & Hc & _).
  fold cleaned in Hc. rewrite Hc. split; intros Hlen.
  - apply (truncate_long MAX_CONTENT cleaned Hlen).
  - apply (truncate_short MAX_CONTENT cleaned Hlen).
Qed.

(* --------------------------------------------------------------------- *)
(** ** The deduplicating filter *)

Lemma elem_of_add (k x : jsstring) (S : gset jsstring) :
  k ∈ {[ x ]} ∪ S <-> x = k \/ k ∈ S.
Proof.
  rewrite elem_of_union, elem_of_singleton. intuition congruence.
Qed.

Lemma filterUnique_spec (articles : list Article) :
  forall (seen seen' : Seen) (kept : list Article),
  filterUnique seen articles = (kept, seen') ->
  List.NoDup (List.map urlKey kept)
  /\ List.NoDup (List.map titleKey kept)
  /\ List.Forall (fresh_for seen) kept
  /\ (forall k, k ∈ seenUrls seen' <->
                (k ∈ seenUrls seen \/ List.In k (List.map urlKey kept)))
  /\ (forall k, k ∈ seenTitles seen' <->
                (k ∈ seenTitles seen \/ List.In k (List.map titleKey kept)))
  /\ kept `sublist_of` articles.
Proof.
  induction articles as [|a rest IH]; intros seen seen' kept; simpl.
  - intros [= <- <-]. simpl.
    repeat split; try constructor; try tauto.
  - destruct (bool_decide (urlKey a ∈ seenUrls seen)
              || bool_decide (titleKey a ∈ seenTitles seen)) eqn:Hdup.
    + intros E. destruct (IH _ _ _ E) as (Nu & Nt & Hfresh & Hsu & Hst & Hsub).
      repeat split; try assumption; try (now apply Hsu); try (now apply Hst).
      now apply sublist_cons.
    + apply orb_false_elim in Hdup as [Hu Ht].
      apply bool_decide_eq_false in Hu, Ht.
      destruct (filterUnique _ rest) as [kept0 seen0] eqn:E.
      intros [= <- <-].
      destruct (IH _ _ _ E) as (Nu & Nt & Hfresh & Hsu & Hst & Hsub).
      simpl in Hsu, Hst.
      assert (Hfresh0 : forall b, List.In b kept0 ->
                urlKey a <> urlKey b /\ titleKey a <> titleKey b
                /\ fresh_for seen b).
      { rewrite List.Forall_forall in Hfresh. intros b Hb.
        destruct (Hfresh b Hb) as [Hbu Hbt]. simpl in Hbu, Hbt.
        rewrite elem_of_add in Hbu, Hbt. unfold fresh_for. tauto. }
      simpl. repeat split.
      * constructor; [|exact Nu]. intros Hin.
        apply List.in_map_iff in Hin as (b & Hb & Hin).
        destruct (Hfresh0 b Hin) as (Hne & _). congruence.
      * constructor; [|exact Nt]. intros Hin.
        apply List.in_map_iff in Hin as (b & Hb & Hin).
        destruct (Hfresh0 b Hin) as (_ & Hne & _). congruence.
      * constructor; [now split|].
        apply List.Forall_forall. intros b Hb. now apply Hfresh0.
      * rewrite Hsu, elem_of_add. tauto.
      * rewrite Hsu, elem_of_add. tauto.
      * rewrite Hst, elem_of_add. tauto.
      * rewrite Hst, elem_of_add. tauto.
      * now apply sublist_skip.
Qed.

Lemma collectUnique_spec (W : Web) (rssSources : list Source) :
  forall seen : Seen,
  let batch := collectUnique W seen rssSources in
  List.NoDup (List.map urlKey batch)
  /\ List.NoDup (List.map titleKey batch)
  /\ List.Forall (fresh_for seen) batch
  /\ batch `sublist_of` collectAllSources W rssSources.
Proof.
  induction rssSources as [|source rest IH]; intros seen; simpl.
  - repeat split; constructor.
  - destruct (filterUnique seen (ingestFromRSS W source)) as [u seen'] eqn:E.
    destruct (filterUnique_spec _ _ _ _ E) as (Nu & Nt & Hfresh & Hsu & Hst & Hsub).
    destruct (IH seen') as (Nu' & Nt' & Hfresh' & Hsub').
    rewrite List.Forall_forall in Hfresh, Hfresh'.
    rewrite !List.map_app. repeat split.
    + apply List.NoDup_app; [assumption..|].
      intros k Hk Hk'. apply List.in_map_iff in Hk' as (b & <- & Hb).
      destruct (Hfresh' b Hb) as [Hbu _]. apply Hbu, Hsu. now right.
    + apply List.NoDup_app; [assumption..|].
      intros k Hk Hk'. apply List.in_map_iff in Hk' as (b & <- & Hb).
      destruct (Hfresh' b Hb) as [_ Hbt]. apply Hbt, Hst. now right.
    + apply List.Forall_app. split; apply List.Forall_forall.
      * exact Hfresh.
      * intros b Hb. destruct (Hfresh' b Hb) as [Hbu Hbt]. split.
        -- intros Hin. apply Hbu, Hsu. now left.
        -- intros Hin. apply Hbt, Hst. now left.
    + unfold collectAllSources. simpl. now apply sublist_app.
Qed.

(** C5, as the code has it: in every run of [ingestWithDeduplication] no two
    articles of [allArticles], the batch handed to [storeBatchDocuments],
    share a URL key or a normalised title key, and the batch is a
    subsequence of what the sources yielded (items are only ever dropped). *)
Theorem deduplicated_batch_has_distinct_keys (W : Web) (rssSources : list Source) :
  List.NoDup (List.map urlKey (collectWithDeduplication W rssSources))
  /\ List.NoDup (List.map titleKey (collectWithDeduplication W rssSources))
  /\ collectWithDeduplication W rssSources `sublist_of` collectAllSources W rssSources.
Proof.
  unfold collectWithDeduplication.
  destruct (collectUnique_spec W rssSources seen_none) as (? & ? & _ & ?).
  auto.
Qed.

End IngestionFacts.

(* ===================================================================== *)
(** * Facts about the retrieval pipeline *)
(* ===================================================================== *)

Section RetrievalFacts.
Import JS Retrieval.
Local Open Scope N_scope.
Context `{Platform}.

(** ** Functions that only call providers *)

Lemma logged_nil (st : Store) : logged st [] = st.
Proof. destruct st. unfold logged. simpl. now rewrite app_nil_r. Qed.

Lemma logged_logged (st : Store) (c1 c2 : list Event) :
  logged (logged st c1) c2 = logged st (c1 ++ c2).
Proof. unfold logged. simpl. now rewrite app_assoc. Qed.

Lemma generations_app (c1 c2 : list Event) :
  generations (c1 ++ c2) = (generations c1 + generations c2)%nat.
Proof. unfold generations. now rewrite List.filter_app, length_app. Qed.

Lemma calls_only_ret {A} (a : A) : calls_only (ret a) 0.
Proof.
  exists (Returned a), []. split; [reflexivity|].
  intros st. unfold ret. now rewrite logged_nil.
Qed.

Lemma calls_only_throw {A} (e : Error) : calls_only (@throw A e) 0.
Proof.
  exists (Thrown e), []. split; [reflexivity|].
  intros st. unfold throw. now rewrite logged_nil.
Qed.

Lemma calls_only_emit (ev : Event) :
  calls_only (emit ev) (if is_generate ev then 1 else 0).
Proof.
  exists (Returned tt), [ev]. split; [|reflexivity].
  unfold generations. simpl. destruct (is_generate ev); simpl; lia.
Qed.

Lemma calls_only_bind {A B} (m : Async A) (k : A -> Async B) (n1 n2 : nat) :
  calls_only m n1 -> (forall a, calls_only (k a) n2) ->
  calls_only (bind m k) (n1 + n2).
Proof.
  intros (o & c1 & Hn1 & Hm) Hk. destruct o as [a|e].
  - destruct (Hk a) as (o2 & c2 & Hn2 & Hka).
    exists o2, (c1 ++ c2). split; [rewrite generations_app; lia|].
    intros st. unfold bind. now rewrite Hm, Hka, logged_logged.
  - exists (Thrown e), c1. split; [lia|].
    intros st. unfold bind. now rewrite Hm.
Qed.

Lemma calls_only_tryCatch {A} (body : Async A) (handler : Error -> Async A)
    (n : nat) :
  calls_only body n -> (forall e, calls_only (handler e) 0) ->
  calls_only (tryCatch body handler) n.
Proof.
  intros (o & c1 & Hn1 & Hm) Hh. destruct o as [a|e].
  - exists (Returned a), c1. split; [lia|].
    intros st. unfold tryCatch. now rewrite Hm.
  - destruct (Hh e) as (o2 & c2 & Hn2 & Hhe).
    exists o2, (c1 ++ c2). split; [rewrite generations_app; lia|].
    intros st. unfold tryCatch. now rewrite Hm, Hhe, logged_logged.
Qed.

Lemma calls_only_weaken {A} (m : Async A) (n n' : nat) :
  calls_only m n -> (n <= n')%nat -> calls_only m n'.
Proof. intros (o & c & Hn & Hm) Hle. exists o, c. split; [lia | exact Hm]. Qed.

Lemma calls_only_awaitReply {A} (ev : Event) (reply : Reply A) (invalid : Error) :
  calls_only (awaitReply ev reply invalid) (if is_generate ev then 1 else 0).
Proof.
  unfold awaitReply.
  replace (if is_generate ev then 1 else 0)%nat
    with ((if is_generate ev then 1 else 0) + 0)%nat by lia.
  apply calls_only_bind; [apply calls_only_emit|].
  intros _. destruct reply;
    [apply calls_only_throw | apply calls_only_throw | apply calls_only_ret].
Qed.

Variables (svc : RAGService) (W : World).

Lemma calls_only_generateEmbedding (text : jsstring) :
  calls_only (generateEmbedding svc W text) 0.
Proof.
  unfold generateEmbedding.
  apply calls_only_tryCatch; [|intros; apply calls_only_throw].
  destruct (truthy (jinaApiKey svc)); [|apply calls_only_throw].
  apply (calls_only_awaitReply (EvEmbed text)).
Qed.

Lemma calls_only_searchSimilarDocuments (query : jsstring) (limit : N) :
  calls_only (searchSimilarDocuments svc W query limit) 0.
Proof.
  unfold searchSimilarDocuments.
  apply calls_only_tryCatch; [|intros; apply calls_only_ret].
  destruct (negb (isQdrantAvailable svc)); [apply calls_only_ret|].
  apply (calls_only_bind _ _ 0 0); [apply calls_only_generateEmbedding|].
  intros v. apply (calls_only_bind _ _ 0 0).
  - apply (calls_only_emit (EvSearch v limit SCORE_THRESHOLD)).
  - intros _. destruct (qdrant_search W v limit SCORE_THRESHOLD);
      [apply calls_only_ret | apply calls_only_throw].
Qed.

Lemma calls_only_generateResponse (query : jsstring) (context : list Doc)
    (chatHistory : list ChatMessage) :
  calls_only (generateResponse svc W query context chatHistory) 1.
Proof.
  unfold generateResponse.
  apply calls_only_tryCatch; [|intros; apply calls_only_throw].
  destruct (truthy (geminiApiKey svc));
    [|eapply calls_only_weaken; [apply calls_only_throw | lia]].
  apply (calls_only_bind _ _ 1 0).
  - apply (calls_only_awaitReply (EvGenerate _)).
  - intros t. apply calls_only_ret.
Qed.

Lemma calls_only_processQuery (query : jsstring) (chatHistory : list ChatMessage) :
  calls_only (processQuery svc W query chatHistory) 1.
Proof.
  unfold processQuery.
  apply calls_only_tryCatch; [|intros; apply calls_only_throw].
  destruct (negb (isQdrantAvailable svc));
    [eapply calls_only_weaken; [apply calls_only_ret | lia]|].
  apply (calls_only_bind _ _ 0 1); [apply calls_only_searchSimilarDocuments|].
  intros docs. destruct (len docs =? 0).
  - apply (calls_only_bind _ _ 1 0); [apply calls_only_generateResponse|].
    intros g. apply calls_only_ret.
  - apply (calls_only_bind _ _ 1 0); [apply calls_only_generateResponse|].
    intros g. apply calls_only_ret.
Qed.

(** [searchSimilarDocuments] never throws. *)
Lemma searchSimilarDocuments_returns (query : jsstring) (limit : N) (st : Store) :
  exists docs st', searchSimilarDocuments svc W query limit st = (Returned docs, st').
Proof.
  unfold searchSimilarDocuments, tryCatch.
  match goal with |- context [match ?b st with _ => _ end] =>
    destruct (b st) as [[docs|e] st'] end; unfold ret; eauto.
Qed.

End RetrievalFacts.

Section PipelineFacts.
Import JS Retrieval.
Local Open Scope N_scope.
Context `{Platform}.
Variables (svc : RAGService) (W : World).

Lemma searchSimilarDocuments_docs (query : jsstring) (limit : N) (st st' : Store)
    (docs : list Doc) :
  searchSimilarDocuments svc W query limit st = (Returned docs, st') ->
  docs = []
  \/ exists vector hits,
       qdrant_search W vector limit SCORE_THRESHOLD = Some hits
       /\ docs = List.map toDoc hits.
Proof.
  unfold searchSimilarDocuments, tryCatch, bind.
  destruct (isQdrantAvailable svc); simpl.
  - destruct (generateEmbedding svc W query st) as [[v|e] st1].
    + unfold emit, ret, throw.
      destruct (qdrant_search W v limit SCORE_THRESHOLD) as [hits|] eqn:E;
        intros [= <- _]; eauto.
    + unfold ret. intros [= <- _]. now left.
  - unfold ret. intros [= <- _]. now left.
Qed.

Lemma generateResponse_answer (query : jsstring) (context : list Doc)
    (chatHistory : list ChatMessage) (text : jsstring) (st : Store) :
  truthy (geminiApiKey svc) = true ->
  gemini_generate W (buildPrompt query context chatHistory) = Answer text ->
  generateResponse svc W query context chatHistory st
  = (Returned {| gen_response := text;
                 gen_sources := List.map toSourceRef context |},
     logged st [EvGenerate (buildPrompt query context chatHistory)]).
Proof.
  intros Hkey Hgen.
  unfold generateResponse, tryCatch, bind, awaitReply, bind, emit, ret.
  now rewrite Hkey, Hgen.
Qed.

Lemma generateResponse_sources (query : jsstring) (context : list Doc)
    (chatHistory : list ChatMessage) (st st' : Store) (g : Generated) :
  generateResponse svc W query context chatHistory st = (Returned g, st') ->
  gen_sources g = List.map toSourceRef context.
Proof.
  unfold generateResponse, tryCatch, bind, awaitReply, bind, emit, ret, throw.
  destruct (truthy (geminiApiKey svc)); [|discriminate].
  destruct (gemini_generate W _); try discriminate.
  now intros [= <- _].
Qed.

Lemma generateResponse_throws (query : jsstring) (context : list Doc)
    (chatHistory : list ChatMessage) (st : Store) :
  generation_fails W ->
  exists e st', generateResponse svc W query context chatHistory st = (Thrown e, st').
Proof.
  intros Hfail.
  unfold generateResponse, tryCatch, bind, awaitReply, bind, emit, ret, throw.
  destruct (truthy (geminiApiKey svc)); [|eauto].
  destruct (gemini_generate W _) as [| |text] eqn:E; eauto.
  now apply Hfail in E.
Qed.

Lemma processQuery_throws (query : jsstring) (chatHistory : list ChatMessage)
    (st : Store) :
  isQdrantAvailable svc = true -> generation_fails W ->
  exists e st', processQuery svc W query chatHistory st = (Thrown e, st').
Proof.
  intros Hup Hfail. unfold processQuery, tryCatch, bind. rewrite Hup. simpl.
  destruct (searchSimilarDocuments_returns svc W query SEARCH_LIMIT st)
    as (docs & st1 & ->).
  destruct (len docs =? 0).
  - destruct (generateResponse_throws query [] chatHistory st1 Hfail)
      as (e & st2 & ->). unfold throw. eauto.
  - destruct (generateResponse_throws query docs chatHistory st1 Hfail)
      as (e & st2 & ->). unfold throw. eauto.
Qed.

(** The outcome of [processQuery] and the calls it makes do not depend on
    the store it runs on. *)
Lemma processQuery_on_any_store (query : jsstring) (chatHistory : list ChatMessage)
    (st st0 : Store) (o : Outcome QueryResult) :
  fst (processQuery svc W query chatHistory st0) = o ->
  exists calls, (generations calls <= 1)%nat
    /\ processQuery svc W query chatHistory st = (o, logged st calls).
Proof.
  destruct (calls_only_processQuery svc W query chatHistory)
    as (o' & calls & Hn & Hrun).
  rewrite Hrun. simpl. intros <-. exists calls. split; [exact Hn | apply Hrun].
Qed.

End PipelineFacts.

(* ===================================================================== *)
(** * Facts about storage *)
(* ===================================================================== *)

Section StorageFacts.
Import JS Ingestion Retrieval.
Local Open Scope N_scope.
Context `{Platform}.
Variables (svc : RAGService) (W : World).

(** Upserting a point whose id is already stored replaces it: the
    collection has the same ids as before. *)
Lemma upsert_same_id_keeps_ids (p1 p2 : Point) (st : Store) :
  pt_id p1 = pt_id p2 ->
  dom (points (upsertPoints [p2] (upsertPoints [p1] st)))
  = dom (points (upsertPoints [p1] st)).
Proof.
  intros Hid. unfold upsertPoints. simpl. rewrite <- Hid.
  now rewrite insert_insert_eq, !dom_insert_L.
Qed.

(** [embedBatch] never throws, leaves cache and collection alone, and keeps
    the documents' ids in order. *)
Lemma embedBatch_spec (batch : list Article) :
  forall st : Store,
  exists batchPoints calls,
    embedBatch svc W batch st = (Returned batchPoints, logged st calls)
    /\ List.map pt_id batchPoints `sublist_of` List.map art_id batch.
Proof.
  induction batch as [|doc rest IH]; intros st; simpl.
  - exists [], []. unfold ret. rewrite logged_nil. split; constructor.
  - destruct (calls_only_generateEmbedding svc W (art_content doc))
      as (o & c1 & _ & Hrun).
    unfold bind at 1, tryCatch, bind at 1. rewrite Hrun.
    destruct o as [embedding|e]; unfold ret at 1.
    + unfold bind at 1. destruct (IH (logged st c1)) as (ps & c2 & -> & Hsub).
      unfold ret. rewrite logged_logged.
      exists (toPoint W doc embedding :: ps), (c1 ++ c2).
      split; [reflexivity|]. simpl. now apply sublist_skip.
    + unfold bind at 1. destruct (IH (logged st c1)) as (ps & c2 & -> & Hsub).
      unfold ret. rewrite logged_logged.
      exists ps, (c1 ++ c2). split; [reflexivity|]. now apply sublist_cons.
Qed.

(** More fuel than documents changes nothing. *)
Lemma storeBatches_fuel (fuel1 : nat) :
  forall (fuel2 : nat) (documents : list Article) (st : Store),
  (length documents <= fuel1)%nat -> (length documents <= fuel2)%nat ->
  storeBatches svc W fuel1 documents st = storeBatches svc W fuel2 documents st.
Proof.
  induction fuel1 as [|fuel1 IH]; intros fuel2 documents st H1 H2.
  - destruct documents; [|simpl in H1; lia]. now destruct fuel2.
  - destruct documents as [|doc rest]; [now destruct fuel2|].
    destruct fuel2 as [|fuel2]; [simpl in H2; lia|].
    cbn [storeBatches]. unfold bind.
    destruct (embedBatch svc W _ st) as [[batch|e] st1]; [|reflexivity].
    destruct ((if 0 <? len batch then upsert W batch else ret tt) st1)
      as [[[]|e] st2]; [|reflexivity].
    rewrite (IH fuel2); [reflexivity | |];
      rewrite length_skipn; simpl in *; lia.
Qed.

(** Every id [storeBatchDocuments] reports is the id of one of the
    documents it was given, in their order. *)
Lemma storeBatches_ids (fuel : nat) :
  forall (documents : list Article) (st st' : Store) (ids : list jsstring),
  storeBatches svc W fuel documents st = (Returned ids, st') ->
  ids `sublist_of` List.map art_id documents.
Proof.
  induction fuel as [|fuel IH]; intros documents st st' ids.
  - simpl. unfold ret. intros [= <- _].
    destruct documents; [constructor | apply sublist_nil_l].
  - destruct documents as [|doc rest].
    + simpl. unfold ret. intros [= <- _]. constructor.
    + cbn [storeBatches]. unfold bind.
      destruct (embedBatch_spec (slice_first BATCH_SIZE (doc :: rest)) st)
        as (batch & calls & -> & Hsub).
      destruct ((if 0 <? len batch then upsert W batch else ret tt) _)
        as [[[]|e] st2]; [|discriminate].
      destruct (storeBatches svc W fuel _ st2) as [[results|e] st3] eqn:Hrest;
        [|discriminate].
      unfold ret. intros [= <- _].
      apply IH in Hrest.
      assert (E : List.map art_id (doc :: rest)
                  = List.map art_id (slice_first BATCH_SIZE (doc :: rest))
                    ++ List.map art_id (skipn (N.to_nat BATCH_SIZE) (doc :: rest))).
      { rewrite <- List.map_app. unfold slice_first. now rewrite firstn_skipn. }
      rewrite E. now apply sublist_app.
Qed.

Lemma storeBatchDocuments_ids (documents : list Article) (st st' : Store)
    (ids : list jsstring) :
  storeBatchDocuments svc W documents st = (Returned ids, st') ->
  ids `sublist_of` List.map art_id documents.
Proof.
  unfold storeBatchDocuments, tryCatch.
  destruct (storeBatches svc W _ documents st) as [[results|e] st1] eqn:Hrun.
  - intros [= <- _]. eapply storeBatches_ids, Hrun.
  - unfold throw. discriminate.
Qed.

End StorageFacts.

Section IngestionClaims.
Import JS Normalizer Ingestion Retrieval IngestionRun.
Local Open Scope N_scope.
Context `{Platform}.

(** C4: the id of an article is the digest of the item's first non-empty
    key among link, guid, title (the expression is the same in
    newsIngestion.js and newsIngestionService.js), and of nothing else:
    whatever the page fetch returns and whatever the clock says, two runs
    over the same item that both yield an article yield the same id, so
    upserting the second article's point on top of the first leaves the
    collection with the same ids, not one more. *)
Theorem article_id_is_deterministic (W1 W2 : Web) (item : Item)
    (source1 source2 : Source) (a1 a2 : Article) :
  processRSSItem W1 item source1 = Some a1 ->
  processRSSItem W2 item source2 = Some a2 ->
  art_id a1 = art_id a2
  /\ (exists key, idKey item = Some key /\ art_id a1 = md5_hex key
       /\ (truthy (item_link item) = true -> item_link item = Some key)
       /\ (truthy (item_link item) = false -> truthy (item_guid item) = true ->
           item_guid item = Some key)
       /\ (truthy (item_link item) = false -> truthy (item_guid item) = false ->
           item_title item = Some key))
  /\ (forall (R1 R2 : World) (e1 e2 : Vector) (st : Store),
        dom (points (upsertPoints [toPoint R2 a2 e2]
                       (upsertPoints [toPoint R1 a1 e1] st)))
        = dom (points (upsertPoints [toPoint R1 a1 e1] st))).
Proof.
  intros H1 H2.
  destruct (processRSSItem_Some _ _ _ _ H1) as (k1 & Hk1 & _ & Hid1 & _).
  destruct (processRSSItem_Some _ _ _ _ H2) as (k2 & Hk2 & _ & Hid2 & _).
  assert (k1 = k2) as <- by congruence.
  assert (Hsame : art_id a1 = art_id a2) by congruence.
  split; [exact Hsame|]. split.
  - exists k1. split; [exact Hk1|]. split; [exact Hid1|].
    destruct (idKey_cases item) as [(Hl & E) | [(Hl & Hg & E) | (Hl & Hg & E)]];
      rewrite Hk1 in E; repeat split; intros; congruence.
  - intros R1 R2 e1 e2 st. apply upsert_same_id_keeps_ids. exact Hsame.
Qed.

(** The report of a deduplicating run counts the deduplicated batch, and
    never more stored ids than that. *)
Lemma ingestWithDeduplication_report (svc : RAGService) (W : World) (web : Web)
    (rssSources : list Source) (st st' : Store) (report : DedupReport) :
  ingestWithDeduplication svc W web rssSources st = (Returned report, st') ->
  uniqueCollected report = len (collectWithDeduplication web rssSources)
  /\ uniqueStored report <= uniqueCollected report.
Proof.
  unfold ingestWithDeduplication, tryCatch, bind.
  destruct (0 <? len (collectWithDeduplication web rssSources)) eqn:Hany.
  - destruct (storeBatchDocuments svc W _ st) as [[ids|e] st1] eqn:Hstore;
      [|discriminate].
    unfold ret. intros [= <- _]. simpl. split; [reflexivity|].
    apply storeBatchDocuments_ids, sublist_length in Hstore.
    rewrite length_map in Hstore. unfold len. lia.
  - unfold ret. intros [= <- _]. simpl. apply N.ltb_ge in Hany. lia.
Qed.

End IngestionClaims.

Section PipelineClaims.
Import JS Retrieval.
Local Open Scope N_scope.
Context `{Platform}.

(** C2: with the vector store marked unavailable, [processQuery] returns the
    fixed advisory text with no source and a count of 0, and the store comes
    back as it went in: nothing was logged, so neither the embedding
    provider nor the vector-store search (nor any other provider) was
    called. *)
Theorem degraded_mode_short_circuits (svc : RAGService) (W : World)
    (query : jsstring) (chatHistory : list ChatMessage) (st : Store) :
  isQdrantAvailable svc = false ->
  processQuery svc W query chatHistory st
  = (Returned {| response := ADVISORY;
                 sources := [];
                 queryHash := Some (fingerprint query chatHistory);
                 relevantDocsCount := Some 0 |},
     st).
Proof.
  intros Hdown. unfold processQuery, tryCatch. now rewrite Hdown.
Qed.

(** C3: when the vector store honours its search contract, every document
    [searchSimilarDocuments] returns has a score of at least 0.7, and there
    are at most [limit] of them; the function always returns. *)
Theorem search_results_pass_relevance_gate (svc : RAGService) (W : World)
    (query : jsstring) (limit : N) (st : Store) :
  honours_search_contract W ->
  exists docs st',
    searchSimilarDocuments svc W query limit st = (Returned docs, st')
    /\ len docs <= limit
    /\ List.Forall (fun doc => (7 # 10 <= doc_score doc)%Q) docs.
Proof.
  intros Hcontract.
  destruct (searchSimilarDocuments_returns svc W query limit st)
    as (docs & st' & Hrun).
  exists docs, st'. split; [exact Hrun|].
  destruct (searchSimilarDocuments_docs svc W _ _ _ _ _ Hrun)
    as [-> | (vector & hits & Hsearch & ->)].
  - split; [unfold len; simpl; lia | constructor].
  - destruct (Hcontract _ _ _ _ Hsearch) as [Hlen Hscores].
    split.
    + unfold len in *. now rewrite length_map.
    + apply List.Forall_map. exact Hscores.
Qed.

(** C7, as the code has it: when the search yields no document and the
    generation provider answers, [processQuery] has called the provider once
    with the empty-database prompt (no article context), and returns the
    provider's text (the fixed no-data message if that text is empty) with
    no source and a count of 0. *)
Theorem no_candidates_path (svc : RAGService) (W : World)
    (query : jsstring) (chatHistory : list ChatMessage) (st st1 : Store)
    (text : jsstring) :
  isQdrantAvailable svc = true ->
  searchSimilarDocuments svc W query SEARCH_LIMIT st = (Returned [], st1) ->
  truthy (geminiApiKey svc) = true ->
  gemini_generate W (emptyDatabasePrompt query chatHistory) = Answer text ->
  processQuery svc W query chatHistory st
  = (Returned {| response := match text with [] => NO_DATA | _ => text end;
                 sources := [];
                 queryHash := Some (fingerprint query chatHistory);
                 relevantDocsCount := Some 0 |},
     logged st1 [EvGenerate (emptyDatabasePrompt query chatHistory)]).
Proof.
  intros Hup Hsearch Hkey Hgen.
  unfold processQuery, tryCatch, bind. rewrite Hup. cbn [negb].
  rewrite Hsearch. change (len (@nil Doc) =? 0) with true. cbv beta iota.
  rewrite (generateResponse_answer svc W query [] chatHistory text st1 Hkey Hgen).
  unfold ret. cbn [gen_response gen_sources or_default]. now destruct text.
Qed.

(** C10: every result [processQuery] returns carries the fingerprint of the
    query, and its [relevantDocsCount] is the length of its [sources]. *)
Theorem result_count_matches_sources (svc : RAGService) (W : World)
    (query : jsstring) (chatHistory : list ChatMessage) (st st' : Store)
    (r : QueryResult) :
  processQuery svc W query chatHistory st = (Returned r, st') ->
  relevantDocsCount r = Some (len (sources r))
  /\ queryHash r = Some (fingerprint query chatHistory).
Proof.
  unfold processQuery, tryCatch, bind.
  destruct (isQdrantAvailable svc); simpl.
  - destruct (searchSimilarDocuments svc W query SEARCH_LIMIT st)
      as [[docs|e] st1]; [|discriminate].
    destruct (len docs =? 0) eqn:Hlen.
    + destruct (generateResponse svc W query [] chatHistory st1)
        as [[g|e] st2]; [|discriminate].
      unfold ret. intros [= <- _]. now split.
    + destruct (generateResponse svc W query docs chatHistory st1)
        as [[g|e] st2] eqn:Hgen; [|discriminate].
      unfold ret. intros [= <- _]. simpl.
      rewrite (generateResponse_sources svc W _ _ _ _ _ _ Hgen).
      unfold len. now rewrite length_map.
  - unfold ret. intros [= <- _]. now split.
Qed.

End PipelineClaims.

Section HandlerFacts.
Import JS Retrieval.
Local Open Scope N_scope.
Context `{Platform}.

Lemma lookupCached_logged (W : World) (queryHash : jsstring) (st : Store)
    (calls : list Event) :
  lookupCached W queryHash (logged st calls) = lookupCached W queryHash st.
Proof. reflexivity. Qed.

Lemma getCachedQueryResult_run (W : World) (queryHash : jsstring) (st : Store) :
  getCachedQueryResult W queryHash st
  = (Returned (lookupCached W queryHash st),
     logged st [EvCacheGet (cacheKey queryHash)]).
Proof. reflexivity. Qed.

Lemma cacheQueryResult_run (W : World) (queryHash : jsstring)
    (result : QueryResult) (ttl : N) (st : Store) :
  cacheQueryResult W queryHash result ttl st
  = (Returned (redis_set_ok W),
     let st' := logged st [EvCacheSet (cacheKey queryHash) ttl] in
     if redis_set_ok W then redis_setEx W (cacheKey queryHash) ttl result st'
     else st').
Proof.
  unfold cacheQueryResult, bind, emit, ret.
  destruct (redis_set_ok W); reflexivity.
Qed.

Lemma cacheKey_inj (h1 h2 : jsstring) : cacheKey h1 = cacheKey h2 -> h1 = h2.
Proof. unfold cacheKey. apply app_inv_head. Qed.

(** The handler, one step at a time. *)
Lemma handleMessage_run (svc : RAGService) (W : World) (message : jsstring)
    (chatHistory : list ChatMessage) (st : Store) :
  let queryHash := fingerprint message chatHistory in
  let st0 := logged st [EvCacheGet (cacheKey queryHash)] in
  handleMessage svc W message chatHistory st
  = match lookupCached W queryHash st with
    | Some cached =>
        (Returned {| ans_response := cached; ans_cached := true |}, st0)
    | None =>
        match processQuery svc W message chatHistory st0 with
        | (Returned r, st1) =>
            (Returned {| ans_response := r; ans_cached := false |},
             snd (cacheQueryResult W queryHash r CACHE_TTL st1))
        | (Thrown _, st1) =>
            (Returned {| ans_response := apologyResult; ans_cached := false |},
             st1)
        end
    end.
Proof.
  intros queryHash st0. unfold handleMessage. fold queryHash.
  unfold bind at 1. rewrite getCachedQueryResult_run. fold st0.
  destruct (lookupCached W queryHash st) as [cached|]; [reflexivity|].
  unfold tryCatch, bind.
  destruct (processQuery svc W message chatHistory st0) as [[r|e] st1];
    [|reflexivity].
  rewrite cacheQueryResult_run. reflexivity.
Qed.

(** The three ways through the handler: answered from the cache; answered
    by the pipeline and offered to the cache; pipeline failure answered with
    the apology. *)
Lemma handleMessage_cases (svc : RAGService) (W : World) (message : jsstring)
    (chatHistory : list ChatMessage) (st : Store) :
  let queryHash := fingerprint message chatHistory in
  let key := cacheKey queryHash in
  (exists cached,
      lookupCached W queryHash st = Some cached
      /\ handleMessage svc W message chatHistory st
         = (Returned {| ans_response := cached; ans_cached := true |},
            logged st [EvCacheGet key]))
  \/ (lookupCached W queryHash st = None
      /\ exists calls, (generations calls <= 1)%nat
         /\ ((exists r,
                fst (processQuery svc W message chatHistory st) = Returned r
                /\ handleMessage svc W message chatHistory st
                   = (Returned {| ans_response := r; ans_cached := false |},
                      let st' := logged st (EvCacheGet key :: calls
                                            ++ [EvCacheSet key CACHE_TTL]) in
                      if redis_set_ok W then redis_setEx W key CACHE_TTL r st'
                      else st'))
             \/ (exists e,
                   fst (processQuery svc W message chatHistory st) = Thrown e
                   /\ handleMessage svc W message chatHistory st
                      = (Returned {| ans_response := apologyResult;
                                     ans_cached := false |},
                         logged st (EvCacheGet key :: calls))))).
Proof.
  intros queryHash key. rewrite handleMessage_run. fold queryHash. fold key.
  cbv zeta.
  destruct (lookupCached W queryHash st) as [cached|] eqn:Hlook.
  - left. exists cached. split; reflexivity.
  - right. split; [reflexivity|].
    destruct (calls_only_processQuery svc W message chatHistory)
      as (o & calls & Hn & Hrun).
    exists calls. split; [exact Hn|].
    rewrite !Hrun. simpl fst.
    destruct o as [r|e].
    + left. exists r. split; [reflexivity|].
      rewrite cacheQueryResult_run. fold key. cbv zeta. simpl snd.
      rewrite !logged_logged. reflexivity.
    + right. exists e. split; [reflexivity|].
      rewrite !logged_logged. reflexivity.
Qed.

Lemma handleMessage_returns (svc : RAGService) (W : World) (message : jsstring)
    (chatHistory : list ChatMessage) (st : Store) :
  exists a st', handleMessage svc W message chatHistory st = (Returned a, st').
Proof.
  destruct (handleMessage_cases svc W message chatHistory st)
    as [(c & _ & ->) | (_ & calls & _ & [(r & _ & ->) | (e & _ & ->)])]; eauto.
Qed.

(** A request that can read the cache leaves a live entry where it is. *)
Lemma serve_keeps_live_entry (svc : RAGService) (req : Request) (st : Store)
    (queryHash : jsstring) (entry : CacheEntry) :
  cache st !! cacheKey queryHash = Some entry ->
  redis_get_ok (req_world req) = true ->
  now (req_world req) < entry_expires entry ->
  cache (snd (serve svc (req_world req) req st)) !! cacheKey queryHash
  = Some entry.
Proof.
  intros Hentry Hget Hlive. unfold serve.
  destruct (handleMessage_cases svc (req_world req) (req_message req)
              (req_history req) st)
    as [(c & _ & ->) | (Hmiss & calls & _ & [(r & _ & ->) | (e & _ & ->)])];
    try exact Hentry.
  simpl snd. destruct (redis_set_ok (req_world req)); [|exact Hentry].
  unfold redis_setEx. simpl cache.
  rewrite lookup_insert_ne; [exact Hentry|].
  intros Heq. apply cacheKey_inj in Heq.
  unfold lookupCached, redis_get in Hmiss.
  rewrite Hget, Heq, Hentry in Hmiss.
  apply N.ltb_lt in Hlive. rewrite Hlive in Hmiss. discriminate.
Qed.

Lemma serveAll_keeps_live_entry (svc : RAGService) (requests : list Request)
    (queryHash : jsstring) (entry : CacheEntry) :
  forall st : Store,
  cache st !! cacheKey queryHash = Some entry ->
  List.Forall (fun req => redis_get_ok (req_world req) = true
                          /\ now (req_world req) < entry_expires entry)
              requests ->
  cache (serveAll svc requests st) !! cacheKey queryHash = Some entry.
Proof.
  induction requests as [|req rest IH]; intros st Hentry Hall; simpl.
  - exact Hentry.
  - apply List.Forall_cons_iff in Hall as [[Hget Hlive] Hrest].
    apply IH; [|exact Hrest].
    now apply serve_keeps_live_entry.
Qed.

(** C8, as the code has it: when the generation provider fails on a query
    that is not in the cache, the handler does not throw: it answers with
    the fixed apology and an empty [sources] array (what was retrieved is
    not attached), and caches nothing. *)
Theorem generation_failure_is_answered_with_apology (svc : RAGService)
    (W : World) (message : jsstring) (chatHistory : list ChatMessage)
    (st : Store) :
  isQdrantAvailable svc = true ->
  generation_fails W ->
  lookupCached W (fingerprint message chatHistory) st = None ->
  exists st',
    handleMessage svc W message chatHistory st
    = (Returned {| ans_response := {| response := APOLOGY;
                                      sources := [];
                                      queryHash := None;
                                      relevantDocsCount := None |};
                   ans_cached := false |},
       st')
    /\ cache st' = cache st.
Proof.
  intros Hup Hfail Hmiss.
  destruct (processQuery_throws svc W message chatHistory st Hup Hfail)
    as (e & st1 & Hthrow).
  destruct (handleMessage_cases svc W message chatHistory st)
    as [(c & Hhit & _) | (_ & calls & _ & [(r & Hr & _) | (e' & _ & ->)])].
  - congruence.
  - rewrite Hthrow in Hr. discriminate.
  - eexists. split; reflexivity.
Qed.

(** C1, as the code has it: let a query miss the cache, let [processQuery]
    return [r] for it and let the cache accept the write.  Then any later
    query with the same text and the same last three turns, handled less
    than 1800 seconds after the first on a readable cache, whatever other
    requests were served in between (on a readable cache, inside the same
    window), has the same fingerprint, is answered with [r] itself, marked
    as cached, and calls nothing but the cache read; the first query called
    the generation provider at most once. *)
Theorem repeated_query_is_served_from_cache (svc : RAGService)
    (W1 W2 : World) (message : jsstring) (h1 h2 : list ChatMessage)
    (between : list Request) (st0 : Store) (r : QueryResult) :
  slice_last 3 h1 = slice_last 3 h2 ->
  lookupCached W1 (fingerprint message h1) st0 = None ->
  fst (processQuery svc W1 message h1 st0) = Returned r ->
  redis_set_ok W1 = true ->
  List.Forall (fun req => redis_get_ok (req_world req) = true
                          /\ now (req_world req) < now W1 + CACHE_TTL)
              between ->
  redis_get_ok W2 = true ->
  now W2 < now W1 + CACHE_TTL ->
  let st1 := snd (handleMessage svc W1 message h1 st0) in
  let st2 := serveAll svc between st1 in
  fingerprint message h1 = fingerprint message h2
  /\ fst (handleMessage svc W1 message h1 st0)
     = Returned {| ans_response := r; ans_cached := false |}
  /\ (generations (log st1) <= generations (log st0) + 1)%nat
  /\ handleMessage svc W2 message h2 st2
     = (Returned {| ans_response := r; ans_cached := true |},
        logged st2 [EvCacheGet (cacheKey (fingerprint message h2))]).
Proof.
  intros Hhist Hmiss Hr Hset Hbetween Hget Hlive st1 st2.
  assert (Hfp : fingerprint message h1 = fingerprint message h2)
    by (unfold fingerprint; now rewrite Hhist).
  set (entry := {| entry_value := r; entry_expires := now W1 + CACHE_TTL |}).
  assert (Hfirst : fst (handleMessage svc W1 message h1 st0)
                   = Returned {| ans_response := r; ans_cached := false |}
                   /\ (generations (log st1) <= generations (log st0) + 1)%nat
                   /\ cache st1 !! cacheKey (fingerprint message h1) = Some entry).
  { subst st1.
    destruct (handleMessage_cases svc W1 message h1 st0)
      as [(c & Hhit & _) | (_ & calls & Hn & [(r' & Hr' & ->) | (e & He & _)])];
      [congruence | | congruence].
    assert (r' = r) as -> by congruence.
    rewrite Hset. simpl fst. simpl snd. split; [reflexivity|]. split.
    - unfold redis_setEx, logged. simpl log.
      change (EvCacheGet ?k :: ?l) with ([EvCacheGet k] ++ l).
      rewrite !generations_app. unfold generations at 2 4. simpl. lia.
    - unfold redis_setEx. simpl cache. apply lookup_insert_eq. }
  destruct Hfirst as (Ho1 & Hgen & Hentry).
  split; [exact Hfp|]. split; [exact Ho1|]. split; [exact Hgen|].
  assert (Hstill : cache st2 !! cacheKey (fingerprint message h1) = Some entry).
  { subst st2. apply serveAll_keeps_live_entry; assumption. }
  destruct (handleMessage_cases svc W2 message h2 st2)
    as [(c & Hhit & ->) | (Hmiss2 & _)].
  - unfold lookupCached, redis_get in Hhit.
    rewrite Hget, <- Hfp, Hstill in Hhit. simpl in Hhit.
    apply N.ltb_lt in Hlive. rewrite Hlive in Hhit.
    now injection Hhit as <-.
  - unfold lookupCached, redis_get in Hmiss2.
    rewrite Hget, <- Hfp, Hstill in Hmiss2. simpl in Hmiss2.
    apply N.ltb_lt in Hlive. rewrite Hlive in Hmiss2. discriminate.
Qed.

End HandlerFacts.

(* ===================================================================== *)
(** * Closed examples *)
(* ===================================================================== *)

Section Examples.
Import JS Normalizer Ingestion Retrieval.
Local Open Scope N_scope.

(** ** The model on small inputs *)

Example cleanText_strips_and_collapses :
  cleanText (str "  <p>Hello,   <b>world</b>!</p> ") = str "Hello, world!".
Proof. reflexivity. Qed.

Example cleanText_unclosed_angle :
  cleanText (str "a < b") = str "a  b".
Proof. reflexivity. Qed.

Example titleKey_normalises :
  titleKey Demo.longArticle = str "rates held".
Proof. reflexivity. Qed.

Example slice_last_short : slice_last 3 [1; 2]%nat = [1; 2]%nat.
Proof. reflexivity. Qed.

Example slice_last_long : slice_last 3 [1; 2; 3; 4; 5]%nat = [3; 4; 5]%nat.
Proof. reflexivity. Qed.

(** Two sources carrying the same item: the deduplicating loop keeps one. *)
Example deduplication_drops_repeat :
  List.map art_source
    (collectWithDeduplication (H := Demo.platform) Demo.web
       [Demo.wire "a"; Demo.wire "b"])
  = [str "a"].
Proof. vm_compute. reflexivity. Qed.

(** A full deduplicating run on an empty store: one article collected, its
    point upserted. *)
Example deduplicating_run_stores_one_point :
  let run := IngestionRun.ingestWithDeduplication (H := Demo.platform)
               Demo.service (Demo.world 0 [] Rejected) Demo.web
               [Demo.wire "a"; Demo.wire "b"] store_empty in
  fst run = Returned {| IngestionRun.uniqueCollected := 1;
                        IngestionRun.uniqueStored := 1;
                        IngestionRun.sourceCount := 2;
                        IngestionRun.categories := [str "world"];
                        IngestionRun.regions := [str "Unknown"] |}
  /\ size (points (snd run)) = 1%nat.
Proof. vm_compute. split; reflexivity. Qed.

(** The same item ingested twice through the plain run: two documents
    stored, still one point. *)
Example plain_run_upserts_same_point :
  let run := IngestionRun.ingestAllSources (H := Demo.platform)
               Demo.service (Demo.world 0 [] Rejected) Demo.web
               [Demo.wire "a"; Demo.wire "b"] store_empty in
  fst run = Returned {| IngestionRun.totalCollected := 2;
                        IngestionRun.totalStored := 2;
                        IngestionRun.sourceNames := [str "a"; str "b"] |}
  /\ size (points (snd run)) = 1%nat.
Proof. vm_compute. split; reflexivity. Qed.

(** ** Where the specification's wording and the code part *)

(** C9 as stated fails: the underscore is a word character, so it stays in
    the output although it is neither alphanumeric nor listed punctuation. *)
Lemma cleanText_keeps_underscore :
  cleanText (str "rate_limit") = str "rate_limit"
  /\ ~ Stated.normalized (cleanText (str "rate_limit")).
Proof.
  split; [reflexivity|].
  intros (_ & Hcharset & _).
  rewrite List.Forall_forall in Hcharset.
  specialize (Hcharset 95). vm_compute in Hcharset.
  assert (false = true) by (apply Hcharset; tauto). discriminate.
Qed.

(** White space is collapsed before the special characters are removed, so
    removing one between two spaces leaves a run of two. *)
Lemma cleanText_can_leave_double_space :
  cleanText (str "fish & chips") = str "fish  chips".
Proof. reflexivity. Qed.

(** C5 as stated fails for [ingestAllSources]: two sources carrying the same
    item put it into the batch twice. *)
Lemma plain_ingestion_keeps_duplicates :
  ~ Stated.no_shared_keys
      (collectAllSources (H := Demo.platform) Demo.web
                        [Demo.wire "a"; Demo.wire "b"]).
Proof.
  intros [Hurls _]. vm_compute in Hurls.
  apply List.NoDup_cons_iff in Hurls as [Hnotin _].
  apply Hnotin. now left.
Qed.

(** C7 as stated fails: with no candidate above the threshold the result
    carries whatever the provider wrote. *)
Lemma provider_text_is_returned_verbatim :
  let W := Demo.world 0 [Demo.farPoint]
             (Answer (str "Paris is the capital of France.")) in
  exists r st1 st',
    searchSimilarDocuments Demo.service W Demo.question SEARCH_LIMIT store_empty
    = (Returned [], st1)
    /\ processQuery (H := Demo.platform) Demo.service W Demo.question []
                    store_empty
       = (Returned r, st')
    /\ response r = str "Paris is the capital of France."
    /\ ~ Stated.states_no_data r.
Proof.
  cbv zeta. eexists. eexists. eexists.
  split; [vm_compute; reflexivity|].
  split; [vm_compute; reflexivity|].
  split; [reflexivity|].
  unfold Stated.states_no_data. vm_compute. discriminate.
Qed.

(** C8 as stated fails: a candidate was retrieved, generation failed, and
    the apology goes out with an empty [sources] array. *)
Lemma apology_carries_no_sources :
  let W := Demo.world 0 [Demo.nearPoint] Rejected in
  exists st1 a st',
    searchSimilarDocuments Demo.service W Demo.question SEARCH_LIMIT store_empty
    = (Returned [toDoc Demo.nearPoint], st1)
    /\ handleMessage (H := Demo.platform) Demo.service W Demo.question []
                     store_empty
       = (Returned a, st')
    /\ sources (ans_response a) = []
    /\ ~ Stated.apology_with_sources [toDoc Demo.nearPoint] a.
Proof.
  cbv zeta. eexists. eexists. eexists.
  split; [vm_compute; reflexivity|].
  split; [vm_compute; reflexivity|].
  split; [reflexivity|].
  intros [_ Hsources]. vm_compute in Hsources. discriminate.
Qed.

(** C1 as stated fails: the first query's generation fails, nothing is
    cached, and the same query one second later is a miss again and goes to
    the provider a second time. *)
Lemma failed_generation_is_not_cached :
  let W1 := Demo.world 0 [Demo.nearPoint] Rejected in
  let W2 := Demo.world 1 [Demo.nearPoint] Rejected in
  let first := handleMessage (H := Demo.platform) Demo.service W1
                 Demo.question [] store_empty in
  let second := handleMessage (H := Demo.platform) Demo.service W2
                  Demo.question [] (snd first) in
  fst second = Returned {| ans_response := apologyResult; ans_cached := false |}
  /\ generations (log (snd second)) = 2%nat
  /\ ~ Stated.cached_on_repeat (H := Demo.platform) Demo.service W1 W2
         Demo.question [] [] store_empty.
Proof.
  cbv zeta. split; [vm_compute; reflexivity|]. split; [vm_compute; reflexivity|].
  intros Hstated.
  assert (Hwindow : 0 <= 1 < 0 + CACHE_TTL) by (split; [discriminate | reflexivity]).
  specialize (Hstated eq_refl Hwindow).
  vm_compute in Hstated.
  destruct Hstated as (_ & (cached & Hhit & _) & _). discriminate.
Qed.

End Examples.

Section Witnesses.
Import JS Normalizer Ingestion Retrieval.
Local Open Scope N_scope.

Lemma reference_world_honours_contract (time : N) (points : list ScoredPoint)
    (completion : Reply jsstring) :
  honours_search_contract (Demo.world time points completion).
Proof.
  intros vector limit threshold hits. simpl. unfold Demo.referenceSearch.
  intros [= <-]. split.
  - unfold len, slice_first.
    pose proof (List.firstn_le_length (N.to_nat limit)
                  (List.filter (fun p => Qle_bool threshold (sp_score p)) points)).
    lia.
  - unfold slice_first. apply Forall_take, List.Forall_forall.
    intros p Hp. apply List.filter_In in Hp as [_ Hp].
    now apply Qle_bool_iff.
Qed.

Lemma repeated_query_witness :
  let W1 := Demo.world 0 [Demo.nearPoint] (Answer (str "Rates were held.")) in
  let W2 := Demo.world 1799 [] Rejected in
  let st1 := snd (handleMessage (H := Demo.platform) Demo.service W1
                    Demo.question [] store_empty) in
  let st2 := serveAll (H := Demo.platform) Demo.service [Demo.otherRequest] st1 in
  exists r,
    fst (handleMessage (H := Demo.platform) Demo.service W1 Demo.question []
           store_empty)
    = Returned {| ans_response := r; ans_cached := false |}
    /\ handleMessage (H := Demo.platform) Demo.service W2 Demo.question [] st2
       = (Returned {| ans_response := r; ans_cached := true |},
          logged st2 [EvCacheGet (cacheKey (fingerprint (H := Demo.platform)
                                              Demo.question []))]).
Proof.
  cbv zeta. eexists.
  refine (let P := repeated_query_is_served_from_cache (H := Demo.platform)
                     Demo.service
                     (Demo.world 0 [Demo.nearPoint] (Answer (str "Rates were held.")))
                     (Demo.world 1799 [] Rejected)
                     Demo.question [] [] [Demo.otherRequest] store_empty _
                     eq_refl _ _ eq_refl _ eq_refl _ in
          conj (proj1 (proj2 P)) (proj2 (proj2 (proj2 P)))).
  - reflexivity.
  - vm_compute. reflexivity.
  - repeat constructor.
  - reflexivity.
Defined.

Lemma degraded_mode_witness :
  processQuery (H := Demo.platform) Demo.degradedService
    (Demo.world 0 [Demo.nearPoint] (Answer (str "unused"))) Demo.question []
    store_empty
  = (Returned {| response := ADVISORY;
                 sources := [];
                 queryHash := Some (fingerprint (H := Demo.platform)
                                      Demo.question []);
                 relevantDocsCount := Some 0 |},
     store_empty).
Proof.
  apply (degraded_mode_short_circuits (H := Demo.platform)). reflexivity.
Defined.

Lemma relevance_gate_witness :
  exists docs st',
    searchSimilarDocuments Demo.service
      (Demo.world 0 [Demo.farPoint; Demo.nearPoint] Rejected)
      Demo.question 5 store_empty
    = (Returned docs, st')
    /\ len docs <= 5
    /\ List.Forall (fun doc => (7 # 10 <= doc_score doc)%Q) docs.
Proof.
  apply search_results_pass_relevance_gate.
  apply reference_world_honours_contract.
Defined.

Lemma article_id_witness :
  exists a1 a2,
    processRSSItem (H := Demo.platform) Demo.web (Demo.item Demo.shortBody)
      (Demo.wire "a") = Some a1
    /\ processRSSItem (H := Demo.platform) Demo.otherWeb
         (Demo.item Demo.shortBody) (Demo.wire "b") = Some a2
    /\ art_content a1 <> art_content a2
    /\ art_id a1 = art_id a2.
Proof.
  eexists. eexists.
  split; [vm_compute; reflexivity|].
  split; [vm_compute; reflexivity|].
  split; [vm_compute; discriminate|].
  refine (proj1 (article_id_is_deterministic (H := Demo.platform)
                   Demo.web Demo.otherWeb
                   (Demo.item Demo.shortBody) (Demo.wire "a") (Demo.wire "b")
                   _ _ _ _)).
  - vm_compute. reflexivity.
  - vm_compute. reflexivity.
Defined.

Lemma content_bound_witness :
  processRSSItem (H := Demo.platform) Demo.web (Demo.item Demo.longBody)
    (Demo.wire "a") = Some Demo.longArticle
  /\ 6000 < len (cleanText (rawContent Demo.web (Demo.item Demo.longBody)))
  /\ art_content Demo.longArticle
     = slice_first 6000 (cleanText (rawContent Demo.web (Demo.item Demo.longBody)))
       ++ str "..."
  /\ len (art_content Demo.longArticle) = 6003.
Proof.
  assert (Hrun : processRSSItem (H := Demo.platform) Demo.web
                   (Demo.item Demo.longBody) (Demo.wire "a")
                 = Some Demo.longArticle)
    by (vm_cast_no_check (@eq_refl _ (Some Demo.longArticle))).
  assert (Hlong : 6000 < len (cleanText (rawContent Demo.web
                                           (Demo.item Demo.longBody))))
    by (vm_cast_no_check (@eq_refl _ Lt)).
  split; [exact Hrun|]. split; [exact Hlong|].
  exact (proj1 (content_is_length_bounded (H := Demo.platform) Demo.web
                  (Demo.item Demo.longBody) (Demo.wire "a") Demo.longArticle
                  Hrun) Hlong).
Defined.

Lemma no_candidates_witness :
  let W := Demo.world 0 [Demo.farPoint] (Answer []) in
  processQuery (H := Demo.platform) Demo.service W Demo.question [] store_empty
  = (Returned {| response := NO_DATA;
                 sources := [];
                 queryHash := Some (fingerprint (H := Demo.platform)
                                      Demo.question []);
                 relevantDocsCount := Some 0 |},
     logged (snd (searchSimilarDocuments Demo.service W Demo.question
                    SEARCH_LIMIT store_empty))
            [EvGenerate (emptyDatabasePrompt Demo.question [])]).
Proof.
  cbv zeta.
  apply (no_candidates_path (H := Demo.platform) Demo.service
           (Demo.world 0 [Demo.farPoint] (Answer [])) Demo.question []
           store_empty _ []).
  - reflexivity.
  - vm_compute. reflexivity.
  - reflexivity.
  - reflexivity.
Defined.

Lemma generation_failure_witness :
  exists st',
    handleMessage (H := Demo.platform) Demo.service
      (Demo.world 0 [Demo.nearPoint] Malformed) Demo.question [] store_empty
    = (Returned {| ans_response := {| response := APOLOGY;
                                      sources := [];
                                      queryHash := None;
                                      relevantDocsCount := None |};
                   ans_cached := false |},
       st')
    /\ cache st' = cache store_empty.
Proof.
  apply (generation_failure_is_answered_with_apology (H := Demo.platform)).
  - reflexivity.
  - intros prompt text. discriminate.
  - reflexivity.
Defined.

Lemma result_count_witness :
  exists r st',
    processQuery (H := Demo.platform) Demo.service
      (Demo.world 0 [Demo.nearPoint] (Answer (str "Rates were held.")))
      Demo.question [] store_empty
    = (Returned r, st')
    /\ relevantDocsCount r = Some 1
    /\ relevantDocsCount r = Some (len (sources r))
    /\ queryHash r = Some (fingerprint (H := Demo.platform) Demo.question []).
Proof.
  eexists. eexists. split; [vm_compute; reflexivity|].
  split; [reflexivity|].
  refine (result_count_matches_sources (H := Demo.platform) Demo.service
            (Demo.world 0 [Demo.nearPoint] (Answer (str "Rates were held.")))
            Demo.question [] store_empty _ _ _).
  vm_compute. reflexivity.
Defined.

End Witnesses.

(* ===================================================================== *)
(** * Facts about sessions, chat history and counters *)
(* ===================================================================== *)

Section RedisFacts.
Import JS Retrieval Redis.
Local Open Scope N_scope.

Lemma list_range_0_nonneg {A} (stop : Z) (l : list A) :
  (0 <= stop)%Z -> list_range 0 stop l = firstn (Z.to_nat (stop + 1)) l.
Proof.
  intros Hstop. unfold list_range. cbv zeta.
  replace (0 <? 0)%Z with false by reflexivity.
  destruct (stop <? 0)%Z eqn:Hneg; [apply Z.ltb_lt in Hneg; lia|].
  destruct (Z.ltb_spec (Z.min (Z.of_nat (length l) - 1) stop) 0) as [Hlt|Hge].
  - destruct l as [|x l]; [now rewrite firstn_nil|]. cbn [length] in Hlt. lia.
  - rewrite skipn_O.
    destruct (Z.le_gt_cases stop (Z.of_nat (length l) - 1)) as [Hin|Hout].
    + rewrite Z.min_r by lia. f_equal. lia.
    + rewrite Z.min_l by lia.
      rewrite !firstn_all2; [reflexivity | lia | lia].
Qed.

Lemma list_range_0_neg {A} (stop : Z) (l : list A) :
  (stop < 0)%Z ->
  list_range 0 stop l = firstn (Z.to_nat (Z.of_nat (length l) + stop + 1)) l.
Proof.
  intros Hstop. unfold list_range. cbv zeta.
  replace (0 <? 0)%Z with false by reflexivity.
  apply Z.ltb_lt in Hstop as Hb. rewrite Hb.
  rewrite Z.min_r by lia.
  destruct (Z.ltb_spec (Z.of_nat (length l) + stop) 0) as [Hlt|Hge].
  - replace (Z.to_nat _) with O by lia. reflexivity.
  - rewrite skipn_O. f_equal. lia.
Qed.

Lemma list_range_0_all {A} (l : list A) : list_range 0 (-1) l = l.
Proof.
  rewrite list_range_0_neg by lia. apply firstn_all2. lia.
Qed.

(** Whatever the stop index, a range from 0 is a prefix of the list. *)
Lemma list_range_0_prefix {A} (stop : Z) (l : list A) :
  exists k, list_range 0 stop l = firstn k l.
Proof.
  destruct (Z.lt_ge_cases stop 0).
  - eexists. now apply list_range_0_neg.
  - eexists. now apply list_range_0_nonneg.
Qed.

Lemma sessionKey_inj (a b : jsstring) : sessionKey a = sessionKey b -> a = b.
Proof. unfold sessionKey. apply app_inv_head. Qed.

Lemma historyKey_inj (a b : jsstring) : historyKey a = historyKey b -> a = b.
Proof. unfold historyKey. apply app_inv_head. Qed.

Lemma sessionKey_not_historyKey (a b : jsstring) : sessionKey a <> historyKey b.
Proof. unfold sessionKey, historyKey. simpl. discriminate. Qed.

Lemma lookup_live_insert_eq (time : N) (key : jsstring) (e : Entry) (db : Db) :
  lookup_live time key (<[ key := e ]> db)
  = if is_live time e then Some e else None.
Proof. unfold lookup_live. now rewrite lookup_insert_eq. Qed.

Lemma lookup_live_insert_ne (time : N) (key key' : jsstring) (e : Entry)
    (db : Db) :
  key' <> key ->
  lookup_live time key (<[ key' := e ]> db) = lookup_live time key db.
Proof. intros Hne. unfold lookup_live. now rewrite lookup_insert_ne. Qed.

Lemma lookup_live_delete_eq (time : N) (key : jsstring) (db : Db) :
  lookup_live time key (delete key db) = None.
Proof. unfold lookup_live. now rewrite lookup_delete_eq. Qed.

Lemma lookup_live_delete_ne (time : N) (key key' : jsstring) (db : Db) :
  key' <> key ->
  lookup_live time key (delete key' db) = lookup_live time key db.
Proof. intros Hne. unfold lookup_live. now rewrite lookup_delete_ne. Qed.

(** Trimming a live, non-empty message list to its newest 100. *)
Lemma cmd_lTrim_newest (env : Env) (key : jsstring) (m : ChatMessage)
    (l : list ChatMessage) (expires : option N) (db : Db) :
  is_live (t_now env) {| e_value := VMessages (m :: l); e_expires := expires |}
  = true ->
  cmd_lTrim env key 0 99
    (<[ key := {| e_value := VMessages (m :: l); e_expires := expires |} ]> db)
  = Some (<[ key := {| e_value := VMessages (firstn 100 (m :: l));
                       e_expires := expires |} ]> db).
Proof.
  intros Hlive. unfold cmd_lTrim. rewrite lookup_live_insert_eq, Hlive.
  cbn [e_value e_expires].
  rewrite list_range_0_nonneg by lia.
  change (Z.to_nat (99 + 1)) with 100%nat. cbn [firstn].
  now rewrite insert_insert_eq.
Qed.

Lemma cmd_expire_live (env : Env) (key : jsstring) (v : Value)
    (expires : option N) (ttl : N) (db : Db) :
  is_live (t_now env) {| e_value := v; e_expires := expires |} = true ->
  cmd_expire env key ttl (<[ key := {| e_value := v; e_expires := expires |} ]> db)
  = <[ key := {| e_value := v; e_expires := Some (t_now env + ttl) |} ]> db.
Proof.
  intros Hlive. unfold cmd_expire. rewrite lookup_live_insert_eq, Hlive.
  cbn [e_value]. now rewrite insert_insert_eq.
Qed.

(** The last [n] of a reversed list are the first [n], reversed. *)
Lemma slice_last_rev {A} (n : N) (l : list A) :
  slice_last n (rev l) = rev (firstn (N.to_nat n) l).
Proof.
  unfold slice_last. rewrite length_rev, skipn_rev. f_equal.
  destruct (Nat.le_gt_cases (N.to_nat n) (length l)) as [Hle|Hgt].
  - f_equal. lia.
  - rewrite !firstn_all2; [reflexivity | lia | lia].
Qed.

(** What [addChatMessage] leaves under the history key. *)
Lemma addChatMessage_stored (env : Env) (sid role content : jsstring)
    (db db' : Db) (m : ChatMessage) :
  addChatMessage env sid role content db = (Returned m, db') ->
  t_up env = true
  /\ m = {| msg_id := str "msg_" ++ t_stamp env;
            msg_timestamp := t_iso env;
            msg_role := role;
            msg_content := content |}
  /\ exists before,
       cmd_lRange env (historyKey sid) 0 (-1) db = Some before
       /\ db' = <[ historyKey sid :=
                     {| e_value := VMessages (firstn 100 (m :: before));
                        e_expires := Some (t_now env + SESSION_TTL) |} ]> db.
Proof.
  unfold addChatMessage. destruct (t_up env); [|discriminate].
  unfold cmd_lPush, cmd_lRange.
  destruct (lookup_live (t_now env) (historyKey sid) db) as [e|] eqn:Hlive.
  - destruct (e_value e) as [s|l|n] eqn:Hval; try discriminate.
    assert (Hl : is_live (t_now env) e = true).
    { unfold lookup_live in Hlive. destruct (db !! historyKey sid); [|discriminate].
      destruct (is_live (t_now env) e0) eqn:E; [|discriminate]. congruence. }
    rewrite cmd_lTrim_newest by exact Hl.
    rewrite cmd_expire_live by exact Hl.
    intros [= <- <-]. split; [reflexivity|]. split; [reflexivity|].
    exists l. split; [now rewrite list_range_0_all | reflexivity].
  - rewrite cmd_lTrim_newest by reflexivity.
    rewrite cmd_expire_live by reflexivity.
    intros [= <- <-]. split; [reflexivity|]. split; [reflexivity|].
    exists []. split; reflexivity.
Qed.

(** [getChatHistory] read off the stored list. *)
Lemma getChatHistory_stored (env : Env) (sid : jsstring) (limit : Z)
    (l : list ChatMessage) (expires : option N) (db : Db) :
  t_up env = true ->
  is_live (t_now env) {| e_value := VMessages l; e_expires := expires |} = true ->
  getChatHistory env sid limit
    (<[ historyKey sid := {| e_value := VMessages l; e_expires := expires |} ]> db)
  = rev (list_range 0 (limit - 1) l).
Proof.
  intros Hup Hlive. unfold getChatHistory, cmd_lRange.
  now rewrite Hup, lookup_live_insert_eq, Hlive.
Qed.

Lemma getChatHistory_length (env : Env) (sid : jsstring) (limit : Z) (db : Db) :
  (1 <= limit)%Z ->
  (length (getChatHistory env sid limit db) <= Z.to_nat limit)%nat.
Proof.
  intros Hlimit. unfold getChatHistory, cmd_lRange.
  destruct (t_up env); [|simpl; lia].
  destruct (lookup_live _ _ db) as [e|]; [|simpl; lia].
  destruct (e_value e) as [s|l|n]; try (simpl; lia).
  rewrite length_rev, list_range_0_nonneg by lia.
  rewrite length_firstn. lia.
Qed.

(** X1: the stored history of a session never exceeds 100 messages: after
    any successful [addChatMessage], whatever was stored before and whatever
    limit is asked for (0 and negative ones included), [getChatHistory]
    returns at most 100 messages, and at most [limit] of them for a
    positive limit. *)
Theorem chat_history_is_bounded (env env' : Env) (sid role content : jsstring)
    (db db' : Db) (m : ChatMessage) (limit : Z) :
  addChatMessage env sid role content db = (Returned m, db') ->
  (length (getChatHistory env' sid limit db') <= 100)%nat
  /\ ((1 <= limit)%Z ->
      (length (getChatHistory env' sid limit db') <= Z.to_nat limit)%nat).
Proof.
  intros Hadd. split; [|apply getChatHistory_length].
  destruct (addChatMessage_stored _ _ _ _ _ _ _ Hadd)
    as (_ & _ & before & _ & ->).
  unfold getChatHistory, cmd_lRange.
  destruct (t_up env'); [|simpl; lia].
  rewrite lookup_live_insert_eq.
  destruct (is_live _ _); [|simpl; lia]. cbn [e_value].
  destruct (list_range_0_prefix (limit - 1) (firstn 100 (m :: before)))
    as [k ->].
  rewrite length_rev, !length_firstn. lia.
Qed.

(** X2: reading after writing.  Right after a successful [addChatMessage],
    [getChatHistory] with a limit between 1 and 100 returns the previous
    history's last [limit - 1] messages, oldest first, followed by the new
    message. *)
Theorem history_after_add (env : Env) (sid role content : jsstring)
    (db db' : Db) (m : ChatMessage) (limit : Z) :
  addChatMessage env sid role content db = (Returned m, db') ->
  (1 <= limit <= 100)%Z ->
  getChatHistory env sid limit db'
  = slice_last (Z.to_N (limit - 1)) (getChatHistory env sid 0 db) ++ [m].
Proof.
  intros Hadd Hlimit.
  destruct (addChatMessage_stored _ _ _ _ _ _ _ Hadd)
    as (Hup & _ & before & Hbefore & ->).
  rewrite getChatHistory_stored;
    [|exact Hup | unfold is_live; cbn [e_expires]; apply N.ltb_lt;
                  unfold SESSION_TTL; lia].
  unfold getChatHistory. rewrite Hup. change (0 - 1)%Z with (-1)%Z.
  rewrite Hbefore.
  rewrite list_range_0_nonneg by lia.
  replace (Z.to_nat (limit - 1 + 1)) with (S (Z.to_nat (limit - 1))) by lia.
  rewrite firstn_firstn. replace (Init.Nat.min _ 100) with (S (Z.to_nat (limit - 1))) by lia.
  cbn [firstn rev]. f_equal.
  rewrite slice_last_rev. now rewrite Z_N_nat.
Qed.

(** X3: a limit of 0 does not give the empty history but the whole stored
    one ([LRANGE 0 -1]); every other limit, negative ones included, gives
    its most recent part. *)
Theorem history_limit_zero_is_everything (env : Env) (sid : jsstring)
    (limit : Z) (db : Db) :
  exists older,
    getChatHistory env sid 0 db = older ++ getChatHistory env sid limit db.
Proof.
  unfold getChatHistory, cmd_lRange.
  destruct (t_up env); [|now exists []].
  destruct (lookup_live _ _ db) as [e|]; [|now exists []].
  destruct (e_value e) as [s|l|n]; try (now exists []).
  change (0 - 1)%Z with (-1)%Z. rewrite list_range_0_all.
  destruct (list_range_0_prefix (limit - 1) l) as [k ->].
  exists (rev (skipn k l)).
  rewrite <- rev_app_distr. now rewrite firstn_skipn.
Qed.

(** X4: after [deleteSession] neither the session nor its history can be read
    any more, at any later time, and the keys of every other session are as
    they were. *)
Theorem deleteSession_forgets_session (env env' : Env) (sid : jsstring)
    (limit : Z) (db db' : Db) :
  deleteSession env sid db = (true, db') ->
  getSession env' sid db' = (None, db')
  /\ getChatHistory env' sid limit db' = []
  /\ (forall other, other <> sid ->
        db' !! sessionKey other = db !! sessionKey other
        /\ db' !! historyKey other = db !! historyKey other).
Proof.
  unfold deleteSession. destruct (t_up env); [|discriminate].
  intros [= <-]. unfold cmd_del. repeat split.
  - unfold getSession. destruct (t_up env'); [|reflexivity].
    rewrite lookup_live_delete_ne by (apply not_eq_sym, sessionKey_not_historyKey).
    now rewrite lookup_live_delete_eq.
  - unfold getChatHistory, cmd_lRange. destruct (t_up env'); [|reflexivity].
    now rewrite lookup_live_delete_eq.
  - rewrite lookup_delete_ne by (apply not_eq_sym, sessionKey_not_historyKey).
    rewrite lookup_delete_ne; [reflexivity|].
    intros Heq. apply sessionKey_inj in Heq. congruence.
  - rewrite lookup_delete_ne by (intros Heq; apply historyKey_inj in Heq; congruence).
    rewrite lookup_delete_ne; [reflexivity|]. apply sessionKey_not_historyKey.
Qed.

(** What a successful [getSession] stores. *)
Lemma getSession_Some (env : Env) (sid : jsstring) (db db' : Db) (s : Session) :
  getSession env sid db = (Some s, db') ->
  ses_lastActivity s = t_iso env
  /\ db' = <[ sessionKey sid :=
                {| e_value := VSession s;
                   e_expires := Some (t_now env + SESSION_TTL) |} ]> db.
Proof.
  unfold getSession. destruct (t_up env); [|discriminate].
  destruct (lookup_live _ _ db) as [e|]; [|discriminate].
  destruct (e_value e); try discriminate.
  intros [= <- <-]. split; reflexivity.
Qed.

Lemma getSession_stored (env : Env) (sid : jsstring) (s : Session)
    (expires : N) (db : Db) :
  t_up env = true ->
  getSession env sid
    (<[ sessionKey sid := {| e_value := VSession s;
                             e_expires := Some expires |} ]> db)
  = if t_now env <? expires then
      let s' := {| ses_id := ses_id s;
                   ses_createdAt := ses_createdAt s;
                   ses_lastActivity := t_iso env;
                   ses_data := ses_data s |} in
      (Some s',
       <[ sessionKey sid := {| e_value := VSession s';
                               e_expires := Some (t_now env + SESSION_TTL) |} ]> db)
    else (None, <[ sessionKey sid := {| e_value := VSession s;
                                        e_expires := Some expires |} ]> db).
Proof.
  intros Hup. unfold getSession. rewrite Hup, lookup_live_insert_eq.
  unfold is_live. cbn [e_expires].
  destruct (t_now env <? expires); [|reflexivity].
  cbn [e_value]. unfold cmd_setEx. now rewrite insert_insert_eq.
Qed.

(** X5: reads keep a session alive: after one successful [getSession], any read
    less than 24 hours later finds the session again, with the same id,
    creation time and data, and stamps it with the time of that read. *)
Theorem session_is_kept_alive_by_reads (env env' : Env) (sid : jsstring)
    (db db' : Db) (s : Session) :
  getSession env sid db = (Some s, db') ->
  t_up env' = true ->
  t_now env' < t_now env + 86400 ->
  exists s' db'',
    getSession env' sid db' = (Some s', db'')
    /\ ses_id s' = ses_id s
    /\ ses_createdAt s' = ses_createdAt s
    /\ ses_data s' = ses_data s
    /\ ses_lastActivity s' = t_iso env'.
Proof.
  intros Hget Hup Hsoon.
  destruct (getSession_Some _ _ _ _ _ Hget) as [_ ->].
  rewrite getSession_stored by exact Hup.
  apply N.ltb_lt in Hsoon. unfold SESSION_TTL.
  change (24 * 60 * 60) with 86400. rewrite Hsoon.
  cbv zeta. eexists. eexists. split; [reflexivity|]. repeat split.
Qed.

(** X6: a session lives 24 hours from its creation when nothing reads it: until
    then [getSession] returns it under the id it was created with, from then
    on it returns [null] and changes nothing. *)
Theorem created_session_lifetime (env env' : Env) (sid : jsstring)
    (data : SessionData) (db db' : Db) (s : Session) :
  createSession env sid data db = (Returned s, db') ->
  t_up env' = true ->
  (t_now env' < t_now env + 86400 ->
     exists s' db'', getSession env' sid db' = (Some s', db'')
                     /\ ses_id s' = sid
                     /\ ses_createdAt s' = t_iso env
                     /\ ses_data s' = data)
  /\ (t_now env + 86400 <= t_now env' -> getSession env' sid db' = (None, db')).
Proof.
  unfold createSession. destruct (t_up env); [|discriminate].
  intros [= <- <-] Hup. unfold cmd_setEx.
  rewrite getSession_stored by exact Hup.
  unfold SESSION_TTL. change (24 * 60 * 60) with 86400. split.
  - intros Hsoon. apply N.ltb_lt in Hsoon. rewrite Hsoon. cbv zeta.
    eexists. eexists. split; [reflexivity|]. repeat split.
  - intros Hlate. apply N.ltb_ge in Hlate. now rewrite Hlate.
Qed.

(* --------------------------------------------------------------------- *)
(** ** Counters *)

Lemma incrementCounter_running (env : Env) (key : jsstring) (ttl count deadline : N)
    (db : Db) :
  db !! key = Some {| e_value := VCounter count; e_expires := Some deadline |} ->
  t_up env = true -> t_now env < deadline -> 1 <= count ->
  incrementCounter env key ttl db
  = (count + 1, <[ key := {| e_value := VCounter (count + 1);
                             e_expires := Some deadline |} ]> db).
Proof.
  intros Hdb Hup Hnow Hcount.
  unfold incrementCounter, cmd_incr, lookup_live.
  rewrite Hup, Hdb. unfold is_live. simpl.
  apply N.ltb_lt in Hnow. rewrite Hnow.
  cbv beta iota delta [e_value e_expires].
  destruct (N.eqb_spec (count + 1) 1) as [Heq|_]; [lia | reflexivity].
Qed.

Lemma incrementCounter_first (env : Env) (key : jsstring) (ttl : N) (db : Db) :
  lookup_live (t_now env) key db = None ->
  t_up env = true ->
  incrementCounter env key ttl db
  = (1, <[ key := {| e_value := VCounter 1;
                     e_expires := Some (t_now env + ttl) |} ]> db).
Proof.
  intros Hfresh Hup. unfold incrementCounter, cmd_incr.
  rewrite Hup, Hfresh. rewrite N.eqb_refl.
  now rewrite cmd_expire_live by reflexivity.
Qed.

Lemma incrementAll_running (envs : list Env) (key : jsstring) (ttl : N) :
  forall (count deadline : N) (db : Db),
  db !! key = Some {| e_value := VCounter count; e_expires := Some deadline |} ->
  1 <= count ->
  all_up_before deadline envs ->
  exists db',
    incrementAll envs key ttl db
    = (List.map (fun i => count + N.of_nat i) (seq 1 (length envs)), db')
    /\ db' !! key
       = Some {| e_value := VCounter (count + N.of_nat (length envs));
                 e_expires := Some deadline |}.
Proof.
  induction envs as [|env rest IH]; intros count deadline db Hdb Hcount Hall.
  - exists db. simpl. rewrite N.add_0_r. split; [reflexivity | exact Hdb].
  - apply List.Forall_cons_iff in Hall as [[Hup Hnow] Hrest].
    cbn [incrementAll].
    rewrite (incrementCounter_running env key ttl count deadline db)
      by assumption.
    assert (Hnext : 1 <= count + 1) by lia.
    destruct (IH (count + 1) deadline _
                 (lookup_insert_eq db key
                    {| e_value := VCounter (count + 1);
                       e_expires := Some deadline |})
                 Hnext Hrest)
      as (db' & Hrun & Hfinal).
    rewrite Hrun. exists db'. split.
    + cbn [length seq List.map]. f_equal. f_equal; try lia.
      rewrite <- (List.seq_shift (length rest) 1), List.map_map.
      apply List.map_ext. intros i. lia.
    + replace (count + N.of_nat (length (env :: rest)))
        with (count + 1 + N.of_nat (length rest)) by (cbn [length]; lia).
      exact Hfinal.
Qed.

(** X7: [incrementCounter] counts in a fixed window: starting from a key that is
    not there, [n] increments made before the first one's [ttl] has run out
    return 1, 2, ..., [n], and the key still expires [ttl] after the first
    increment: later increments do not push the deadline back. *)
Theorem counter_window_is_fixed (first : Env) (later : list Env)
    (key : jsstring) (ttl : N) (db : Db) :
  lookup_live (t_now first) key db = None ->
  t_up first = true ->
  all_up_before (t_now first + ttl) later ->
  exists db',
    incrementAll (first :: later) key ttl db
    = (List.map N.of_nat (seq 1 (S (length later))), db')
    /\ db' !! key
       = Some {| e_value := VCounter (N.of_nat (S (length later)));
                 e_expires := Some (t_now first + ttl) |}.
Proof.
  intros Hfresh Hup Hlater.
  cbn [incrementAll]. rewrite incrementCounter_first by assumption.
  assert (Hone : 1 <= 1) by lia.
  destruct (incrementAll_running later key ttl 1 (t_now first + ttl) _
              (lookup_insert_eq db key
                 {| e_value := VCounter 1;
                    e_expires := Some (t_now first + ttl) |})
              Hone Hlater)
    as (db' & Hrun & Hfinal).
  rewrite Hrun. exists db'. split.
  - cbn [seq List.map]. f_equal. f_equal; try lia.
    rewrite <- (List.seq_shift (length later) 1), !List.map_map.
    apply List.map_ext. intros i. lia.
  - replace (N.of_nat (S (length later)))
      with (1 + N.of_nat (length later)) by lia.
    exact Hfinal.
Qed.

End RedisFacts.

(* ===================================================================== *)
(** * Facts about storage in the collection *)
(* ===================================================================== *)

Section CollectionFacts.
Import JS Ingestion Retrieval Collection.
Local Open Scope N_scope.
Context `{Platform}.
Variables (svc : RAGService) (W : World).

Lemma generateEmbedding_run (text : jsstring) :
  exists e : Error,
    forall st,
      generateEmbedding svc W text st
      = (match embeddingOf svc W text with
         | Some v => Returned v
         | None => Thrown e
         end, logged st (embedCalls svc text)).
Proof.
  unfold generateEmbedding, embeddingOf, embedCalls, tryCatch, awaitReply,
    bind, emit, ret, throw.
  destruct (truthy (jinaApiKey svc)).
  - destruct (jina_embed W text) as [| |v].
    + exists RequestFailed. reflexivity.
    + exists JinaInvalidResponse. reflexivity.
    + exists RequestFailed. reflexivity.
  - exists JinaKeyMissing. intros st. now rewrite logged_nil.
Qed.

Lemma embeddingOf_calls (text : jsstring) (v : Vector) :
  embeddingOf svc W text = Some v -> embedCalls svc text = [EvEmbed text].
Proof.
  unfold embeddingOf, embedCalls.
  destruct (truthy (jinaApiKey svc)); [reflexivity | discriminate].
Qed.

Lemma generations_embedCalls (text : jsstring) :
  generations (embedCalls svc text) = 0%nat.
Proof. unfold embedCalls. now destruct (truthy (jinaApiKey svc)). Qed.

Lemma embedBatch_run (batch : list Article) :
  exists calls, forall st,
    embedBatch svc W batch st = (Returned (pointsOf svc W batch), logged st calls).
Proof.
  induction batch as [|doc rest [calls IH]].
  - exists []. intros st. simpl. unfold ret. now rewrite logged_nil.
  - destruct (generateEmbedding_run (art_content doc)) as (e & Hrun).
    exists (embedCalls svc (art_content doc) ++ calls). intros st.
    cbn [embedBatch]. unfold pointsOf. cbn [omap list_omap].
    fold (pointsOf svc W rest).
    unfold bind at 1, tryCatch, bind at 1. rewrite Hrun.
    destruct (embeddingOf svc W (art_content doc)) as [v|];
      unfold ret at 1; unfold bind at 1; rewrite IH; unfold ret;
      now rewrite logged_logged.
Qed.

Lemma pointsOf_app (l1 l2 : list Article) :
  pointsOf svc W (l1 ++ l2) = pointsOf svc W l1 ++ pointsOf svc W l2.
Proof. unfold pointsOf. apply omap_app. Qed.

Lemma written_app (b1 b2 : list Point) (m : gmap jsstring Point) :
  written (b1 ++ b2) m = written b2 (written b1 m).
Proof. unfold written. apply fold_left_app. Qed.

Lemma dom_written (batch : list Point) :
  forall m : gmap jsstring Point,
  dom (written batch m) = dom m ∪ list_to_set (List.map pt_id batch).
Proof.
  induction batch as [|p rest IH]; intros m.
  - unfold written. simpl. now rewrite (right_id_L ∅ (∪)).
  - change (written (p :: rest) m) with (written rest (<[ pt_id p := p ]> m)).
    rewrite IH, dom_insert_L. simpl.
    rewrite (assoc_L (∪)). f_equal. apply (comm_L (∪)).
Qed.

(** One round of the outer loop when the store accepts writes. *)
Lemma upsert_accepts (batch : list Point) (st : Store) :
  qdrant_upsert_ok W = true ->
  exists st',
    (if 0 <? len batch then upsert W batch else ret tt) st = (Returned tt, st')
    /\ points st' = written batch (points st)
    /\ cache st' = cache st.
Proof.
  intros Hok. destruct (0 <? len batch) eqn:Hany.
  - unfold upsert, bind, emit. rewrite Hok.
    eexists. split; [reflexivity|]. split; reflexivity.
  - unfold ret. exists st. split; [reflexivity|]. split; [|reflexivity].
    destruct batch; [reflexivity | discriminate].
Qed.

Lemma storeBatches_accepts (fuel : nat) :
  qdrant_upsert_ok W = true ->
  forall (documents : list Article) (st : Store),
  (length documents <= fuel)%nat ->
  exists st',
    storeBatches svc W fuel documents st
    = (Returned (List.map pt_id (pointsOf svc W documents)), st')
    /\ points st' = written (pointsOf svc W documents) (points st)
    /\ cache st' = cache st.
Proof.
  intros Hok. induction fuel as [|fuel IH]; intros documents st Hfuel.
  - destruct documents; [|simpl in Hfuel; lia].
    exists st. repeat split.
  - destruct documents as [|doc rest].
    + exists st. repeat split.
    + cbn [storeBatches].
      destruct (embedBatch_run (slice_first BATCH_SIZE (doc :: rest)))
        as (calls & Hembed).
      unfold bind at 1. rewrite Hembed.
      set (batch := pointsOf svc W (slice_first BATCH_SIZE (doc :: rest))).
      destruct (upsert_accepts batch (logged st calls) Hok)
        as (st1 & Hup & Hpts1 & Hcache1).
      unfold bind at 1. rewrite Hup.
      destruct (IH (skipn (N.to_nat BATCH_SIZE) (doc :: rest)) st1)
        as (st2 & Hrest & Hpts2 & Hcache2).
      { rewrite length_skipn. simpl in *. lia. }
      unfold bind. rewrite Hrest. unfold ret.
      exists st2.
      assert (Hsplit : pointsOf svc W (doc :: rest)
                       = batch ++ pointsOf svc W (skipn (N.to_nat BATCH_SIZE)
                                                        (doc :: rest))).
      { unfold batch, slice_first. rewrite <- pointsOf_app.
        now rewrite firstn_skipn. }
      rewrite Hsplit. repeat split.
      * now rewrite List.map_app.
      * rewrite Hpts2, Hpts1, written_app. reflexivity.
      * now rewrite Hcache2, Hcache1.
Qed.

(** X8: when the collection accepts writes, [storeBatchDocuments] behaves as
    one pass over the documents, whatever their number: it returns the ids
    of exactly the documents whose embedding succeeded, in order (a failed
    embedding skips that document only), each of those documents' points is
    written under its id, the ids in the collection are the old ones plus
    the returned ones, and the query cache is untouched. *)
Theorem storeBatchDocuments_stores_embeddable (documents : list Article)
    (st : Store) :
  qdrant_upsert_ok W = true ->
  exists st',
    storeBatchDocuments svc W documents st
    = (Returned (List.map pt_id (pointsOf svc W documents)), st')
    /\ points st' = written (pointsOf svc W documents) (points st)
    /\ dom (points st')
       = dom (points st) ∪ list_to_set (List.map pt_id (pointsOf svc W documents))
    /\ cache st' = cache st.
Proof.
  intros Hok.
  destruct (storeBatches_accepts (length documents) Hok documents st (le_n _))
    as (st' & Hrun & Hpts & Hcache).
  exists st'. unfold storeBatchDocuments, tryCatch. rewrite Hrun.
  split; [reflexivity|]. split; [exact Hpts|]. split; [|exact Hcache].
  rewrite Hpts. apply dom_written.
Qed.

(** One round of the outer loop when the store refuses writes. *)
Lemma storeBatches_refused (fuel : nat) :
  qdrant_upsert_ok W = false ->
  forall (documents : list Article) (st : Store),
  (length documents <= fuel)%nat ->
  exists o st',
    storeBatches svc W fuel documents st = (o, st')
    /\ points st' = points st
    /\ cache st' = cache st
    /\ (pointsOf svc W documents = [] -> o = Returned [])
    /\ (pointsOf svc W documents <> [] -> o = Thrown RequestFailed).
Proof.
  intros Hfail. induction fuel as [|fuel IH]; intros documents st Hfuel.
  - destruct documents; [|simpl in Hfuel; lia].
    exists (Returned []), st. repeat split. intros Hne. now elim Hne.
  - destruct documents as [|doc rest].
    + exists (Returned []), st. repeat split. intros Hne. now elim Hne.
    + cbn [storeBatches].
      destruct (embedBatch_run (slice_first BATCH_SIZE (doc :: rest)))
        as (calls & Hembed).
      unfold bind at 1. rewrite Hembed.
      set (batch := pointsOf svc W (slice_first BATCH_SIZE (doc :: rest))).
      assert (Hsplit : pointsOf svc W (doc :: rest)
                       = batch ++ pointsOf svc W (skipn (N.to_nat BATCH_SIZE)
                                                        (doc :: rest))).
      { unfold batch, slice_first. rewrite <- pointsOf_app.
        now rewrite firstn_skipn. }
      rewrite Hsplit.
      destruct (IH (skipn (N.to_nat BATCH_SIZE) (doc :: rest))
                   (logged st calls))
        as (o & st2 & Hrest & Hpts & Hcache & Hnone & Hsome).
      { rewrite length_skipn. simpl in *. lia. }
      destruct batch as [|p ps].
      * change (0 <? len (@nil Point)) with false. cbv iota.
        unfold bind at 1, ret at 1.
        unfold bind. rewrite Hrest.
        change ([] ++ ?l) with l.
        destruct (pointsOf svc W (skipn (N.to_nat BATCH_SIZE) (doc :: rest)))
          as [|q qs].
        -- rewrite (Hnone eq_refl). unfold ret. eexists. eexists.
           split; [reflexivity|]. split; [assumption|]. split; [assumption|].
           split; [reflexivity | intros Hne; now elim Hne].
        -- rewrite Hsome by discriminate. eexists. eexists.
           split; [reflexivity|]. split; [assumption|]. split; [assumption|].
           split; [intros Hnil; discriminate Hnil | reflexivity].
      * replace (0 <? len (p :: ps)) with true
          by (symmetry; apply N.ltb_lt; unfold len; simpl; lia).
        unfold bind at 1, upsert, bind, emit, throw. rewrite Hfail.
        eexists. eexists. split; [reflexivity|].
        split; [reflexivity|]. split; [reflexivity|].
        split; [intros Hnil; discriminate Hnil | reflexivity].
Qed.

(** X9: when the collection refuses writes, nothing is stored: with at least
    one embeddable document [storeBatchDocuments] throws, with none it
    returns the empty list; collection and cache are as before. *)
Theorem storeBatchDocuments_refused (documents : list Article) (st : Store) :
  qdrant_upsert_ok W = false ->
  exists o st',
    storeBatchDocuments svc W documents st = (o, st')
    /\ points st' = points st
    /\ cache st' = cache st
    /\ (pointsOf svc W documents = [] -> o = Returned [])
    /\ (pointsOf svc W documents <> [] -> exists e, o = Thrown e).
Proof.
  intros Hfail.
  destruct (storeBatches_refused (length documents) Hfail documents st (le_n _))
    as (o & st' & Hrun & Hpts & Hcache & Hnone & Hsome).
  unfold storeBatchDocuments, tryCatch. rewrite Hrun.
  destruct (pointsOf svc W documents) as [|p ps] eqn:Hp.
  - rewrite (Hnone eq_refl). exists (Returned []), st'.
    repeat split; try assumption. intros Hne. now elim Hne.
  - rewrite Hsome by discriminate. unfold throw.
    exists (Thrown RequestFailed), st'.
    repeat split; try assumption; [discriminate | eauto].
Qed.

(** X10: [storeDocument], then a look at the collection: on success the point
    under the document's id carries the document's content and the
    embedding of that content; when the embedding or the upsert fails the
    call throws and the collection is as before. *)
Theorem storeDocument_then_lookup (document : Article) (st : Store) :
  exists o st',
    storeDocument svc W document st = (o, st')
    /\ cache st' = cache st
    /\ match embeddingOf svc W (art_content document), qdrant_upsert_ok W with
       | Some v, true =>
           o = Returned true
           /\ points st' !! art_id document = Some (toPoint W document v)
           /\ pl_content (pt_payload (toPoint W document v))
              = art_content document
       | _, _ => (exists e, o = Thrown e) /\ points st' = points st
       end.
Proof.
  destruct (generateEmbedding_run (art_content document)) as (e & Hrun).
  unfold storeDocument, tryCatch, bind at 1. rewrite Hrun.
  destruct (embeddingOf svc W (art_content document)) as [v|].
  - unfold upsert, bind, emit, ret, throw.
    destruct (qdrant_upsert_ok W).
    + eexists. eexists. split; [reflexivity|]. split; [reflexivity|].
      split; [reflexivity|]. split; [|reflexivity].
      unfold upsertPoints. simpl. apply lookup_insert_eq.
    + eexists. eexists. split; [reflexivity|]. split; [reflexivity|].
      split; [eauto | reflexivity].
  - unfold throw. eexists. eexists. split; [reflexivity|].
    split; [reflexivity|]. split; [eauto | reflexivity].
Qed.

End CollectionFacts.

(* ===================================================================== *)
(** * The query pipeline and the handler, path by path *)
(* ===================================================================== *)

Section PipelinePaths.
Import JS Ingestion Retrieval Collection.
Local Open Scope N_scope.
Context `{Platform}.

(** What a search does when the service is not degraded. *)
Lemma searchSimilarDocuments_run (svc : RAGService) (W : World)
    (query : jsstring) (limit : N) (st : Store) :
  isQdrantAvailable svc = true ->
  searchSimilarDocuments svc W query limit st
  = match embeddingOf svc W query with
    | None => (Returned [], logged st (embedCalls svc query))
    | Some v =>
        (Returned match qdrant_search W v limit SCORE_THRESHOLD with
                  | Some hits => List.map toDoc hits
                  | None => []
                  end,
         logged st [EvEmbed query; EvSearch v limit SCORE_THRESHOLD])
    end.
Proof.
  intros Hup. unfold searchSimilarDocuments. rewrite Hup. cbn [negb].
  destruct (generateEmbedding_run svc W query) as (e & Hrun).
  unfold tryCatch, bind at 1. rewrite Hrun.
  destruct (embeddingOf svc W query) as [v|] eqn:Hv.
  - rewrite (embeddingOf_calls svc W query v Hv).
    unfold bind, emit, ret, throw.
    destruct (qdrant_search W v limit SCORE_THRESHOLD);
      now rewrite logged_logged.
  - reflexivity.
Qed.

(** X11: a failed search is indistinguishable from an empty collection: when the
    embedding of the query cannot be had, or the vector store rejects the
    search, [processQuery] does not throw; it asks the generation provider
    with the empty-database prompt and returns that text with no sources
    and a count of 0. *)
Theorem search_failure_is_answered_as_empty_database (svc : RAGService)
    (W : World) (query : jsstring) (chatHistory : list ChatMessage)
    (st : Store) (text : jsstring) :
  isQdrantAvailable svc = true ->
  (embeddingOf svc W query = None
   \/ exists v, embeddingOf svc W query = Some v
                /\ qdrant_search W v SEARCH_LIMIT SCORE_THRESHOLD = None) ->
  truthy (geminiApiKey svc) = true ->
  gemini_generate W (emptyDatabasePrompt query chatHistory) = Answer text ->
  exists calls,
    generations calls = 0%nat
    /\ processQuery svc W query chatHistory st
       = (Returned {| response := match text with [] => NO_DATA | _ => text end;
                      sources := [];
                      queryHash := Some (fingerprint query chatHistory);
                      relevantDocsCount := Some 0 |},
          logged st (calls ++ [EvGenerate (emptyDatabasePrompt query chatHistory)])).
Proof.
  intros Hup Hfail Hkey Htext.
  assert (Hsearch : exists calls, generations calls = 0%nat
            /\ searchSimilarDocuments svc W query SEARCH_LIMIT st
               = (Returned [], logged st calls)).
  { rewrite (searchSimilarDocuments_run svc W query SEARCH_LIMIT st Hup).
    destruct Hfail as [Hnone | (v & Hv & Hrejected)].
    - rewrite Hnone. exists (embedCalls svc query).
      split; [apply generations_embedCalls | reflexivity].
    - rewrite Hv, Hrejected. eexists. split; [|reflexivity]. reflexivity. }
  destruct Hsearch as (calls & Hgen & Hsearch).
  exists calls. split; [exact Hgen|].
  unfold processQuery, tryCatch. rewrite Hup. cbn [negb].
  unfold bind at 1. rewrite Hsearch.
  change (len (@nil Doc) =? 0) with true. cbv beta iota.
  unfold bind.
  rewrite (generateResponse_answer svc W query [] chatHistory text _ Hkey Htext).
  unfold ret. rewrite logged_logged.
  destruct text; reflexivity.
Qed.

(** X12: the grounded path in full: with the hits the vector store returns for
    the query's embedding, [processQuery] makes exactly three provider
    calls, in the order embed, search (limit 5, threshold 0.7), generate
    (the grounded prompt over the hits), and returns the generated text
    unchanged together with one source per hit, in retrieval order. *)
Theorem grounded_answer_cites_hits_in_order (svc : RAGService) (W : World)
    (query : jsstring) (chatHistory : list ChatMessage) (st : Store)
    (v : Vector) (hits : list ScoredPoint) (text : jsstring) :
  isQdrantAvailable svc = true ->
  embeddingOf svc W query = Some v ->
  qdrant_search W v SEARCH_LIMIT SCORE_THRESHOLD = Some hits ->
  hits <> [] ->
  truthy (geminiApiKey svc) = true ->
  gemini_generate W (groundedPrompt query (List.map toDoc hits) chatHistory)
  = Answer text ->
  processQuery svc W query chatHistory st
  = (Returned {| response := text;
                 sources := List.map (fun hit => toSourceRef (toDoc hit)) hits;
                 queryHash := Some (fingerprint query chatHistory);
                 relevantDocsCount := Some (len hits) |},
     logged st [EvEmbed query;
                EvSearch v 5 (7 # 10)%Q;
                EvGenerate (groundedPrompt query (List.map toDoc hits)
                                           chatHistory)]).
Proof.
  intros Hup Hv Hhits Hne Hkey Htext.
  unfold processQuery, tryCatch. rewrite Hup. cbn [negb].
  unfold bind at 1.
  rewrite (searchSimilarDocuments_run svc W query SEARCH_LIMIT st Hup).
  rewrite Hv, Hhits.
  assert (Hlen : (len (List.map toDoc hits) =? 0) = false).
  { destruct hits; [now elim Hne|]. reflexivity. }
  rewrite Hlen.
  assert (Hprompt : buildPrompt query (List.map toDoc hits) chatHistory
                    = groundedPrompt query (List.map toDoc hits) chatHistory).
  { unfold buildPrompt. destruct hits; [now elim Hne|]. reflexivity. }
  unfold bind.
  rewrite (generateResponse_answer svc W query (List.map toDoc hits)
             chatHistory text _ Hkey); [|now rewrite Hprompt].
  unfold ret. rewrite logged_logged, Hprompt. cbn [gen_response gen_sources].
  unfold len. rewrite List.length_map, List.map_map. reflexivity.
Qed.

Lemma processQuery_degraded (svc : RAGService) (W : World)
    (query : jsstring) (chatHistory : list ChatMessage) (st : Store) :
  isQdrantAvailable svc = false ->
  processQuery svc W query chatHistory st
  = (Returned {| response := ADVISORY;
                 sources := [];
                 queryHash := Some (fingerprint query chatHistory);
                 relevantDocsCount := Some 0 |}, st).
Proof.
  intros Hdown. unfold processQuery, tryCatch. now rewrite Hdown.
Qed.

Lemma fingerprint_tail (message : jsstring) (h1 h2 : list ChatMessage) :
  slice_last 3 h1 = slice_last 3 h2 ->
  fingerprint message h1 = fingerprint message h2.
Proof. intros Htail. unfold fingerprint. now rewrite Htail. Qed.

(** What a first answer leaves in the cache when the write goes through. *)
Lemma handleMessage_caches (svc : RAGService) (W : World)
    (message : jsstring) (chatHistory : list ChatMessage) (st : Store)
    (r : QueryResult) :
  lookupCached W (fingerprint message chatHistory) st = None ->
  fst (processQuery svc W message chatHistory st) = Returned r ->
  redis_set_ok W = true ->
  fst (handleMessage svc W message chatHistory st)
  = Returned {| ans_response := r; ans_cached := false |}
  /\ cache (snd (handleMessage svc W message chatHistory st))
       !! cacheKey (fingerprint message chatHistory)
     = Some {| entry_value := r; entry_expires := now W + CACHE_TTL |}.
Proof.
  intros Hmiss Hr Hset.
  destruct (handleMessage_cases svc W message chatHistory st)
    as [(cached & Hhit & _) | (_ & calls & _ & [(r' & Hr' & Hrun) | (e & He & _)])].
  - rewrite Hmiss in Hhit. discriminate.
  - rewrite Hr in Hr'. injection Hr' as <-.
    rewrite Hrun, Hset. split; [reflexivity|].
    cbn [snd cache redis_setEx]. apply lookup_insert_eq.
  - rewrite Hr in He. discriminate.
Qed.

(** X13: the advisory of the degraded mode is cached like any other answer: once
    a degraded service has answered a message, the same message (with the
    same last three history entries) gets the advisory from the cache for
    the next 30 minutes, whatever service handles it, a recovered one
    included, and no provider is asked. *)
Theorem degraded_advisory_outlives_recovery (svc svc' : RAGService)
    (W1 W2 : World) (message : jsstring) (h1 h2 : list ChatMessage)
    (st0 : Store) :
  isQdrantAvailable svc = false ->
  slice_last 3 h1 = slice_last 3 h2 ->
  lookupCached W1 (fingerprint message h1) st0 = None ->
  redis_set_ok W1 = true ->
  redis_get_ok W2 = true ->
  now W2 < now W1 + CACHE_TTL ->
  let st1 := snd (handleMessage svc W1 message h1 st0) in
  exists advisory,
    response advisory = ADVISORY
    /\ sources advisory = []
    /\ handleMessage svc' W2 message h2 st1
       = (Returned {| ans_response := advisory; ans_cached := true |},
          logged st1 [EvCacheGet (cacheKey (fingerprint message h2))]).
Proof.
  intros Hdown Htail Hmiss Hset Hget Hsoon st1.
  pose proof (processQuery_degraded svc W1 message h1 st0 Hdown) as Hrun.
  destruct (handleMessage_caches svc W1 message h1 st0 _ Hmiss
              (f_equal fst Hrun) Hset) as (_ & Hentry).
  fold st1 in Hentry.
  rewrite (fingerprint_tail message h1 h2 Htail) in Hentry.
  eexists. split; [|split]; [| |
    rewrite (handleMessage_run svc' W2 message h2 st1); cbv zeta;
    unfold lookupCached, redis_get; rewrite Hget, Hentry;
    cbn [entry_expires entry_value];
    rewrite (proj2 (N.ltb_lt _ _) Hsoon); reflexivity ];
  reflexivity.
Qed.

(** X14: the other side of the 30 minutes: from the instant the entry expires
    the cache no longer answers; the next identical message runs the
    pipeline again. *)
Theorem cached_answer_expires (svc svc' : RAGService) (W1 W2 : World)
    (message : jsstring) (chatHistory : list ChatMessage) (st0 : Store)
    (r : QueryResult) :
  lookupCached W1 (fingerprint message chatHistory) st0 = None ->
  fst (processQuery svc W1 message chatHistory st0) = Returned r ->
  redis_set_ok W1 = true ->
  now W1 + CACHE_TTL <= now W2 ->
  let st1 := snd (handleMessage svc W1 message chatHistory st0) in
  lookupCached W2 (fingerprint message chatHistory) st1 = None
  /\ exists a st2,
       handleMessage svc' W2 message chatHistory st1 = (Returned a, st2)
       /\ ans_cached a = false.
Proof.
  intros Hmiss Hr Hset Hlate st1.
  destruct (handleMessage_caches svc W1 message chatHistory st0 r Hmiss Hr Hset)
    as (_ & Hentry).
  fold st1 in Hentry.
  assert (Hgone : lookupCached W2 (fingerprint message chatHistory) st1 = None).
  { unfold lookupCached, redis_get. rewrite Hentry.
    cbn [entry_expires entry_value].
    rewrite (proj2 (N.ltb_ge _ _) Hlate). now destruct (redis_get_ok W2). }
  split; [exact Hgone|].
  destruct (handleMessage_cases svc' W2 message chatHistory st1)
    as [(cached & Hhit & _)
       | (_ & calls & _ & [(r' & _ & Hrun) | (e & _ & Hrun)])].
  - rewrite Hgone in Hhit. discriminate.
  - rewrite Hrun. eexists. eexists. split; reflexivity.
  - rewrite Hrun. eexists. eexists. split; reflexivity.
Qed.

(** X15: a cache that is down is invisible to the user: with reads and writes
    failing, the handler answers what the pipeline answers (its result, or
    the apology when it throws), marks it as not cached, and leaves cache
    and collection as they were. *)
Theorem cache_outage_is_invisible (svc : RAGService) (W : World)
    (message : jsstring) (chatHistory : list ChatMessage) (st : Store) :
  redis_get_ok W = false ->
  redis_set_ok W = false ->
  exists st',
    handleMessage svc W message chatHistory st
    = (Returned {| ans_response :=
                     match fst (processQuery svc W message chatHistory st) with
                     | Returned r => r
                     | Thrown _ => apologyResult
                     end;
                   ans_cached := false |}, st')
    /\ cache st' = cache st
    /\ points st' = points st.
Proof.
  intros Hget Hset.
  destruct (handleMessage_cases svc W message chatHistory st)
    as [(cached & Hhit & _)
       | (_ & calls & _ & [(r & Hr & Hrun) | (e & He & Hrun)])].
  - unfold lookupCached in Hhit. rewrite Hget in Hhit. discriminate.
  - rewrite Hrun, Hr, Hset. eexists. split; [reflexivity|]. split; reflexivity.
  - rewrite Hrun, He. eexists. split; [reflexivity|]. split; reflexivity.
Qed.

(** X16: the handler's footprint: it never throws, never touches the collection,
    and the only cache key it can change is the key of the message's own
    fingerprint. *)
Theorem handleMessage_footprint (svc : RAGService) (W : World)
    (message : jsstring) (chatHistory : list ChatMessage) (st : Store) :
  exists a st',
    handleMessage svc W message chatHistory st = (Returned a, st')
    /\ points st' = points st
    /\ forall key, key <> cacheKey (fingerprint message chatHistory) ->
                   cache st' !! key = cache st !! key.
Proof.
  destruct (handleMessage_cases svc W message chatHistory st)
    as [(cached & _ & Hrun)
       | (_ & calls & _ & [(r & _ & Hrun) | (e & _ & Hrun)])];
    rewrite Hrun; eexists; eexists; (split; [reflexivity|]).
  - split; reflexivity.
  - destruct (redis_set_ok W); (split; [reflexivity|]); intros key Hkey.
    + cbn [cache redis_setEx]. now apply lookup_insert_ne.
    + reflexivity.
  - split; reflexivity.
Qed.

End PipelinePaths.

(* ===================================================================== *)
(** * Facts about what ingestion collects *)
(* ===================================================================== *)

Section CollectionOfArticles.
Import JS Normalizer Ingestion Retrieval Collection IngestionRun IngestionAdmin.
Local Open Scope N_scope.
Context `{Platform}.

Lemma ellipsis_clean : Forall clean_unit ELLIPSIS.
Proof.
  unfold ELLIPSIS. repeat constructor; try discriminate; right; right; reflexivity.
Qed.

Lemma truncate_clean (max : N) (content : jsstring) :
  Forall clean_unit content -> Forall clean_unit (truncate max content).
Proof.
  intros Hclean. unfold truncate. destruct (max <? len content); [|exact Hclean].
  apply Forall_app. split; [|exact ellipsis_clean].
  unfold slice_first. now apply Forall_take.
Qed.

Lemma truncate_len (max : N) (content : jsstring) :
  len (truncate max content) <= max + 3
  /\ (len content <= max -> len (truncate max content) = len content)
  /\ (max < len content -> len (truncate max content) = max + 3).
Proof.
  destruct (N.lt_ge_cases max (len content)) as [Hlong | Hshort].
  - destruct (truncate_long max content Hlong) as (_ & Hlen).
    rewrite Hlen. repeat split; lia.
  - rewrite (truncate_short max content Hshort). repeat split; lia.
Qed.

(** X17: what [scrapeFullArticle] returns, when it returns something, is clean
    text of more than 200 and at most 5003 code units. *)
Theorem scrapeFullArticle_bounds (W : Web) (url content : jsstring) :
  scrapeFullArticle W url = Some content ->
  200 < len content <= 5003 /\ Forall clean_unit content.
Proof.
  unfold scrapeFullArticle. destruct (extractPageText W url) as [extracted|];
    [|discriminate].
  destruct (200 <? len (truncate MAX_SCRAPED (cleanText extracted))) eqn:Hlong;
    [|discriminate].
  intros [= <-]. apply N.ltb_lt in Hlong.
  destruct (truncate_len MAX_SCRAPED (cleanText extracted)) as (Hmax & _).
  unfold MAX_SCRAPED in *. split; [lia|].
  apply truncate_clean, cleanText_units.
Qed.

Lemma processRSSItem_fields (W : Web) (item : Item)
    (source : Source) (a : Article) :
  processRSSItem W item source = Some a ->
  well_formed a
  /\ art_source a = src_name source
  /\ art_category a = src_category source
  /\ 1 <= art_wordCount a <= len (art_content a) + 1.
Proof.
  intros Hsome.
  destruct (processRSSItem_Some W item source a Hsome)
    as (key & _ & Hmin & _ & Hcontent & Htitle & _).
  unfold processRSSItem in Hsome.
  destruct (idKey item); [|discriminate].
  destruct (len (cleanText (rawContent W item)) <? MIN_CONTENT); [discriminate|].
  injection Hsome as <-. cbn [art_content art_title art_source art_category
                              art_wordCount] in *.
  unfold well_formed. cbn [art_content art_title].
  destruct (truncate_len MAX_CONTENT (cleanText (rawContent W item)))
    as (Hmax & Hshort & Hlong).
  unfold MIN_CONTENT, MAX_CONTENT in *.
  repeat split.
  - destruct (N.lt_ge_cases 6000 (len (cleanText (rawContent W item))));
      [rewrite Hlong by assumption | rewrite Hshort by assumption]; lia.
  - exact Hmax.
  - apply truncate_clean, cleanText_units.
  - apply cleanText_units.
  - unfold wordCount. lia.
  - unfold wordCount.
    pose proof (List.filter_length_le (N.eqb SPACE)
                  (truncate 6000 (cleanText (rawContent W item)))) as Hle.
    unfold len. lia.
Qed.

(** X18: every article [processRSSItem] returns has between 100 and 6003 code
    units of content, content and title made only of what [cleanText]
    lets through (the appended ellipsis included), the source's name and
    category, a word count between 1 and the content length plus 1, and a
    region that is never empty unless the source's is. *)
Theorem processed_article_is_well_formed (W : Web) (item : Item)
    (source : Source) (a : Article) :
  processRSSItem W item source = Some a ->
  well_formed a
  /\ art_source a = src_name source
  /\ art_category a = src_category source
  /\ 1 <= art_wordCount a <= len (art_content a) + 1
  /\ art_region a = or_default (src_region source) (str "Unknown").
Proof.
  intros Hsome.
  destruct (processRSSItem_fields W item source a Hsome)
    as (Hwf & Hsrc & Hcat & Hwords).
  repeat split; try assumption; try apply Hwf; try apply Hwords.
  unfold processRSSItem in Hsome.
  destruct (idKey item); [|discriminate].
  destruct (len (cleanText (rawContent W item)) <? MIN_CONTENT); [discriminate|].
  now injection Hsome as <-.
Qed.

Lemma length_omap_le {A B} (f : A -> option B) (l : list A) :
  (length (omap f l) <= length l)%nat.
Proof.
  induction l as [|x l IH]; [reflexivity|].
  cbn [omap list_omap]. destruct (f x); cbn [length]; fold (omap f l); lia.
Qed.

Lemma ingestFromRSS_articles (W : Web) (source : Source) :
  (length (ingestFromRSS W source) <= 15)%nat
  /\ Forall (fun a => exists item, processRSSItem W item source = Some a)
            (ingestFromRSS W source).
Proof.
  unfold ingestFromRSS. destruct (parseURL W (src_url source)) as [items|].
  - split.
    + etransitivity; [apply length_omap_le|]. unfold slice_first.
      rewrite length_take. change (N.to_nat 15) with 15%nat. lia.
    + apply Forall_forall. intros a Ha.
      apply list_elem_of_In, list_elem_of_omap in Ha. destruct Ha as (item & _ & Hitem).
      now exists item.
  - split; [simpl; lia | constructor].
Qed.

(** X19: a run over the configured sources collects at most 15 articles per
    source, every one well formed and carrying the name of one of the
    sources; a feed that cannot be parsed contributes nothing. *)
Theorem collected_articles_are_well_formed (W : Web) (rssSources : list Source) :
  len (collectAllSources W rssSources) <= 15 * len rssSources
  /\ Forall (fun a => well_formed a
                      /\ List.In (art_source a) (List.map src_name rssSources))
            (collectAllSources W rssSources)
  /\ (forall source, parseURL W (src_url source) = None ->
                     collectAllSources W [source] = []).
Proof.
  split; [|split].
  - unfold collectAllSources, len.
    induction rssSources as [|source rest IH]; [simpl; lia|].
    cbn [List.map concat]. rewrite length_app. cbn [length].
    destruct (ingestFromRSS_articles W source) as (Hle & _). lia.
  - unfold collectAllSources.
    induction rssSources as [|source rest IH]; [constructor|].
    cbn [List.map concat]. apply Forall_app. split.
    + destruct (ingestFromRSS_articles W source) as (_ & Hall).
      eapply List.Forall_impl; [|exact Hall].
      intros a (item & Ha). cbv beta.
      destruct (processRSSItem_fields W item source a Ha)
        as (Hwf & Hsrc & _).
      split; [exact Hwf | left; now rewrite Hsrc].
    + eapply List.Forall_impl; [|exact IH].
      intros a (Hwf & Hin). split; [exact Hwf | now right].
  - intros source Hnone. unfold collectAllSources, ingestFromRSS.
    cbn [List.map concat]. now rewrite Hnone.
Qed.

(** ** Deduplication drops nothing but repeats *)

Lemma filterUnique_covers (articles : list Article) :
  forall (seen seen' : Seen) (kept : list Article),
  filterUnique seen articles = (kept, seen') ->
  (forall k, k ∈ seenUrls seen -> k ∈ seenUrls seen')
  /\ (forall k, k ∈ seenTitles seen -> k ∈ seenTitles seen')
  /\ Forall (fun a => urlKey a ∈ seenUrls seen'
                      \/ titleKey a ∈ seenTitles seen') articles.
Proof.
  induction articles as [|a rest IH]; intros seen seen' kept Hrun.
  - injection Hrun as <- <-. repeat split; auto.
  - cbn [filterUnique] in Hrun.
    destruct (bool_decide (urlKey a ∈ seenUrls seen)
              || bool_decide (titleKey a ∈ seenTitles seen)) eqn:Hdup.
    + destruct (IH _ _ _ Hrun) as (Hu & Ht & Hall).
      repeat split; auto. constructor; [|exact Hall].
      apply orb_true_iff in Hdup.
      destruct Hdup as [Hd | Hd]; apply bool_decide_eq_true in Hd; auto.
    + destruct (filterUnique _ rest) as [kept' seen''] eqn:Hrest.
      injection Hrun as <- <-.
      destruct (IH _ _ _ Hrest) as (Hu & Ht & Hall).
      cbn [seenUrls seenTitles] in Hu, Ht.
      repeat split.
      * intros k Hk. apply Hu. apply elem_of_add. now right.
      * intros k Hk. apply Ht. apply elem_of_add. now right.
      * constructor; [|exact Hall].
        left. apply Hu. apply elem_of_add. now left.
Qed.

Lemma collectUnique_covers (W : Web) (rssSources : list Source) :
  forall seen : Seen,
  Forall (fun a =>
            (urlKey a ∈ seenUrls seen \/ titleKey a ∈ seenTitles seen)
            \/ exists b, List.In b (collectUnique W seen rssSources)
                         /\ (urlKey b = urlKey a \/ titleKey b = titleKey a))
         (collectAllSources W rssSources).
Proof.
  induction rssSources as [|source rest IH]; intros seen.
  - constructor.
  - unfold collectAllSources. cbn [List.map concat collectUnique].
    destruct (filterUnique seen (ingestFromRSS W source)) as [kept seen'] eqn:Hf.
    destruct (filterUnique_spec _ _ _ _ Hf) as (_ & _ & _ & Hurls & Htitles & _).
    destruct (filterUnique_covers _ _ _ _ Hf) as (_ & _ & Hall).
    assert (Hseen' : forall a,
              urlKey a ∈ seenUrls seen' \/ titleKey a ∈ seenTitles seen' ->
              (urlKey a ∈ seenUrls seen \/ titleKey a ∈ seenTitles seen)
              \/ exists b, List.In b (kept ++ collectUnique W seen' rest)
                           /\ (urlKey b = urlKey a \/ titleKey b = titleKey a)).
    { intros a [Hu | Ht].
      - apply Hurls in Hu. destruct Hu as [Hu | Hu]; [now left; left|].
        right. apply List.in_map_iff in Hu. destruct Hu as (b & Hb & Hin).
        exists b. split; [apply List.in_or_app; now left | now left].
      - apply Htitles in Ht. destruct Ht as [Ht | Ht]; [now left; right|].
        right. apply List.in_map_iff in Ht. destruct Ht as (b & Hb & Hin).
        exists b. split; [apply List.in_or_app; now left | now right]. }
    apply Forall_app. split.
    + eapply List.Forall_impl; [|exact Hall]. intros a Ha. now apply Hseen'.
    + eapply List.Forall_impl; [|exact (IH seen')].
      intros a [Ha | (b & Hb & Hkey)]; cbv beta.
      * now apply Hseen'.
      * right. exists b. split; [apply List.in_or_app; now right | exact Hkey].
Qed.

(** X20: deduplication loses no story: every article a plain run would collect
    is either kept by the deduplicating run or shares its URL or its
    normalised title with an article that is kept. *)
Theorem deduplication_drops_only_repeats (W : Web) (rssSources : list Source)
    (a : Article) :
  List.In a (collectAllSources W rssSources) ->
  exists b, List.In b (collectWithDeduplication W rssSources)
            /\ (urlKey b = urlKey a \/ titleKey b = titleKey a).
Proof.
  intros Hin.
  pose proof (collectUnique_covers W rssSources seen_none) as Hall.
  rewrite List.Forall_forall in Hall.
  destruct (Hall a Hin) as [[Hu | Ht] | Hb].
  - cbn in Hu. now apply not_elem_of_empty in Hu.
  - cbn in Ht. now apply not_elem_of_empty in Ht.
  - exact Hb.
Qed.

(** ** Runs *)

Lemma pointsOf_no_key (svc : RAGService) (W : World) (documents : list Article) :
  truthy (jinaApiKey svc) = false -> pointsOf svc W documents = [].
Proof.
  intros Hkey. unfold pointsOf, embeddingOf. rewrite Hkey.
  induction documents as [|doc rest IH]; [reflexivity | exact IH].
Qed.

Lemma storeBatchDocuments_no_points (svc : RAGService) (W : World)
    (documents : list Article) (st : Store) :
  pointsOf svc W documents = [] ->
  exists st',
    storeBatchDocuments svc W documents st = (Returned [], st')
    /\ points st' = points st /\ cache st' = cache st.
Proof.
  intros Hnone. unfold storeBatchDocuments, tryCatch.
  destruct (qdrant_upsert_ok W) eqn:Hok.
  - destruct (storeBatches_accepts svc W (length documents) Hok documents st
                (le_n _)) as (st' & Hrun & Hpts & Hcache).
    rewrite Hrun, Hnone. exists st'. rewrite Hpts, Hnone. now repeat split.
  - destruct (storeBatches_refused svc W (length documents) Hok documents st
                (le_n _)) as (o & st' & Hrun & Hpts & Hcache & Hempty & _).
    rewrite Hrun, (Hempty Hnone). exists st'. now repeat split.
Qed.

(** X21: without an embedding key an ingestion run still succeeds: it collects
    as usual, reports 0 stored, and the collection is as before. *)
Theorem ingestion_without_embedding_key_stores_nothing (svc : RAGService)
    (W : World) (web : Web) (rssSources : list Source) (st : Store) :
  truthy (jinaApiKey svc) = false ->
  exists report st',
    ingestAllSources svc W web rssSources st = (Returned report, st')
    /\ totalCollected report = len (collectAllSources web rssSources)
    /\ totalStored report = 0
    /\ points st' = points st.
Proof.
  intros Hkey. unfold ingestAllSources, tryCatch.
  destruct (0 <? len (collectAllSources web rssSources)) eqn:Hany.
  - destruct (storeBatchDocuments_no_points svc W
                (collectAllSources web rssSources) st
                (pointsOf_no_key svc W _ Hkey)) as (st' & Hrun & Hpts & _).
    unfold bind. rewrite Hrun. unfold ret.
    eexists. eexists. split; [reflexivity|]. now repeat split.
  - unfold ret. eexists. eexists. split; [reflexivity|].
    apply N.ltb_ge in Hany. cbn [totalCollected totalStored].
    repeat split. lia.
Qed.

(** X22: [ingestSingleSource] by cases: an unknown name ends in [Source not
    found] with nothing called; otherwise the report carries the name
    asked for, at most 15 collected and no more stored than collected. *)
Theorem ingestSingleSource_report (svc : RAGService) (W : World) (web : Web)
    (rssSources : list Source) (sourceName : jsstring) (st : Store) :
  (~ List.In sourceName (List.map src_name rssSources) ->
   ingestSingleSource svc W web rssSources sourceName st = (SourceNotFound, st))
  /\ (forall report st',
        ingestSingleSource svc W web rssSources sourceName st
        = (Ingested report, st') ->
        List.In sourceName (List.map src_name rssSources)
        /\ single_source report = sourceName
        /\ single_stored report <= single_collected report <= 15).
Proof.
  unfold ingestSingleSource.
  destruct (List.find (fun s => bool_decide (src_name s = sourceName)) rssSources)
    as [source|] eqn:Hfind.
  - apply List.find_some in Hfind. destruct Hfind as (Hin & Hname).
    apply bool_decide_eq_true in Hname.
    assert (Hknown : List.In sourceName (List.map src_name rssSources)).
    { apply List.in_map_iff. now exists source. }
    split; [intros Hunknown; now elim Hunknown|].
    intros report st'.
    destruct (ingestFromRSS_articles web source) as (Hle & _).
    destruct (0 <? len (ingestFromRSS web source)).
    + destruct (storeBatchDocuments svc W (ingestFromRSS web source) st)
        as [[storedIds|e] st1] eqn:Hstore; [|discriminate].
      intros [= <- <-]. cbn [single_source single_stored single_collected].
      apply storeBatchDocuments_ids in Hstore.
      apply sublist_length in Hstore. rewrite length_map in Hstore.
      unfold len. repeat split; [exact Hknown | lia | lia].
    + intros [= <- <-]. cbn [single_source single_stored single_collected].
      repeat split; [exact Hknown | lia | lia].
  - split; [reflexivity | discriminate].
Qed.

(** X23: [testSingleArticle] never reports [No content extracted]: the fallback
    after [||] is dead code.  When nothing could be scraped the content
    field is the text [undefined...] and the length 0; otherwise it is the
    first 500 code units followed by an ellipsis, also when the content
    was shorter than 500. *)
Theorem testSingleArticle_never_reports_no_content (W : Web) (url : jsstring) :
  test_content (testSingleArticle W url) <> NO_CONTENT
  /\ (scrapeFullArticle W url = None ->
      test_content (testSingleArticle W url) = str "undefined..."
      /\ test_contentLength (testSingleArticle W url) = 0)
  /\ (forall content, scrapeFullArticle W url = Some content ->
      test_content (testSingleArticle W url)
      = slice_first 500 content ++ str "..."
      /\ test_contentLength (testSingleArticle W url) = len content).
Proof.
  assert (Hshape : forall prefix : jsstring,
            match prefix ++ str "..." with
            | [] => NO_CONTENT
            | _ => prefix ++ str "..."
            end = prefix ++ str "...").
  { intros [|c r]; reflexivity. }
  assert (Hdiff : forall prefix : jsstring, prefix ++ str "..." <> NO_CONTENT).
  { intros prefix Heq. apply (f_equal (@rev N)) in Heq.
    rewrite rev_app_distr in Heq. discriminate Heq. }
  unfold testSingleArticle. cbn [test_content test_contentLength].
  destruct (scrapeFullArticle W url) as [content|].
  - rewrite Hshape. split; [apply Hdiff|]. split; [discriminate|].
    intros c [= <-]. split; reflexivity.
  - rewrite Hshape. split; [apply Hdiff|]. split; [|discriminate].
    intros _. split; reflexivity.
Qed.

End CollectionOfArticles.

(* ===================================================================== *)
(** * Facts about a chat turn *)
(* ===================================================================== *)

Section ChatFacts.
Import JS Retrieval Redis Chat.
Local Open Scope N_scope.
Context `{Platform}.

Lemma or_default_some (s : jsstring) : or_default (Some s) [] = s.
Proof. now destruct s. Qed.

Lemma lookup_live_ext (time : N) (key : jsstring) (db db' : Db) :
  db' !! key = db !! key -> lookup_live time key db' = lookup_live time key db.
Proof. intros Heq. unfold lookup_live. now rewrite Heq. Qed.

Lemma getChatHistory_ext (env : Env) (sid : jsstring) (limit : Z) (db db' : Db) :
  db' !! historyKey sid = db !! historyKey sid ->
  getChatHistory env sid limit db' = getChatHistory env sid limit db.
Proof.
  intros Heq. unfold getChatHistory, cmd_lRange.
  now rewrite (lookup_live_ext _ _ _ _ Heq).
Qed.

Lemma getSession_frame (env : Env) (sid key : jsstring) (db : Db) :
  key <> sessionKey sid ->
  snd (getSession env sid db) !! key = db !! key.
Proof.
  intros Hkey. unfold getSession.
  destruct (t_up env); [|reflexivity].
  destruct (lookup_live (t_now env) (sessionKey sid) db) as [e|]; [|reflexivity].
  destruct (e_value e); try reflexivity.
  cbn [snd]. unfold cmd_setEx. now apply lookup_insert_ne.
Qed.

Lemma createSession_frame (env : Env) (sid key : jsstring) (data : SessionData)
    (db : Db) :
  key <> sessionKey sid ->
  snd (createSession env sid data db) !! key = db !! key.
Proof.
  intros Hkey. unfold createSession.
  destruct (t_up env); [|reflexivity].
  cbn [snd]. unfold cmd_setEx. now apply lookup_insert_ne.
Qed.

Lemma getOrCreateSession_run (turn : Turn) (sid : jsstring) (data : SessionData)
    (db : Db) :
  t_up (on_create turn) = true ->
  exists s db1,
    getOrCreateSession turn sid data db = (Returned s, db1)
    /\ db1 !! historyKey sid = db !! historyKey sid.
Proof.
  intros Hup. unfold getOrCreateSession.
  pose proof (getSession_frame (on_lookup turn) sid (historyKey sid) db) as Hget.
  destruct (getSession (on_lookup turn) sid db) as [[s|] db1] eqn:Hlookup;
    cbn [snd] in Hget.
  - exists s, db1. split; [reflexivity|].
    apply Hget. intros Heq. symmetry in Heq.
    now apply sessionKey_not_historyKey in Heq.
  - unfold createSession. rewrite Hup.
    eexists. eexists. split; [reflexivity|].
    unfold cmd_setEx. rewrite lookup_insert_ne.
    + apply Hget. intros Heq. symmetry in Heq.
      now apply sessionKey_not_historyKey in Heq.
    + apply sessionKey_not_historyKey.
Qed.

(** What is in the history list of a session at a given time. *)
Lemma history_typed_range (env : Env) (sid : jsstring) (db : Db) :
  history_typed sid db ->
  exists before, cmd_lRange env (historyKey sid) 0 (-1) db = Some before.
Proof.
  unfold history_typed, cmd_lRange, lookup_live.
  destruct (db !! historyKey sid) as [e|]; [|now exists []].
  intros (l & Hl). destruct (is_live (t_now env) e); [|now exists []].
  rewrite Hl. eexists. reflexivity.
Qed.

Lemma addChatMessage_run (env : Env) (sid role content : jsstring)
    (before : list ChatMessage) (db : Db) :
  t_up env = true ->
  cmd_lRange env (historyKey sid) 0 (-1) db = Some before ->
  let m := {| msg_id := str "msg_" ++ t_stamp env;
              msg_timestamp := t_iso env;
              msg_role := role;
              msg_content := content |} in
  addChatMessage env sid role content db
  = (Returned m,
     <[ historyKey sid :=
          {| e_value := VMessages (firstn 100 (m :: before));
             e_expires := Some (t_now env + SESSION_TTL) |} ]> db).
Proof.
  intros Hup Hrange m. unfold addChatMessage. rewrite Hup. fold m.
  unfold cmd_lRange in Hrange. unfold cmd_lPush.
  destruct (lookup_live (t_now env) (historyKey sid) db) as [e|] eqn:Hlive.
  - destruct (e_value e) as [|l|] eqn:Hval; try discriminate.
    injection Hrange as <-. rewrite list_range_0_all.
    assert (Hlive' : is_live (t_now env)
                       {| e_value := VMessages (m :: l);
                          e_expires := e_expires e |} = true).
    { unfold lookup_live in Hlive.
      destruct (db !! historyKey sid) as [e'|]; [|discriminate].
      destruct (is_live (t_now env) e') eqn:He'; [|discriminate].
      injection Hlive as ->. exact He'. }
    rewrite (cmd_lTrim_newest env _ m l _ db Hlive').
    assert (Hlive'' : is_live (t_now env)
                        {| e_value := VMessages (firstn 100 (m :: l));
                           e_expires := e_expires e |} = true)
      by exact Hlive'.
    rewrite (cmd_expire_live env _ _ _ SESSION_TTL db Hlive'').
    reflexivity.
  - injection Hrange as <-.
    rewrite (cmd_lTrim_newest env _ m [] None db eq_refl).
    rewrite (cmd_expire_live env _ _ None SESSION_TTL db eq_refl).
    reflexivity.
Qed.

Lemma cmd_lRange_ext (env : Env) (key : jsstring) (start stop : Z) (db db' : Db) :
  db' !! key = db !! key ->
  cmd_lRange env key start stop db' = cmd_lRange env key start stop db.
Proof.
  intros Heq. unfold cmd_lRange. now rewrite (lookup_live_ext _ _ _ _ Heq).
Qed.

Lemma history_typed_ext (sid : jsstring) (db db' : Db) :
  db' !! historyKey sid = db !! historyKey sid ->
  history_typed sid db -> history_typed sid db'.
Proof. intros Heq. unfold history_typed. now rewrite Heq. Qed.

(** X24: the REST route has no [try] around the pipeline: when the pipeline
    throws on a cache miss, the route answers 500 after the user message
    has been appended, and the history ends with a question that has no
    answer. *)
Theorem rest_failure_leaves_question_unanswered (svc : RAGService)
    (turn : Turn) (message sessionId : jsstring) (db : Db) (st : Store)
    (e : Error) :
  message <> [] -> sessionId <> [] ->
  t_up (on_create turn) = true ->
  t_up (on_user turn) = true ->
  history_typed sessionId db ->
  let chatHistory := getChatHistory (on_history turn) sessionId 10 db in
  lookupCached (world turn) (fingerprint message chatHistory) st = None ->
  fst (processQuery svc (world turn) message chatHistory st) = Thrown e ->
  exists db' st',
    postMessage svc turn (Some message) (Some sessionId) db st
    = (ServerError, db', st')
    /\ getChatHistory (on_user turn) sessionId 1 db'
       = [ {| msg_id := str "msg_" ++ t_stamp (on_user turn);
              msg_timestamp := t_iso (on_user turn);
              msg_role := USER;
              msg_content := message |} ]
    /\ cache st' = cache st.
Proof.
  intros Hmsg Hsid Hcreate Huser Htyped chatHistory Hmiss Hthrown.
  unfold postMessage.
  assert (Hm : truthy (Some message) = true)
    by (destruct message; [now elim Hmsg | reflexivity]).
  assert (Hs : truthy (Some sessionId) = true)
    by (destruct sessionId; [now elim Hsid | reflexivity]).
  rewrite Hm, Hs, !or_default_some. cbn [negb orb].
  destruct (getOrCreateSession_run turn sessionId no_data db Hcreate)
    as (s & db1 & Hsession & Hsame).
  rewrite Hsession.
  rewrite (getChatHistory_ext _ _ _ _ _ Hsame). fold chatHistory.
  destruct (history_typed_range (on_user turn) sessionId db1
              (history_typed_ext _ _ _ Hsame Htyped)) as (before & Hbefore).
  rewrite (addChatMessage_run _ _ USER message before db1 Huser Hbefore).
  cbv zeta.
  unfold answerOrThrow. unfold bind at 1.
  rewrite getCachedQueryResult_run, Hmiss.
  destruct (processQuery_on_any_store svc (world turn) message chatHistory
              (logged st [EvCacheGet (cacheKey (fingerprint message chatHistory))])
              st _ Hthrown) as (calls & _ & Hrun).
  unfold bind at 1. rewrite Hrun.
  eexists. eexists. split; [reflexivity|]. split; [|reflexivity].
  rewrite getChatHistory_stored; [|exact Huser|].
  - rewrite list_range_0_nonneg by lia. reflexivity.
  - unfold is_live. cbn [e_expires]. apply N.ltb_lt. unfold SESSION_TTL. lia.
Qed.

(** X25: the socket handler does have the [try]: whatever the pipeline does, a
    turn on a joined session appends the question and then the answer the
    handler settled on (the cached result, the pipeline's, or the apology),
    emits them in that order, and raises no error event. *)
Theorem socket_turn_appends_question_and_answer (svc : RAGService)
    (turn : Turn) (message sessionId : jsstring) (db : Db) (st : Store) :
  message <> [] -> sessionId <> [] ->
  t_up (on_user turn) = true ->
  t_up (on_assistant turn) = true ->
  t_now (on_assistant turn) < t_now (on_user turn) + SESSION_TTL ->
  history_typed sessionId db ->
  let chatHistory := getChatHistory (on_history turn) sessionId 10 db in
  exists answer st' db',
    handleMessage svc (world turn) message chatHistory st
    = (Returned answer, st')
    /\ let question := {| msg_id := str "msg_" ++ t_stamp (on_user turn);
                          msg_timestamp := t_iso (on_user turn);
                          msg_role := USER;
                          msg_content := message |} in
       let reply := {| msg_id := str "msg_" ++ t_stamp (on_assistant turn);
                       msg_timestamp := t_iso (on_assistant turn);
                       msg_role := ASSISTANT;
                       msg_content := response (ans_response answer) |} in
       onMessage svc turn (Some sessionId) (Some message) (Some sessionId) db st
       = ([EmitUserTyping false; EmitUserMessage question]
          ++ (if ans_cached answer then [] else [EmitAssistantTyping true])
          ++ [EmitAssistantTyping false; EmitAssistantMessage reply],
          db', st')
       /\ getChatHistory (on_assistant turn) sessionId 2 db' = [question; reply].
Proof.
  intros Hmsg Hsid Huser Hassistant Hsoon Htyped chatHistory.
  destruct (handleMessage_returns svc (world turn) message chatHistory st)
    as (answer & st' & Hanswer).
  destruct (history_typed_range (on_user turn) sessionId db Htyped)
    as (before & Hbefore).
  exists answer, st'. eexists. split; [exact Hanswer|]. cbv zeta.
  unfold onMessage.
  assert (Hm : truthy (Some message) = true)
    by (destruct message; [now elim Hmsg | reflexivity]).
  assert (Hs : truthy (Some sessionId) = true)
    by (destruct sessionId; [now elim Hsid | reflexivity]).
  rewrite Hm, Hs, !or_default_some.
  rewrite bool_decide_eq_true_2 by reflexivity.
  cbn [negb orb]. fold chatHistory. rewrite Hanswer.
  rewrite (addChatMessage_run _ _ USER message before db Huser Hbefore).
  cbv zeta.
  set (question := {| msg_id := str "msg_" ++ t_stamp (on_user turn);
                      msg_timestamp := t_iso (on_user turn);
                      msg_role := USER;
                      msg_content := message |}).
  set (db1 := <[ historyKey sessionId := _ ]> db).
  assert (Hrange : cmd_lRange (on_assistant turn) (historyKey sessionId) 0 (-1) db1
                   = Some (firstn 100 (question :: before))).
  { unfold cmd_lRange, db1. rewrite lookup_live_insert_eq.
    unfold is_live. cbv beta iota delta [e_expires].
    rewrite (proj2 (N.ltb_lt _ _) Hsoon). cbv beta iota delta [e_value].
    now rewrite list_range_0_all. }
  rewrite (addChatMessage_run _ _ ASSISTANT _ _ db1 Hassistant Hrange).
  cbv zeta.
  set (reply := {| msg_id := str "msg_" ++ t_stamp (on_assistant turn);
                   msg_timestamp := t_iso (on_assistant turn);
                   msg_role := ASSISTANT;
                   msg_content := response (ans_response answer) |}).
  split.
  - rewrite <- !app_assoc. reflexivity.
  - rewrite (getChatHistory_ext (on_assistant turn) sessionId 2
               (<[ historyKey sessionId :=
                     {| e_value := VMessages
                                     (firstn 100 (reply :: firstn 100
                                                    (question :: before)));
                        e_expires := Some (t_now (on_assistant turn)
                                           + SESSION_TTL) |} ]> db1)).
    + rewrite getChatHistory_stored; [|exact Hassistant|].
      * rewrite list_range_0_nonneg by lia. reflexivity.
      * unfold is_live. cbn [e_expires]. apply N.ltb_lt.
        unfold SESSION_TTL. lia.
    + apply getSession_frame. intros Heq. symmetry in Heq.
      now apply sessionKey_not_historyKey in Heq.
Qed.

(** X26: a message for a session the socket has not joined changes nothing: one
    error event, no history entry, no provider call. *)
Theorem unjoined_socket_is_refused (svc : RAGService) (turn : Turn)
    (joined message sessionId : option jsstring) (db : Db) (st : Store) :
  truthy message = true -> truthy sessionId = true ->
  joined <> sessionId ->
  onMessage svc turn joined message sessionId db st
  = ([EmitError NOT_JOINED], db, st).
Proof.
  intros Hm Hs Hother. unfold onMessage. rewrite Hm, Hs.
  rewrite bool_decide_eq_false_2 by exact Hother.
  cbn [negb orb]. now rewrite orb_true_r.
Qed.

(** X27: the DELETE route cannot tell a missing session from an existing one:
    for an id with no session and no history it answers success while the
    client works, leaving the keyspace as it was; its 404 [Session not
    found] is reached exactly when the client fails. *)
Theorem delete_route_reports_outage_not_absence (turn : Turn)
    (sessionId : jsstring) (db : Db) :
  db !! sessionKey sessionId = None ->
  db !! historyKey sessionId = None ->
  deleteSessionRoute turn sessionId db = (t_up (on_lookup turn), db).
Proof.
  intros Hsession Hhistory. unfold deleteSessionRoute, deleteSession.
  destruct (t_up (on_lookup turn)); [|reflexivity].
  unfold cmd_del. rewrite (delete_id db _ Hsession).
  now rewrite (delete_id db _ Hhistory).
Qed.

End ChatFacts.

(* ===================================================================== *)
(** * Facts about start-up *)
(* ===================================================================== *)

Section SetupFacts.
Import JS Retrieval Setup.
Local Open Scope N_scope.
Context `{Platform}.

(** X28: [ensureCollection] by outcome: it succeeds exactly when the collection
    is there with 768 dimensions, or when creating goes through and there
    was nothing to delete or the delete went through.  It deletes only a
    listed collection whose size is not a confirmed 768, and a collection
    confirmed at 768 is neither deleted nor created. *)
Theorem ensureCollection_outcome (q : Qdrant) :
  (fst (ensureCollection q) = true <->
     (listed q = Some true /\ dimension q = Answer 768)
     \/ (create_ok q = true
         /\ (listed q = Some false
             \/ (listed q = Some true /\ dimension q <> Answer 768
                 /\ delete_ok q = true))))
  /\ (List.In DeleteCollection (snd (ensureCollection q)) ->
      listed q = Some true /\ dimension q <> Answer 768)
  /\ (listed q = Some true -> dimension q = Answer 768 ->
      ensureCollection q = (true, [GetCollections; GetCollection])).
Proof.
  unfold ensureCollection, recreate, createNewCollection, right_size,
    EMBEDDING_DIMENSION.
  destruct q as [l d del cre]. cbn [listed dimension delete_ok create_ok].
  destruct l as [[|]|]; destruct d as [| |n];
    try destruct (N.eqb_spec n 768) as [-> | Hn];
    destruct del, cre; cbn [fst snd app];
    (split; [|split]);
    try (intros _; split; [reflexivity | congruence]);
    try (cbn; intuition (discriminate || congruence)).
Qed.

(** X29: a start-up that cannot list the collections is never made good: the
    flag is set once, so every later query is answered with the advisory,
    without a call and without a change to the store, whatever the
    providers and the vector store have become; and the health check says
    no whatever it would find. *)
Theorem failed_startup_degrades_for_good (svc : RAGService) (q : Qdrant) :
  listed q = None ->
  forall (W : World) (later : Qdrant) (query : jsstring)
         (chatHistory : list ChatMessage) (st : Store),
    processQuery (start q svc) W query chatHistory st
    = (Returned {| response := ADVISORY;
                   sources := [];
                   queryHash := Some (fingerprint query chatHistory);
                   relevantDocsCount := Some 0 |}, st)
    /\ healthCheck (start q svc) later = false.
Proof.
  intros Hdown W later query chatHistory st.
  assert (Hflag : isQdrantAvailable (start q svc) = false).
  { unfold start, initialize, ensureCollection. now rewrite Hdown. }
  split.
  - now apply processQuery_degraded.
  - unfold healthCheck. now rewrite Hflag.
Qed.

End SetupFacts.

(* ===================================================================== *)
(** * Facts about the configuration check *)
(* ===================================================================== *)

Section ConfigFacts.
Import JS Retrieval Config.
Local Open Scope N_scope.
Context `{Platform}.

Lemma missingVars_ext (env env' : Environment) :
  Forall (fun name => env' !! name = env !! name) requiredEnvVars ->
  missingVars env' = missingVars env.
Proof.
  unfold missingVars. induction 1 as [|name rest Hname _ IH]; [reflexivity|].
  cbn [List.filter]. now rewrite Hname, IH.
Qed.

(** X30: the environment check and the service read different variables:
    the check looks at [JINA_EMBEDDINGS_API_KEY] and
    [GOOGLE_GEMINI_API_KEY], the constructor at [JINA_API_KEY] and
    [GEMINI_API_KEY].  So an environment that passes the check still passes
    it with the constructor's two variables unset, and the service built
    from it, whatever [initialize] found, throws on every embedding and
    every generation without calling a provider. *)
Theorem validated_environment_can_leave_service_keyless (env : Environment) :
  validateConfiguration env = true ->
  let env' := delete (str "GEMINI_API_KEY") (delete (str "JINA_API_KEY") env) in
  validateConfiguration env' = true
  /\ forall (ready : bool) (W : World) (st : Store),
       (forall text,
          generateEmbedding (initialize (construct env') ready) W text st
          = (Thrown JinaKeyMissing, st))
       /\ (forall query context chatHistory,
             generateResponse (initialize (construct env') ready) W query
                              context chatHistory st
             = (Thrown GeminiKeyMissing, st)).
Proof.
  intros Hvalid env'. split.
  - unfold validateConfiguration. rewrite (missingVars_ext env env').
    + exact Hvalid.
    + unfold env', requiredEnvVars.
      repeat constructor;
        (rewrite !lookup_delete_ne; [reflexivity | |]; intros Heq;
         vm_compute in Heq; discriminate Heq).
  - intros ready W st.
    assert (Hjina : jinaApiKey (initialize (construct env') ready) = None).
    { unfold initialize, construct, env'. cbn [jinaApiKey].
      rewrite lookup_delete_ne.
      - apply lookup_delete_eq.
      - intros Heq. vm_compute in Heq. discriminate Heq. }
    assert (Hgemini : geminiApiKey (initialize (construct env') ready) = None).
    { unfold initialize, construct, env'. cbn [geminiApiKey].
      apply lookup_delete_eq. }
    split.
    + intros text. unfold generateEmbedding, tryCatch. now rewrite Hjina.
    + intros query context chatHistory.
      unfold generateResponse, tryCatch. now rewrite Hgemini.
Qed.

End ConfigFacts.

(* ===================================================================== *)
(** * The theorems above at concrete inputs *)
(* ===================================================================== *)

Section Instances.
Import JS Normalizer Ingestion Retrieval Redis Collection IngestionRun
       IngestionAdmin Chat Setup Config.
Local Open Scope N_scope.

Lemma chat_history_bound_witness :
  (length (getChatHistory (Scenario.env 20 "20") Scenario.sid 50
             Scenario.afterHello) <= 100)%nat.
Proof.
  refine (proj1 (chat_history_is_bounded (Scenario.env 10 "10_a")
                   (Scenario.env 20 "20") Scenario.sid USER Scenario.hello
                   Scenario.empty Scenario.afterHello Scenario.helloMessage
                   50 _)).
  vm_compute. reflexivity.
Defined.

Lemma history_after_add_witness :
  getChatHistory (Scenario.env 10 "10_a") Scenario.sid 10 Scenario.afterHello
  = slice_last (Z.to_N (10 - 1))
      (getChatHistory (Scenario.env 10 "10_a") Scenario.sid 0 Scenario.empty)
    ++ [Scenario.helloMessage].
Proof.
  refine (history_after_add (Scenario.env 10 "10_a") Scenario.sid USER
            Scenario.hello Scenario.empty Scenario.afterHello
            Scenario.helloMessage 10 _ _).
  - vm_compute. reflexivity.
  - lia.
Defined.

Lemma deleteSession_witness :
  let db' := snd (deleteSession (Scenario.env 30 "30") Scenario.sid
                    Scenario.afterHello) in
  getSession (Scenario.env 40 "40") Scenario.sid db' = (None, db')
  /\ getChatHistory (Scenario.env 40 "40") Scenario.sid 10 db' = [].
Proof.
  cbv zeta.
  refine (let P := deleteSession_forgets_session (Scenario.env 30 "30")
                     (Scenario.env 40 "40") Scenario.sid 10
                     Scenario.afterHello _ _ in
          conj (proj1 P) (proj1 (proj2 P))).
  reflexivity.
Defined.

Lemma session_kept_alive_witness :
  exists s' db'',
    getSession (Scenario.env 86499 "late") Scenario.sid Scenario.touched
    = (Some s', db'')
    /\ ses_createdAt s' = str "2024-01-02T00:00:00.000Z".
Proof.
  destruct (session_is_kept_alive_by_reads (Scenario.env 100 "100")
              (Scenario.env 86499 "late") Scenario.sid Scenario.created
              Scenario.touched
              (Scenario.session (str "2024-01-02T00:00:00.000Z")))
    as (s' & db'' & Hget & _ & Hcreated & _).
  - vm_compute. reflexivity.
  - reflexivity.
  - vm_compute. reflexivity.
  - exists s', db''. split; [exact Hget | exact Hcreated].
Defined.

Lemma created_session_witness :
  getSession (Scenario.env 86400 "late") Scenario.sid Scenario.created
  = (None, Scenario.created).
Proof.
  refine (proj2 (created_session_lifetime (Scenario.env 0 "0")
                   (Scenario.env 86400 "late") Scenario.sid no_data
                   Scenario.empty Scenario.created
                   (Scenario.session (str "2024-01-02T00:00:00.000Z")) _ _) _).
  - vm_compute. reflexivity.
  - reflexivity.
  - vm_compute. discriminate.
Defined.

Lemma counter_window_witness :
  exists db',
    incrementAll [Scenario.env 0 "a"; Scenario.env 10 "b"; Scenario.env 59 "c"]
      (str "rate:1") 60 Scenario.empty
    = ([1; 2; 3], db')
    /\ db' !! str "rate:1"
       = Some {| e_value := VCounter 3; e_expires := Some 60 |}.
Proof.
  refine (counter_window_is_fixed (Scenario.env 0 "a")
            [Scenario.env 10 "b"; Scenario.env 59 "c"] (str "rate:1") 60
            Scenario.empty _ _ _).
  - reflexivity.
  - reflexivity.
  - repeat constructor.
Defined.

Lemma stored_batch_witness :
  exists st',
    storeBatchDocuments Demo.service
      (Demo.world 0 [] Rejected) [Scenario.shortArticle; Scenario.shortArticle]
      store_empty
    = (Returned (List.map pt_id
                   (pointsOf Demo.service (Demo.world 0 [] Rejected)
                      [Scenario.shortArticle; Scenario.shortArticle])), st')
    /\ cache st' = cache store_empty.
Proof.
  destruct (storeBatchDocuments_stores_embeddable
              Demo.service (Demo.world 0 [] Rejected)
              [Scenario.shortArticle; Scenario.shortArticle] store_empty
              eq_refl)
    as (st' & Hrun & _ & _ & Hcache).
  exists st'. split; [exact Hrun | exact Hcache].
Defined.

Lemma refused_batch_witness :
  exists o st',
    storeBatchDocuments Demo.service Scenario.readOnly
      [Scenario.shortArticle] store_empty
    = (o, st')
    /\ points st' = points store_empty.
Proof.
  destruct (storeBatchDocuments_refused Demo.service
              Scenario.readOnly [Scenario.shortArticle] store_empty eq_refl)
    as (o & st' & Hrun & Hpoints & _).
  exists o, st'. split; [exact Hrun | exact Hpoints].
Defined.

Lemma search_failure_witness :
  exists calls,
    processQuery (H := Demo.platform) Demo.service
      (Scenario.noEmbedding (Answer Scenario.answerText)) Demo.question []
      store_empty
    = (Returned {| response := Scenario.answerText;
                   sources := [];
                   queryHash := Some (fingerprint (H := Demo.platform)
                                        Demo.question []);
                   relevantDocsCount := Some 0 |},
       logged store_empty
         (calls ++ [EvGenerate (emptyDatabasePrompt Demo.question [])])).
Proof.
  destruct (search_failure_is_answered_as_empty_database (H := Demo.platform)
              Demo.service (Scenario.noEmbedding (Answer Scenario.answerText))
              Demo.question [] store_empty Scenario.answerText
              eq_refl (or_introl eq_refl) eq_refl eq_refl)
    as (calls & _ & Hrun).
  exists calls. exact Hrun.
Defined.

Lemma grounded_answer_witness :
  let W := Demo.world 0 [Demo.nearPoint] (Answer Scenario.answerText) in
  processQuery (H := Demo.platform) Demo.service W Demo.question [] store_empty
  = (Returned {| response := Scenario.answerText;
                 sources := List.map (fun hit => toSourceRef (toDoc hit))
                                     [Demo.nearPoint];
                 queryHash := Some (fingerprint (H := Demo.platform)
                                      Demo.question []);
                 relevantDocsCount := Some (len [Demo.nearPoint]) |},
     logged store_empty
       [EvEmbed Demo.question;
        EvSearch [(1 # 2)%Q] 5 (7 # 10)%Q;
        EvGenerate (groundedPrompt Demo.question
                      (List.map toDoc [Demo.nearPoint]) [])]).
Proof.
  cbv zeta.
  refine (grounded_answer_cites_hits_in_order (H := Demo.platform)
            Demo.service
            (Demo.world 0 [Demo.nearPoint] (Answer Scenario.answerText))
            Demo.question [] store_empty [(1 # 2)%Q] [Demo.nearPoint]
            Scenario.answerText _ _ _ _ _ _).
  - reflexivity.
  - reflexivity.
  - vm_compute. reflexivity.
  - discriminate.
  - reflexivity.
  - reflexivity.
Defined.

Lemma degraded_advisory_witness :
  let st1 := snd (handleMessage (H := Demo.platform) Demo.degradedService
                    (Demo.world 0 [] Rejected) Demo.question [] store_empty) in
  exists advisory,
    response advisory = ADVISORY
    /\ handleMessage (H := Demo.platform) Demo.service
         (Demo.world 1799 [Demo.nearPoint] (Answer Scenario.answerText))
         Demo.question [] st1
       = (Returned {| ans_response := advisory; ans_cached := true |},
          logged st1 [EvCacheGet (cacheKey (fingerprint (H := Demo.platform)
                                              Demo.question []))]).
Proof.
  cbv zeta.
  destruct (degraded_advisory_outlives_recovery (H := Demo.platform)
              Demo.degradedService Demo.service (Demo.world 0 [] Rejected)
              (Demo.world 1799 [Demo.nearPoint] (Answer Scenario.answerText))
              Demo.question [] [] store_empty)
    as (advisory & Hresponse & _ & Hrun).
  - reflexivity.
  - reflexivity.
  - reflexivity.
  - reflexivity.
  - reflexivity.
  - vm_compute. reflexivity.
  - exists advisory. split; [exact Hresponse | exact Hrun].
Defined.

Lemma cached_answer_expiry_witness :
  let W1 := Demo.world 0 [Demo.nearPoint] (Answer Scenario.answerText) in
  let W2 := Demo.world 1800 [Demo.nearPoint] (Answer Scenario.answerText) in
  let st1 := snd (handleMessage (H := Demo.platform) Demo.service W1
                    Demo.question [] store_empty) in
  lookupCached W2 (fingerprint (H := Demo.platform) Demo.question []) st1 = None.
Proof.
  cbv zeta.
  refine (proj1 (cached_answer_expires (H := Demo.platform) Demo.service
                   Demo.service
                   (Demo.world 0 [Demo.nearPoint] (Answer Scenario.answerText))
                   (Demo.world 1800 [Demo.nearPoint]
                      (Answer Scenario.answerText))
                   Demo.question [] store_empty
                   {| response := Scenario.answerText;
                      sources := [toSourceRef (toDoc Demo.nearPoint)];
                      queryHash := Some (fingerprint (H := Demo.platform)
                                           Demo.question []);
                      relevantDocsCount := Some 1 |} _ _ _ _)).
  - reflexivity.
  - vm_compute. reflexivity.
  - reflexivity.
  - vm_compute. discriminate.
Defined.

Lemma cache_outage_witness :
  exists st',
    handleMessage (H := Demo.platform) Demo.service
      (Scenario.noCache Rejected) Demo.question [] store_empty
    = (Returned {| ans_response :=
                     match fst (processQuery (H := Demo.platform) Demo.service
                                  (Scenario.noCache Rejected) Demo.question []
                                  store_empty) with
                     | Returned r => r
                     | Thrown _ => apologyResult
                     end;
                   ans_cached := false |}, st')
    /\ cache st' = cache store_empty
    /\ points st' = points store_empty.
Proof.
  exact (cache_outage_is_invisible (H := Demo.platform) Demo.service
           (Scenario.noCache Rejected) Demo.question [] store_empty
           eq_refl eq_refl).
Defined.

Lemma scrape_bounds_witness :
  200 < len (List.repeat 98 (N.to_nat 250)) <= 5003.
Proof.
  refine (proj1 (scrapeFullArticle_bounds Demo.otherWeb
                   (str "https://example.org/a")
                   (List.repeat 98 (N.to_nat 250)) _)).
  vm_compute. reflexivity.
Defined.

Lemma processed_article_witness :
  well_formed Scenario.shortArticle.
Proof.
  refine (proj1 (processed_article_is_well_formed (H := Demo.platform)
                   Demo.web (Demo.item Demo.shortBody) (Demo.wire "a")
                   Scenario.shortArticle _)).
  vm_compute. reflexivity.
Defined.

Lemma deduplication_witness :
  exists b,
    List.In b (collectWithDeduplication (H := Demo.platform) Demo.web
                 [Demo.wire "a"; Demo.wire "b"])
    /\ (urlKey b = str "https://example.org/a"
        \/ titleKey b = titleKey Scenario.shortArticle).
Proof.
  refine (deduplication_drops_only_repeats (H := Demo.platform) Demo.web
            [Demo.wire "a"; Demo.wire "b"]
            {| art_id := str "md5:https://example.org/a";
               art_title := str "Rates held";
               art_content := Demo.shortBody;
               art_url := str "https://example.org/a";
               art_publishedAt := str "Mon, 01 Jan 2024";
               art_source := str "b";
               art_category := str "world";
               art_region := str "Unknown";
               art_wordCount := 1 |} _).
  vm_compute. right. left. reflexivity.
Defined.

Lemma keyless_ingestion_witness :
  exists report st',
    ingestAllSources (H := Demo.platform) Scenario.keyless
      (Demo.world 0 [] Rejected) Demo.web [Demo.wire "a"] store_empty
    = (Returned report, st')
    /\ totalStored report = 0.
Proof.
  destruct (ingestion_without_embedding_key_stores_nothing (H := Demo.platform)
              Scenario.keyless (Demo.world 0 [] Rejected) Demo.web
              [Demo.wire "a"] store_empty eq_refl)
    as (report & st' & Hrun & _ & Hstored & _).
  exists report, st'. split; [exact Hrun | exact Hstored].
Defined.

Lemma rest_failure_witness :
  exists db' st',
    postMessage (H := Demo.platform) Demo.service
      (Scenario.turn (Demo.world 0 [Demo.nearPoint] Rejected))
      (Some Scenario.hello) (Some Scenario.sid) Scenario.empty store_empty
    = (ServerError, db', st').
Proof.
  destruct (rest_failure_leaves_question_unanswered (H := Demo.platform)
              Demo.service
              (Scenario.turn (Demo.world 0 [Demo.nearPoint] Rejected))
              Scenario.hello Scenario.sid Scenario.empty store_empty
              RequestFailed)
    as (db' & st' & Hrun & _).
  - discriminate.
  - discriminate.
  - reflexivity.
  - reflexivity.
  - exact I.
  - reflexivity.
  - vm_compute. reflexivity.
  - exists db', st'. exact Hrun.
Defined.

Lemma socket_turn_witness :
  exists answer st' db',
    handleMessage (H := Demo.platform) Demo.service
      (Demo.world 0 [Demo.nearPoint] Rejected) Scenario.hello
      (getChatHistory (Scenario.env 2 "2") Scenario.sid 10 Scenario.empty)
      store_empty
    = (Returned answer, st')
    /\ getChatHistory (Scenario.env 4 "4_a") Scenario.sid 2 db'
       = [ {| msg_id := str "msg_3_u";
              msg_timestamp := str "2024-01-02T00:00:00.000Z";
              msg_role := USER;
              msg_content := Scenario.hello |};
           {| msg_id := str "msg_4_a";
              msg_timestamp := str "2024-01-02T00:00:00.000Z";
              msg_role := ASSISTANT;
              msg_content := response (ans_response answer) |} ].
Proof.
  destruct (socket_turn_appends_question_and_answer (H := Demo.platform)
              Demo.service
              (Scenario.turn (Demo.world 0 [Demo.nearPoint] Rejected))
              Scenario.hello Scenario.sid Scenario.empty store_empty)
    as (answer & st' & db' & Hanswer & _ & Hhistory).
  - discriminate.
  - discriminate.
  - reflexivity.
  - reflexivity.
  - vm_compute. reflexivity.
  - exact I.
  - exists answer, st', db'. split; [exact Hanswer | exact Hhistory].
Defined.

Lemma unjoined_socket_witness :
  onMessage (H := Demo.platform) Demo.service
    (Scenario.turn (Demo.world 0 [] Rejected)) None
    (Some Scenario.hello) (Some Scenario.sid) Scenario.empty store_empty
  = ([EmitError NOT_JOINED], Scenario.empty, store_empty).
Proof.
  refine (unjoined_socket_is_refused (H := Demo.platform) Demo.service
            (Scenario.turn (Demo.world 0 [] Rejected)) None
            (Some Scenario.hello) (Some Scenario.sid) Scenario.empty
            store_empty _ _ _).
  - reflexivity.
  - reflexivity.
  - discriminate.
Defined.

Lemma delete_route_witness :
  deleteSessionRoute (Scenario.turn (Demo.world 0 [] Rejected))
    (str "no-such-session") Scenario.empty
  = (true, Scenario.empty).
Proof.
  exact (delete_route_reports_outage_not_absence
           (Scenario.turn (Demo.world 0 [] Rejected)) (str "no-such-session")
           Scenario.empty eq_refl eq_refl).
Defined.

Lemma failed_startup_witness :
  processQuery (H := Demo.platform) (start Scenario.unreachable Demo.service)
    (Demo.world 0 [Demo.nearPoint] (Answer Scenario.answerText))
    Demo.question [] store_empty
  = (Returned {| response := ADVISORY;
                 sources := [];
                 queryHash := Some (fingerprint (H := Demo.platform)
                                      Demo.question []);
                 relevantDocsCount := Some 0 |}, store_empty)
  /\ healthCheck (start Scenario.unreachable Demo.service) Scenario.healthy
     = false.
Proof.
  exact (failed_startup_degrades_for_good (H := Demo.platform) Demo.service
           Scenario.unreachable eq_refl
           (Demo.world 0 [Demo.nearPoint] (Answer Scenario.answerText))
           Scenario.healthy Demo.question [] store_empty).
Defined.

Lemma validated_environment_witness :
  let env' := delete (str "GEMINI_API_KEY")
                (delete (str "JINA_API_KEY") Scenario.production) in
  validateConfiguration env' = true
  /\ generateEmbedding (initialize (construct env') true)
       (Demo.world 0 [] Rejected) Demo.question store_empty
     = (Thrown JinaKeyMissing, store_empty).
Proof.
  cbv zeta.
  refine (let P := validated_environment_can_leave_service_keyless
                     Scenario.production _ in
          conj (proj1 P)
               (proj1 (proj2 P true (Demo.world 0 [] Rejected) store_empty)
                  Demo.question)).
  vm_compute. reflexivity.
Defined.

End Instances.
